(** * Control de aforo por cruce de línea: calibración, tracking y cruces

    Shallow embedding of the class [ControlAforoCruceLinea] of
    [src/aforo/v8.py]: every method that the tracking, calibration and
    line-crossing engine is made of becomes a function on an explicit
    object state, and a Python exception becomes a [Raise] result.  The
    database and the window are the outside of the program: what the
    connector, the reader, the mouse and the keyboard answer is an input
    of the functions that embed [registrar_movimiento] and [ejecutar].

    Number model.  Pixel coordinates, identifiers and foot positions are
    Python [int]s, hence [Z].  Python [float]s are represented by the
    rational they denote ([Q], kept in lowest terms with [Qred]) and their
    arithmetic is taken exact; comparisons of floats are exact in Python
    as well.  A Euclidean distance is the square root of an integer and is
    kept as that integer ([Raiz]): square roots are compared through their
    radicands. *)

From Stdlib Require Import ZArith QArith Qabs Qround Lia Lqa.
From stdpp Require Import gmap list.

Open Scope Z_scope.

(* ================================================================= *)
(** ** Python values *)

Inductive excepcion := ZeroDivisionError | TypeError.

(** Outcome of a call: a returned value or a raised exception. *)
Inductive res (A : Type) :=
  | Ret (a : A)
  | Raise (e : excepcion).
Arguments Ret {A} a.
Arguments Raise {A} e.

Definition Qltb (x y : Q) : bool := Qnum x * QDen y <? Qnum y * QDen x.

(** [int(x)] on a float: truncation toward zero. *)
Definition py_int (x : Q) : Z := Z.quot (Qnum x) (QDen x).

(** Nearest integer, ties to the even one (the rounding of [round]). *)
Definition redondear (x : Q) : Z :=
  let n := Qnum x in
  let d := QDen x in
  let f := n `div` d in
  match 2 * (n `mod` d) ?= d with
  | Lt => f
  | Gt => f + 1
  | Eq => if Z.even f then f else f + 1
  end.

(** [round(x, 1)]. *)
Definition py_round1 (x : Q) : Q :=
  Qred (inject_Z (redondear (x * 10)) / 10).

(** [np.mean] of a list of integers. *)
Definition np_mean (l : list Z) : Q :=
  Qred (inject_Z (foldr Z.add 0 l) / inject_Z (Z.of_nat (length l))).

(** A distance [sqrt r], kept as its radicand [r]. *)
Inductive distancia := Raiz (r : Z).

Definition radicando (d : distancia) : Z := let 'Raiz r := d in r.

(** The distance denoted by a non-negative integer. *)
Definition distancia_de_Z (n : Z) : distancia := Raiz (n * n).

Definition dist_ltb (d1 d2 : distancia) : bool := radicando d1 <? radicando d2.

(* ================================================================= *)
(** ** Data *)

Definition punto : Type := Z * Z.
Definition bbox : Type := Z * Z * Z * Z.
Definition color_bgr : Type := Z * Z * Z.

(** The classification strings: "Sin calibrar", "Niño/a", "Adolescente",
    "Mujer", "Hombre". *)
Inductive categoria := SinCalibrar | Nino | Adolescente | Mujer | Hombre.

(** The movement strings "entrada" and "salida". *)
Inductive movimiento := entrada | salida.

(** The zone strings "Arriba" and "Abajo". *)
Inductive zona := Arriba | Abajo.

Global Instance categoria_eq_dec : EqDecision categoria.
Proof. solve_decision. Defined.
Global Instance movimiento_eq_dec : EqDecision movimiento.
Proof. solve_decision. Defined.
Global Instance zona_eq_dec : EqDecision zona.
Proof. solve_decision. Defined.

(** The dictionary stored per tracked person. *)
Record info_persona := {
  i_bbox : bbox;
  i_centro : punto;
  i_pies : punto;
  i_altura_px : Z;
  i_altura_cm : option Q;
  i_clasificacion : categoria;
  i_color : color_bgr
}.

(** The dictionary appended to [movimientos] for a crossing. *)
Record mov_info := {
  m_tipo : movimiento;
  m_clasificacion : categoria;
  m_altura_px : Z;
  m_altura_cm : option Q
}.

(** [distancia_maxima_tracking] and [max_historial] are assigned once in
    [__init__] and never written again. *)
Definition distancia_maxima_tracking : Z := 100.
Definition max_historial : nat := 5.

(** The attributes of a [ControlAforoCruceLinea] object that the engine
    reads or writes.  [personas_trackeadas] is a dictionary iterated in
    insertion order, hence an association list. *)
Record ControlAforoCruceLinea := {
  y_cruce : option Z;
  posicion_y_cruce : Q;
  personas_trackeadas : list (Z * info_persona);
  siguiente_id : Z;
  historial_posicion : gmap Z (list Z);
  ids_cruzados : gset Z;
  total_entradas : Z;
  total_salidas : Z;
  calibrado : bool;
  altura_real_referencia_cm : option Q;
  altura_pixeles_referencia : option Z;
  factor_conversion : option Q;
  modo_calibracion : bool;
  punto1_calibracion : option punto;
  punto2_calibracion : option punto
}.

(** [__init__]. *)
Definition init : ControlAforoCruceLinea := {|
  y_cruce := None;
  posicion_y_cruce := 1 # 2;
  personas_trackeadas := [];
  siguiente_id := 0;
  historial_posicion := ∅;
  ids_cruzados := ∅;
  total_entradas := 0;
  total_salidas := 0;
  calibrado := false;
  altura_real_referencia_cm := None;
  altura_pixeles_referencia := None;
  factor_conversion := None;
  modo_calibracion := false;
  punto1_calibracion := None;
  punto2_calibracion := None
|}.

(** Attribute assignments. *)
Definition set_y_cruce (v : option Z) (s : ControlAforoCruceLinea) :=
  {| y_cruce := v; posicion_y_cruce := posicion_y_cruce s;
     personas_trackeadas := personas_trackeadas s;
     siguiente_id := siguiente_id s;
     historial_posicion := historial_posicion s;
     ids_cruzados := ids_cruzados s;
     total_entradas := total_entradas s; total_salidas := total_salidas s;
     calibrado := calibrado s;
     altura_real_referencia_cm := altura_real_referencia_cm s;
     altura_pixeles_referencia := altura_pixeles_referencia s;
     factor_conversion := factor_conversion s;
     modo_calibracion := modo_calibracion s;
     punto1_calibracion := punto1_calibracion s;
     punto2_calibracion := punto2_calibracion s |}.

Definition set_tracking (p : list (Z * info_persona)) (n : Z)
    (h : gmap Z (list Z)) (c : gset Z) (s : ControlAforoCruceLinea) :=
  {| y_cruce := y_cruce s; posicion_y_cruce := posicion_y_cruce s;
     personas_trackeadas := p;
     siguiente_id := n;
     historial_posicion := h;
     ids_cruzados := c;
     total_entradas := total_entradas s; total_salidas := total_salidas s;
     calibrado := calibrado s;
     altura_real_referencia_cm := altura_real_referencia_cm s;
     altura_pixeles_referencia := altura_pixeles_referencia s;
     factor_conversion := factor_conversion s;
     modo_calibracion := modo_calibracion s;
     punto1_calibracion := punto1_calibracion s;
     punto2_calibracion := punto2_calibracion s |}.

Definition set_siguiente_id (n : Z) (s : ControlAforoCruceLinea) :=
  set_tracking (personas_trackeadas s) n (historial_posicion s)
    (ids_cruzados s) s.

Definition set_historial_posicion (h : gmap Z (list Z))
    (s : ControlAforoCruceLinea) :=
  set_tracking (personas_trackeadas s) (siguiente_id s) h (ids_cruzados s) s.

Definition set_ids_cruzados (c : gset Z) (s : ControlAforoCruceLinea) :=
  set_tracking (personas_trackeadas s) (siguiente_id s)
    (historial_posicion s) c s.

Definition set_calibracion (cal : bool) (real : option Q) (px : option Z)
    (factor : option Q) (modo : bool) (p1 p2 : option punto)
    (s : ControlAforoCruceLinea) :=
  {| y_cruce := y_cruce s; posicion_y_cruce := posicion_y_cruce s;
     personas_trackeadas := personas_trackeadas s;
     siguiente_id := siguiente_id s;
     historial_posicion := historial_posicion s;
     ids_cruzados := ids_cruzados s;
     total_entradas := total_entradas s; total_salidas := total_salidas s;
     calibrado := cal;
     altura_real_referencia_cm := real;
     altura_pixeles_referencia := px;
     factor_conversion := factor;
     modo_calibracion := modo;
     punto1_calibracion := p1;
     punto2_calibracion := p2 |}.

(* ================================================================= *)
(** ** Calibración de altura *)

Definition iniciar_calibracion (s : ControlAforoCruceLinea)
    (altura_real_cm : Q) : ControlAforoCruceLinea :=
  set_calibracion (calibrado s) (Some altura_real_cm)
    (altura_pixeles_referencia s) (factor_conversion s) true None None s.

(** [mouse_callback_calibracion]; [lbuttondown] tells whether the event is
    [cv2.EVENT_LBUTTONDOWN]. *)
Definition mouse_callback_calibracion (s : ControlAforoCruceLinea)
    (lbuttondown : bool) (x y : Z) : ControlAforoCruceLinea :=
  if lbuttondown && modo_calibracion s then
    match punto1_calibracion s, punto2_calibracion s with
    | None, p2 =>
        set_calibracion (calibrado s) (altura_real_referencia_cm s)
          (altura_pixeles_referencia s) (factor_conversion s)
          (modo_calibracion s) (Some (x, y)) p2 s
    | Some p1, None =>
        set_calibracion (calibrado s) (altura_real_referencia_cm s)
          (altura_pixeles_referencia s) (factor_conversion s)
          (modo_calibracion s) (Some p1) (Some (x, y)) s
    | Some _, Some _ => s
    end
  else s.

(** [confirmar_calibracion].  The pixel height is stored before the
    division is evaluated, so a raised exception leaves it assigned. *)
Definition confirmar_calibracion (s : ControlAforoCruceLinea)
    : ControlAforoCruceLinea * res bool :=
  match punto1_calibracion s, punto2_calibracion s with
  | Some p1, Some p2 =>
      let px := Z.abs (p2.2 - p1.2) in
      let s1 :=
        set_calibracion (calibrado s) (altura_real_referencia_cm s)
          (Some px) (factor_conversion s) (modo_calibracion s)
          (punto1_calibracion s) (punto2_calibracion s) s in
      match altura_real_referencia_cm s1 with
      | None => (s1, Raise TypeError)
      | Some real =>
          if px =? 0 then (s1, Raise ZeroDivisionError)
          else
            (set_calibracion true (Some real) (Some px)
               (Some (Qred (real / inject_Z px))) false
               (punto1_calibracion s1) (punto2_calibracion s1) s1,
             Ret true)
      end
  | _, _ => (s, Ret false)
  end.

Definition reiniciar_calibracion (s : ControlAforoCruceLinea)
    : ControlAforoCruceLinea :=
  set_calibracion (calibrado s) (altura_real_referencia_cm s)
    (altura_pixeles_referencia s) (factor_conversion s)
    (modo_calibracion s) None None s.

Definition estimar_altura_real (s : ControlAforoCruceLinea) (altura_px : Z)
    : option Q :=
  if negb (calibrado s) then None
  else
    match factor_conversion s with
    | None => None
    | Some factor => Some (py_round1 (inject_Z altura_px * factor))
    end.

(* ================================================================= *)
(** ** Clasificación por altura *)

Definition calcular_altura_persona (b : bbox) : Z :=
  let '(x1, y1, x2, y2) := b in y2 - y1.

(** The local [proporcion] of [clasificar_persona]. *)
Definition proporcion_de (altura_px ancho_px : Z) : Q :=
  if 0 <? ancho_px then (inject_Z altura_px / inject_Z ancho_px)%Q else 0%Q.

Definition clasificar_persona (s : ControlAforoCruceLinea)
    (altura_px ancho_px : Z) : categoria * option Q * color_bgr :=
  match estimar_altura_real s altura_px with
  | None => (SinCalibrar, None, (128, 128, 128))
  | Some altura_cm =>
      let proporcion := proporcion_de altura_px ancho_px in
      if Qltb altura_cm 110 then (Nino, Some altura_cm, (255, 200, 0))
      else if Qltb altura_cm 150 then
        (Adolescente, Some altura_cm, (0, 200, 255))
      else if Qltb (28 # 10) proporcion then
        (Mujer, Some altura_cm, (255, 0, 255))
      else (Hombre, Some altura_cm, (255, 100, 0))
  end.

(* ================================================================= *)
(** ** Herramientas *)

Definition calcular_distancia_euclidiana (p1 p2 : punto) : distancia :=
  Raiz ((p1.1 - p2.1) ^ 2 + (p1.2 - p2.2) ^ 2).

(** [int((x1 + x2)/2)]: true division, then truncation toward zero. *)
Definition obtener_centro_bbox (b : bbox) : punto :=
  let '(x1, y1, x2, y2) := b in (Z.quot (x1 + x2) 2, Z.quot (y1 + y2) 2).

Definition obtener_pies_persona (b : bbox) : punto :=
  let '(x1, y1, x2, y2) := b in (Z.quot (x1 + x2) 2, y2).

(* ================================================================= *)
(** ** Dictionaries in insertion order *)

Definition claves {A} (d : list (Z * A)) : list Z := d.*1.

(** [d[k] = v]: an existing key keeps its position, a new one goes last. *)
Fixpoint dict_set {A} (d : list (Z * A)) (k : Z) (v : A) : list (Z * A) :=
  match d with
  | [] => [(k, v)]
  | (k', v') :: r =>
      if decide (k' = k) then (k, v) :: r else (k', v') :: dict_set r k v
  end.

(* ================================================================= *)
(** ** Tracking *)

(** The inner loop of [trackear_personas] over
    [self.personas_trackeadas.items()]. *)
Fixpoint buscar_mejor (centro : punto) (ids_usados : gset Z)
    (previas : list (Z * info_persona))
    (mejor_id : option Z) (mejor_dist : distancia) : option Z * distancia :=
  match previas with
  | [] => (mejor_id, mejor_dist)
  | (id_persona, info) :: resto =>
      if decide (id_persona ∈ ids_usados) then
        buscar_mejor centro ids_usados resto mejor_id mejor_dist
      else
        let dist := calcular_distancia_euclidiana centro (i_centro info) in
        if dist_ltb dist mejor_dist then
          buscar_mejor centro ids_usados resto (Some id_persona) dist
        else buscar_mejor centro ids_usados resto mejor_id mejor_dist
  end.

(** The record built for a detection. *)
Definition info_de (s : ControlAforoCruceLinea) (b : bbox) : info_persona :=
  let altura_px := calcular_altura_persona b in
  let ancho_px := b.1.2 - b.1.1.1 in
  let '(clasificacion, altura_cm, color) :=
    clasificar_persona s altura_px ancho_px in
  {| i_bbox := b;
     i_centro := obtener_centro_bbox b;
     i_pies := obtener_pies_persona b;
     i_altura_px := altura_px;
     i_altura_cm := altura_cm;
     i_clasificacion := clasificacion;
     i_color := color |}.

(** Loop state of [trackear_personas]: the object (only [siguiente_id]
    changes), [personas_actual] and [ids_usados]. *)
Definition bucle : Type :=
  ControlAforoCruceLinea * list (Z * info_persona) * gset Z.

(** One iteration of [for bbox in detecciones]. *)
Definition paso_deteccion (st : bucle) (b : bbox) : bucle :=
  let '(s, personas_actual, ids_usados) := st in
  let centro := obtener_centro_bbox b in
  match
    (buscar_mejor centro ids_usados (personas_trackeadas s) None
       (distancia_de_Z distancia_maxima_tracking)).1
  with
  | Some mejor_id =>
      (s, dict_set personas_actual mejor_id (info_de s b),
       ids_usados ∪ {[mejor_id]})
  | None =>
      let nuevo_id := siguiente_id s in
      (set_siguiente_id (siguiente_id s + 1) s,
       dict_set personas_actual nuevo_id (info_de s b), ids_usados)
  end.

(** The loop over [ids_fuera]. *)
Fixpoint retirar (ids : list Z) (h : gmap Z (list Z)) (c : gset Z)
    : gmap Z (list Z) * gset Z :=
  match ids with
  | [] => (h, c)
  | id_del :: r => retirar r (delete id_del h) (c ∖ {[id_del]})
  end.

(** [trackear_personas]; the unused parameter [altura] is dropped. *)
Definition trackear_personas (s : ControlAforoCruceLinea)
    (detecciones : list bbox)
    : ControlAforoCruceLinea * list (Z * info_persona) :=
  let '(s1, personas_actual, _) :=
    foldl paso_deteccion (s, [], ∅) detecciones in
  let ids_actuales : gset Z := list_to_set (claves personas_actual) in
  let ids_fuera : gset Z :=
    list_to_set (claves (personas_trackeadas s1)) ∖ ids_actuales in
  let '(h, c) :=
    retirar (elements ids_fuera) (historial_posicion s1) (ids_cruzados s1) in
  (set_tracking personas_actual (siguiente_id s1) h c s1, personas_actual).

(* ================================================================= *)
(** ** Cruce de línea *)

Definition zona_de_Z (y y_cruce : Z) : zona :=
  if y <? y_cruce then Arriba else Abajo.

Definition zona_de_Q (y : Q) (y_cruce : Z) : zona :=
  if Qltb y (inject_Z y_cruce) then Arriba else Abajo.

(** [pop(0)] once the history exceeds [max_historial]. *)
Definition ventana (h : list Z) : list Z :=
  if decide (max_historial < length h)%nat then drop 1 h else h.

(** First statements of [detectar_cruce_linea]: the sample is appended,
    the oldest one dropped beyond [max_historial]. *)
Definition anotar_posicion (s : ControlAforoCruceLinea) (id_persona y_pies : Z)
    : ControlAforoCruceLinea :=
  let h := default [] (historial_posicion s !! id_persona) ++ [y_pies] in
  set_historial_posicion (<[id_persona := ventana h]> (historial_posicion s)) s.

(** The locals [zona_actual] and [zona_anterior] of a call that reaches
    them, on the state left by [anotar_posicion]. *)
Definition zonas (s : ControlAforoCruceLinea) (id_persona y_pies y_cruce : Z)
    : zona * zona :=
  let h := default [] (historial_posicion s !! id_persona) in
  let zona_actual := zona_de_Z y_pies y_cruce in
  let y_inicial := np_mean (take 2 h) in
  let zona_anterior := zona_de_Q y_inicial y_cruce in
  (zona_actual, zona_anterior).

(** The [if]/[elif] that names the movement of a change of zone. *)
Definition movimiento_de (zona_anterior zona_actual : zona)
    : option movimiento :=
  match zona_anterior, zona_actual with
  | Arriba, Abajo => Some entrada
  | Abajo, Arriba => Some salida
  | _, _ => None
  end.

Definition detectar_cruce_linea (s : ControlAforoCruceLinea)
    (id_persona y_pies : Z)
    : ControlAforoCruceLinea * res (option movimiento) :=
  let s1 := anotar_posicion s id_persona y_pies in
  if (length (default [] (historial_posicion s1 !! id_persona)) <? 2)%nat
  then (s1, Ret None)
  else
    match y_cruce s1 with
    | None => (s1, Raise TypeError)
    | Some yc =>
        let '(zona_actual, zona_anterior) := zonas s1 id_persona y_pies yc in
        if decide (zona_actual ≠ zona_anterior) then
          if decide (id_persona ∉ ids_cruzados s1) then
            match movimiento_de zona_anterior zona_actual with
            | Some m =>
                (set_ids_cruzados (ids_cruzados s1 ∪ {[id_persona]}) s1,
                 Ret (Some m))
            | None => (s1, Ret None)
            end
          else (s1, Ret None)
        else (s1, Ret None)
    end.

(* ================================================================= *)
(** ** Detección + tracking *)

(** A box of the detector: [xyxy] and [conf]. *)
Record caja := { xyxy : Q * Q * Q * Q; conf : Q }.

(** A frame together with what the detector answers on it:
    [frame.shape[0]], [frame.shape[1]] and, per result, its boxes. *)
Record frame := {
  shape0 : Z;
  shape1 : Z;
  resultados : list (list caja)
}.

Definition detecciones_de (f : frame) : list bbox :=
  flat_map
    (λ boxes,
       flat_map
         (λ box,
            let '(x1, y1, x2, y2) := xyxy box in
            if Qltb (1 # 2) (conf box) then
              [(py_int x1, py_int y1, py_int x2, py_int y2)]
            else [])
         boxes)
    (resultados f).

(** The loop [for idp, info in personas.items()] of the normal mode. *)
Fixpoint cruces (s : ControlAforoCruceLinea)
    (personas : list (Z * info_persona)) (movimientos : list mov_info)
    : ControlAforoCruceLinea * res (list mov_info) :=
  match personas with
  | [] => (s, Ret movimientos)
  | (idp, info) :: resto =>
      match detectar_cruce_linea s idp (i_pies info).2 with
      | (s1, Raise e) => (s1, Raise e)
      | (s1, Ret None) => cruces s1 resto movimientos
      | (s1, Ret (Some mov)) =>
          cruces s1 resto
            (movimientos ++
             [{| m_tipo := mov;
                 m_clasificacion := i_clasificacion info;
                 m_altura_px := i_altura_px info;
                 m_altura_cm := i_altura_cm info |}])
      end
  end.

(** [detectar_y_trackear], without the drawing on [frame_out]. *)
Definition detectar_y_trackear (s : ControlAforoCruceLinea) (f : frame)
    : ControlAforoCruceLinea * res (list (Z * info_persona) * list mov_info) :=
  let altura := shape0 f in
  let s1 :=
    match y_cruce s with
    | None =>
        set_y_cruce (Some (py_int (inject_Z altura * posicion_y_cruce s))) s
    | Some _ => s
    end in
  let '(s2, personas) := trackear_personas s1 (detecciones_de f) in
  if modo_calibracion s2 then (s2, Ret (personas, []))
  else
    match cruces s2 personas [] with
    | (s3, Raise e) => (s3, Raise e)
    | (s3, Ret movimientos) => (s3, Ret (personas, movimientos))
    end.


(* ================================================================= *)
(** ** Sequences of calls, invariants *)

(** A method call on the object, and what it answers. *)
Inductive llamada :=
  | Iniciar (altura_real_cm : Q)
  | Raton (lbuttondown : bool) (x y : Z)
  | Confirmar
  | Reiniciar
  | Trackear (detecciones : list bbox)
  | Cruce (id_persona y_pies : Z)
  | Procesar (f : frame).

Inductive respuesta :=
  | RNada
  | RConfirmar (r : res bool)
  | RPersonas (personas : list (Z * info_persona))
  | RCruce (r : res (option movimiento))
  | RProcesar (r : res (list (Z * info_persona) * list mov_info)).

Definition llamar (s : ControlAforoCruceLinea) (c : llamada)
    : ControlAforoCruceLinea * respuesta :=
  match c with
  | Iniciar cm => (iniciar_calibracion s cm, RNada)
  | Raton lb x y => (mouse_callback_calibracion s lb x y, RNada)
  | Confirmar => let '(s', r) := confirmar_calibracion s in (s', RConfirmar r)
  | Reiniciar => (reiniciar_calibracion s, RNada)
  | Trackear ds => let '(s', p) := trackear_personas s ds in (s', RPersonas p)
  | Cruce id_persona y_pies =>
      let '(s', r) := detectar_cruce_linea s id_persona y_pies in
      (s', RCruce r)
  | Procesar f => let '(s', r) := detectar_y_trackear s f in (s', RProcesar r)
  end.

(** The calls are made one after the other; a raised exception is caught
    by the caller, who goes on with the next call. *)
Fixpoint llamar_todas (s : ControlAforoCruceLinea) (cs : list llamada)
    : ControlAforoCruceLinea * list respuesta :=
  match cs with
  | [] => (s, [])
  | c :: r =>
      let '(s1, a) := llamar s c in
      let '(s2, l) := llamar_todas s1 r in
      (s2, a :: l)
  end.

(** States reached from a fresh object by method calls. *)
Definition alcanzable (s : ControlAforoCruceLinea) : Prop :=
  ∃ cs, (llamar_todas init cs).1 = s.

(** The life of the identities: tracker updates and crossing
    observations. *)
Inductive paso :=
  | Seguir (detecciones : list bbox)
  | Observar (id_persona y_pies : Z).

(** The steps are run in order; the events are the observations that
    returned a movement, with their identity. *)
Fixpoint correr (s : ControlAforoCruceLinea) (ps : list paso)
    : ControlAforoCruceLinea * list (Z * movimiento) :=
  match ps with
  | [] => (s, [])
  | Seguir ds :: r => correr (trackear_personas s ds).1 r
  | Observar id_persona y_pies :: r =>
      let '(s1, a) := detectar_cruce_linea s id_persona y_pies in
      let '(s2, evs) := correr s1 r in
      match a with
      | Ret (Some m) => (s2, (id_persona, m) :: evs)
      | _ => (s2, evs)
      end
  end.

(** No tracker update of [ps] retires [id]. *)
Fixpoint sobrevive (id : Z) (s : ControlAforoCruceLinea) (ps : list paso)
    : bool :=
  match ps with
  | [] => true
  | Seguir ds :: r =>
      let '(s1, personas) := trackear_personas s ds in
      bool_decide (id ∈ claves personas) && sobrevive id s1 r
  | Observar id_persona y_pies :: r =>
      sobrevive id (detectar_cruce_linea s id_persona y_pies).1 r
  end.

(** Number of events of [id]. *)
Definition eventos_de (id : Z) (evs : list (Z * movimiento)) : nat :=
  length (filter (λ e, e.1 = id) evs).

(** Successive observations of one identity. *)
Definition alimentar (s : ControlAforoCruceLinea) (id_persona : Z)
    (ys : list Z) : ControlAforoCruceLinea :=
  foldl (λ s y, (detectar_cruce_linea s id_persona y).1) s ys.

(** The answers of successive observations of one identity. *)
Fixpoint observaciones (s : ControlAforoCruceLinea) (id_persona : Z)
    (ys : list Z) : list (res (option movimiento)) :=
  match ys with
  | [] => []
  | y :: r =>
      let '(s1, a) := detectar_cruce_linea s id_persona y in
      a :: observaciones s1 id_persona r
  end.

(** The previous zone as the specification words it: from the average of
    the first two samples ever recorded for the identity. *)
Definition zona_anterior_spec (muestras : list Z) (y_cruce : Z) : zona :=
  zona_de_Q (np_mean (take 2 muestras)) y_cruce.

(** The answers of successive observations as the specification words
    them: all the samples [previas] of the identity are kept, and the
    previous zone is always that of its first two samples. *)
Fixpoint observaciones_spec (yc : Z) (previas : list Z) (cruzado : bool)
    (ys : list Z) : list (res (option movimiento)) :=
  match ys with
  | [] => []
  | y :: r =>
      let todas := previas ++ [y] in
      let zona_actual := zona_de_Z y yc in
      let zona_anterior := zona_anterior_spec todas yc in
      let a :=
        if (length todas <? 2)%nat then None
        else if cruzado then None
        else if bool_decide (zona_actual = zona_anterior) then None
        else movimiento_de zona_anterior zona_actual in
      Ret a :: observaciones_spec yc todas (cruzado || bool_decide (is_Some a)) r
  end.

(** The tracking invariant: the keys of the dictionary are distinct, and
    every identifier that is tracked, has a history or has a crossed flag
    was allocated, that is, lies below [siguiente_id]. *)
Definition tracking_ok (s : ControlAforoCruceLinea) : Prop :=
  NoDup (claves (personas_trackeadas s)) ∧
  (∀ id, id ∈ claves (personas_trackeadas s) → id < siguiente_id s) ∧
  (∀ id, id ∈ dom (historial_posicion s) → id < siguiente_id s) ∧
  (∀ id, id ∈ ids_cruzados s → id < siguiente_id s).

(** The previous identities matched by the detections of an update: the
    final [ids_usados] of the loop of [trackear_personas]. *)
Definition ids_usados_de (s : ControlAforoCruceLinea)
    (detecciones : list bbox) : gset Z :=
  (foldl paso_deteccion (s, [], ∅) detecciones).2.

(** The attributes outside the tracking state. *)
Definition resto_de (s : ControlAforoCruceLinea) :=
  (y_cruce s, posicion_y_cruce s, total_entradas s, total_salidas s,
   (calibrado s, altura_real_referencia_cm s, altura_pixeles_referencia s,
    factor_conversion s, modo_calibracion s, punto1_calibracion s,
    punto2_calibracion s)).

(** The factor is present whenever the flag is set. *)
Definition calibracion_ok (s : ControlAforoCruceLinea) : Prop :=
  calibrado s = true → is_Some (factor_conversion s).

(** The answer of a confirmation that succeeded. *)
Definition confirmada (a : respuesta) : bool :=
  match a with RConfirmar (Ret true) => true | _ => false end.

(** [d1 <= d2] on distances. *)
Definition dist_le (d1 d2 : distancia) : Prop := radicando d1 ≤ radicando d2.

(** [d1 < d2] on distances. *)
Definition dist_lt (d1 d2 : distancia) : Prop := radicando d1 < radicando d2.

(** The previous identities a detection may still be bound to. *)
Definition candidato (s : ControlAforoCruceLinea) (ids_usados : gset Z)
    (id : Z) (info : info_persona) : Prop :=
  (id, info) ∈ personas_trackeadas s ∧ id ∉ ids_usados.

(** The calls of [iniciar_calibracion]. *)
Definition es_iniciar (c : llamada) : bool :=
  match c with Iniciar _ => true | _ => false end.

(** The observations a frame makes in normal mode, one per identity of
    the dictionary, in its order. *)
Definition pasos_de (personas : list (Z * info_persona)) : list paso :=
  (λ x, Observar x.1 (i_pies x.2).2) <$> personas.

(** The method calls of the frame loop of [ejecutar]: everything but a
    direct crossing observation. *)
Definition del_bucle (c : llamada) : bool :=
  match c with Cruce _ _ => false | _ => true end.

(* ================================================================= *)
(** ** Concrete states *)

(** A fresh object whose line is at y = 300. *)
Definition linea_300 : ControlAforoCruceLinea := set_y_cruce (Some 300) init.

(** Calibration started for a 210 cm door, the two points clicked. *)
Definition puntos_marcados (top bottom : punto) : ControlAforoCruceLinea :=
  mouse_callback_calibracion
    (mouse_callback_calibracion (iniciar_calibracion init 210)
       true top.1 top.2)
    true bottom.1 bottom.2.

(** The 210 cm door marked over 210 pixels, confirmed: 1 cm per pixel. *)
Definition calibrado_210 : ControlAforoCruceLinea :=
  (confirmar_calibracion (puntos_marcados (100, 50) (100, 260))).1.

(** The same door marked over 2100 pixels: 0.1 cm per pixel. *)
Definition calibrado_decimo : ControlAforoCruceLinea :=
  (confirmar_calibracion (puntos_marcados (100, 0) (100, 2100))).1.

(** A frame of 600 x 800 with one person of 100 x 200 pixels. *)
Definition frame_una_persona : frame :=
  {| shape0 := 600; shape1 := 800;
     resultados := [[ {| xyxy := (0, 0, 100, 200)%Q; conf := 9 # 10 |} ]] |}.


(** Two persons tracked from a fresh object: identity 0 centred at (90, 0)
    and identity 1 centred at (0, 10). *)
Definition dos_personas : ControlAforoCruceLinea :=
  (trackear_personas init [(85, -5, 95, 5); (-5, 5, 5, 15)]).1.

(** A life of identity 0 on the line at 300: it walks down across the
    line, oscillates, and the tracker keeps matching it. *)
Definition vida_oscilante : list paso :=
  [Seguir [(0, 0, 100, 280)]; Observar 0 280;
   Seguir [(0, 5, 100, 285)]; Observar 0 285;
   Seguir [(0, 40, 100, 320)]; Observar 0 320;
   Seguir [(0, 0, 100, 280)]; Observar 0 280;
   Seguir [(0, 40, 100, 320)]; Observar 0 320;
   Seguir [(0, 0, 100, 280)]; Observar 0 280].

(** Successive left clicks. *)
Definition clics (s : ControlAforoCruceLinea) (ps : list punto)
    : ControlAforoCruceLinea :=
  foldl (λ s p, mouse_callback_calibracion s true p.1 p.2) s ps.

(** The calls of [iniciar_calibracion] of a sequence are made with a
    positive reference height. *)
Definition referencias_positivas (cs : list llamada) : bool :=
  forallb (λ c, match c with Iniciar cm => Qltb 0 cm | _ => true end) cs.

(** The height bands of the classification, in increasing order. *)
Definition banda (c : categoria) : Z :=
  match c with
  | SinCalibrar => 0
  | Nino => 1
  | Adolescente => 2
  | Mujer | Hombre => 3
  end.

(** What [referencias_positivas] keeps: stored reference heights and
    factors are positive, and the factor is there when the flag is set. *)
Definition calibracion_positiva (s : ControlAforoCruceLinea) : Prop :=
  (∀ r, altura_real_referencia_cm s = Some r → (0 < r)%Q) ∧
  (∀ f, factor_conversion s = Some f → (0 < f)%Q) ∧
  calibracion_ok s.

(** A calibrated object with the factor 1 # 3. *)
Definition calibrado_tercio : ControlAforoCruceLinea :=
  (confirmar_calibracion
     (clics (iniciar_calibracion init 100) [(0, 0); (0, 300)])).1.

(** The bounding boxes of the tracked persons, in the order of the
    dictionary. *)
Definition bboxes_de (personas : list (Z * info_persona)) : list bbox :=
  (λ x, i_bbox x.2) <$> personas.

(** No box of the frame has a confidence above 0.5. *)
Definition sin_confianza (f : frame) : Prop :=
  ∀ boxes box, boxes ∈ resultados f → box ∈ boxes → (conf box <= 1 # 2)%Q.

(** A frame whose only box has a confidence of exactly 0.5. *)
Definition frame_dudoso : frame :=
  {| shape0 := 600; shape1 := 800;
     resultados := [[ {| xyxy := (0, 0, 100, 200)%Q; conf := 1 # 2 |} ]] |}.

(** Every stored history holds between one and [max_historial] samples. *)
Definition historial_ok (s : ControlAforoCruceLinea) : Prop :=
  ∀ k h, historial_posicion s !! k = Some h →
         (1 ≤ length h ≤ max_historial)%nat.

(** The movement dictionary built from a person and a movement. *)
Definition mov_de (info : info_persona) (m : movimiento) : mov_info :=
  {| m_tipo := m;
     m_clasificacion := i_clasificacion info;
     m_altura_px := i_altura_px info;
     m_altura_cm := i_altura_cm info |}.

(** The object once the line is set from the height of the frame. *)
Definition con_linea (s : ControlAforoCruceLinea) (f : frame)
    : ControlAforoCruceLinea :=
  match y_cruce s with
  | None =>
      set_y_cruce (Some (py_int (inject_Z (shape0 f) * posicion_y_cruce s))) s
  | Some _ => s
  end.

(** A movement of the frame belongs to an event of the run and to a person
    of the dictionary. *)
Definition mov_de_evento (personas : list (Z * info_persona))
    (mv : mov_info) (ev : Z * movimiento) : Prop :=
  ∃ info, (ev.1, info) ∈ personas ∧ mv = mov_de info ev.2.

(* ================================================================= *)
(** ** Base de datos *)

(** What the connector answers to one attempt of [registrar_movimiento]:
    the statement at which it raises [mysql.connector.Error], if any. *)
Inductive respuesta_bd := Correcto | ErrorInsert | ErrorUpdate | ErrorCommit.

(** The database server as the program meets it.  Its answers are inputs:
    [conecta n] tells whether the [n]-th call of [conectar_db] or
    [verificar_reconectar_db] ends with a connection, [responde n] what
    the [n]-th attempt of [registrar_movimiento] meets, [guarda n] whether
    the [n]-th insertion of [guardar_calibracion_db] goes through.  The
    counters tell how many of each were made.  The connector is taken to
    raise nothing but [mysql.connector.Error]. *)
Record base_datos := {
  conecta : nat → bool;
  responde : nat → respuesta_bd;
  guarda : nat → bool;
  verificaciones : nat;
  intentos_hechos : nat;
  guardados : nat
}.

(** [conectar_db] and [verificar_reconectar_db]. *)
Definition verificar_reconectar_db (w : base_datos) : base_datos * bool :=
  ({| conecta := conecta w; responde := responde w; guarda := guarda w;
      verificaciones := S (verificaciones w);
      intentos_hechos := intentos_hechos w;
      guardados := guardados w |},
   conecta w (verificaciones w)).

(** The statements of one attempt are sent. *)
Definition enviar_intento (w : base_datos) : base_datos * respuesta_bd :=
  ({| conecta := conecta w; responde := responde w; guarda := guarda w;
      verificaciones := verificaciones w;
      intentos_hechos := S (intentos_hechos w);
      guardados := guardados w |},
   responde w (intentos_hechos w)).

(** [guardar_calibracion_db]. *)
Definition guardar_calibracion_db (w : base_datos)
    (s : ControlAforoCruceLinea) : base_datos * bool :=
  if negb (calibrado s) then (w, false)
  else
    ({| conecta := conecta w; responde := responde w; guarda := guarda w;
        verificaciones := verificaciones w;
        intentos_hechos := intentos_hechos w;
        guardados := S (guardados w) |},
     guarda w (guardados w)).

Definition set_totales (entradas salidas : Z) (s : ControlAforoCruceLinea) :=
  {| y_cruce := y_cruce s; posicion_y_cruce := posicion_y_cruce s;
     personas_trackeadas := personas_trackeadas s;
     siguiente_id := siguiente_id s;
     historial_posicion := historial_posicion s;
     ids_cruzados := ids_cruzados s;
     total_entradas := entradas; total_salidas := salidas;
     calibrado := calibrado s;
     altura_real_referencia_cm := altura_real_referencia_cm s;
     altura_pixeles_referencia := altura_pixeles_referencia s;
     factor_conversion := factor_conversion s;
     modo_calibracion := modo_calibracion s;
     punto1_calibracion := punto1_calibracion s;
     punto2_calibracion := punto2_calibracion s |}.

(** [self.total_entradas += 1] or [self.total_salidas += 1], after the
    UPDATE of the type. *)
Definition contar_movimiento (tipo : movimiento)
    (s : ControlAforoCruceLinea) : ControlAforoCruceLinea :=
  match tipo with
  | entrada => set_totales (total_entradas s + 1) (total_salidas s) s
  | salida => set_totales (total_entradas s) (total_salidas s + 1) s
  end.

(** The loop [while intentos < max_intentos] of [registrar_movimiento],
    on the number of attempts left, [max_intentos - intentos].  After a
    failed attempt that is not the last, the connection is checked again
    and the loop goes on whatever the check answers. *)
Fixpoint intentar (restantes : nat) (w : base_datos)
    (s : ControlAforoCruceLinea) (tipo : movimiento)
    : base_datos * ControlAforoCruceLinea * bool :=
  match restantes with
  | O => (w, s, false)
  | S n =>
      let '(w1, r) := enviar_intento w in
      let fallo s1 :=
        match n with
        | O => (w1, s1, false)
        | S _ => intentar n (verificar_reconectar_db w1).1 s1 tipo
        end in
      match r with
      | Correcto => (w1, contar_movimiento tipo s, true)
      | ErrorInsert => fallo s
      | ErrorUpdate => fallo s
      | ErrorCommit => fallo (contar_movimiento tipo s)
      end
  end.

(** [registrar_movimiento]; [camara], [altura_px], [altura_cm] and
    [clasificacion] only go into the INSERT and the printed line. *)
Definition registrar_movimiento (w : base_datos)
    (s : ControlAforoCruceLinea) (tipo : movimiento)
    : base_datos * ControlAforoCruceLinea * bool :=
  let '(w1, conectada) := verificar_reconectar_db w in
  if negb conectada then (w1, s, false)
  else intentar 3 w1 s tipo.

(** The attempts of a call that reached the increment of the counter:
    those answered [Correcto] or [ErrorCommit]. *)
Definition contados (rs : list respuesta_bd) : Z :=
  Z.of_nat
    (length
       (List.filter
          (λ r, match r with
                | Correcto | ErrorCommit => true
                | ErrorInsert | ErrorUpdate => false
                end) rs)).

(** [k] movements of the type added to the totals. *)
Definition sumar_total (tipo : movimiento) (k : Z)
    (s : ControlAforoCruceLinea) : ControlAforoCruceLinea :=
  match tipo with
  | entrada => set_totales (total_entradas s + k) (total_salidas s) s
  | salida => set_totales (total_entradas s) (total_salidas s + k) s
  end.

(* ================================================================= *)
(** ** Ejecución *)

(** The local variables of [ejecutar] with the object and the database;
    [ultimo_frame_procesado] holds the frame the drawn copy was made
    from. *)
Record bucle_ejecutar := {
  objeto : ControlAforoCruceLinea;
  bd : base_datos;
  skip : Z;
  ultimo_frame_procesado : option frame;
  contador_sin_db : Z
}.

Definition con_objeto (s : ControlAforoCruceLinea) (b : bucle_ejecutar) :=
  {| objeto := s; bd := bd b; skip := skip b;
     ultimo_frame_procesado := ultimo_frame_procesado b;
     contador_sin_db := contador_sin_db b |}.

Definition con_bd (w : base_datos) (b : bucle_ejecutar) :=
  {| objeto := objeto b; bd := w; skip := skip b;
     ultimo_frame_procesado := ultimo_frame_procesado b;
     contador_sin_db := contador_sin_db b |}.

Definition con_skip (n : Z) (b : bucle_ejecutar) :=
  {| objeto := objeto b; bd := bd b; skip := n;
     ultimo_frame_procesado := ultimo_frame_procesado b;
     contador_sin_db := contador_sin_db b |}.

Definition con_ultimo_frame (f : option frame) (b : bucle_ejecutar) :=
  {| objeto := objeto b; bd := bd b; skip := skip b;
     ultimo_frame_procesado := f;
     contador_sin_db := contador_sin_db b |}.

Definition con_contador (c : Z) (b : bucle_ejecutar) :=
  {| objeto := objeto b; bd := bd b; skip := skip b;
     ultimo_frame_procesado := ultimo_frame_procesado b;
     contador_sin_db := c |}.

(** What one iteration of the loop of [ejecutar] meets: what
    [reader.read()] returns, the mouse events that the window hands to
    the callback while [cv2.waitKey] waits, as [lbuttondown], [x], [y],
    and the key that [cv2.waitKey(1) & 0xFF] gives. *)
Record iteracion := {
  leido : option frame;
  raton : list (bool * Z * Z);
  key : Z
}.

(** [ord('q')], [ord('c')], [ord('r')]. *)
Definition ord_q : Z := 113.
Definition ord_c : Z := 99.
Definition ord_r : Z := 114.

(** How an iteration ends: the loop goes on, [break], or an exception
    that nothing in [ejecutar] catches. *)
Inductive fin_iteracion :=
  | Continua (b : bucle_ejecutar)
  | Sale (b : bucle_ejecutar)
  | Lanza (b : bucle_ejecutar) (e : excepcion).

(** [cv2.waitKey]: the pending mouse events reach the callback. *)
Definition wait_key (b : bucle_ejecutar) (it : iteracion) : bucle_ejecutar :=
  con_objeto
    (foldl (λ s e, mouse_callback_calibracion s e.1.1 e.1.2 e.2)
       (objeto b) (raton it))
    b.

(** The key handling after a frame was shown, lines 673-681 and
    703-711. *)
Definition teclas (b : bucle_ejecutar) (k : Z) : fin_iteracion :=
  if k =? ord_q then Sale b
  else if (k =? ord_c) && modo_calibracion (objeto b) then
    match confirmar_calibracion (objeto b) with
    | (s, Raise e) => Lanza (con_objeto s b) e
    | (s, Ret true) =>
        Continua (con_bd (guardar_calibracion_db (bd b) s).1 (con_objeto s b))
    | (s, Ret false) => Continua (con_objeto s b)
    end
  else if (k =? ord_r) && modo_calibracion (objeto b) then
    Continua (con_objeto (reiniciar_calibracion (objeto b)) b)
  else Continua b.

(** The loop [for mov_info in movimientos] with the failure counter. *)
Fixpoint registrar_todos (b : bucle_ejecutar) (movimientos : list mov_info)
    : bucle_ejecutar :=
  match movimientos with
  | [] => b
  | mov :: resto =>
      let '(w, s, exito) :=
        registrar_movimiento (bd b) (objeto b) (m_tipo mov) in
      let c :=
        if negb exito then
          let c1 := contador_sin_db b + 1 in
          if c1 >? 10 then 0 else c1
        else 0 in
      registrar_todos (con_contador c (con_bd w (con_objeto s b))) resto
  end.

(** One iteration of [while True] in [ejecutar]. *)
Definition iterar (b : bucle_ejecutar) (it : iteracion) : fin_iteracion :=
  match leido it with
  | None =>
      match ultimo_frame_procesado b with
      | Some _ =>
          let b1 := wait_key b it in
          if key it =? ord_q then Sale b1 else Continua b1
      | None => Continua b
      end
  | Some f =>
      let b1 := con_skip (skip b + 1) b in
      if negb (skip b1 mod 2 =? 0) then teclas (wait_key b1 it) (key it)
      else
        match detectar_y_trackear (objeto b1) f with
        | (s, Raise e) => Lanza (con_objeto s b1) e
        | (s, Ret (personas, movimientos)) =>
            let b2 := con_ultimo_frame (Some f) (con_objeto s b1) in
            let b3 :=
              if negb (modo_calibracion (objeto b2))
              then registrar_todos b2 movimientos
              else b2 in
            teclas (wait_key b3 it) (key it)
        end
  end.

(** The iterations of the loop on what they meet, until one ends it. *)
Fixpoint iterar_todas (b : bucle_ejecutar) (its : list iteracion)
    : fin_iteracion :=
  match its with
  | [] => Continua b
  | it :: resto =>
      match iterar b it with
      | Continua b1 => iterar_todas b1 resto
      | fin => fin
      end
  end.

Definition set_posicion_y_cruce (p : Q) (s : ControlAforoCruceLinea) :=
  {| y_cruce := y_cruce s; posicion_y_cruce := p;
     personas_trackeadas := personas_trackeadas s;
     siguiente_id := siguiente_id s;
     historial_posicion := historial_posicion s;
     ids_cruzados := ids_cruzados s;
     total_entradas := total_entradas s; total_salidas := total_salidas s;
     calibrado := calibrado s;
     altura_real_referencia_cm := altura_real_referencia_cm s;
     altura_pixeles_referencia := altura_pixeles_referencia s;
     factor_conversion := factor_conversion s;
     modo_calibracion := modo_calibracion s;
     punto1_calibracion := punto1_calibracion s;
     punto2_calibracion := punto2_calibracion s |}.

(** [ejecutar] up to the loop: [None] when the first connection fails
    and the method returns.  [crear_tablas] and the loading of the model
    leave the object as it is. *)
Definition ejecutar_inicio (s : ControlAforoCruceLinea) (w : base_datos)
    (posicion : Q) (altura_referencia_cm : option Q)
    (modo_calibracion_inicial : bool) : option bucle_ejecutar :=
  let s1 := set_posicion_y_cruce posicion s in
  let '(w1, conectada) := verificar_reconectar_db w in
  if negb conectada then None
  else
    let s2 :=
      match altura_referencia_cm with
      | Some cm =>
          if modo_calibracion_inicial && negb (Qeq_bool cm 0)
          then iniciar_calibracion s1 cm
          else s1
      | None => s1
      end in
    Some {| objeto := s2; bd := w1; skip := 0;
            ultimo_frame_procesado := None; contador_sin_db := 0 |}.

(** [ejecutar] on the iterations it meets. *)
Definition ejecutar (s : ControlAforoCruceLinea) (w : base_datos)
    (posicion : Q) (altura_referencia_cm : option Q)
    (modo_calibracion_inicial : bool) (its : list iteracion)
    : option fin_iteracion :=
  match ejecutar_inicio s w posicion altura_referencia_cm
          modo_calibracion_inicial with
  | None => None
  | Some b => Some (iterar_todas b its)
  end.

(** The frames among what the iterations read. *)
Definition frames_leidos (its : list iteracion) : list frame :=
  omap leido its.

(** Every second element of a list; [ahora] tells whether the first one
    is taken. *)
Fixpoint alternos {A} (ahora : bool) (l : list A) : list A :=
  match l with
  | [] => []
  | x :: r => if ahora then x :: alternos false r else alternos true r
  end.

(** The calibration attributes of the object. *)
Definition calibracion_de (s : ControlAforoCruceLinea) :=
  (calibrado s, altura_real_referencia_cm s, altura_pixeles_referencia s,
   factor_conversion s, modo_calibracion s, punto1_calibracion s,
   punto2_calibracion s).

(** The state of the loop when an iteration ends. *)
Definition estado_de (r : fin_iteracion) : bucle_ejecutar :=
  match r with Continua b | Sale b | Lanza b _ => b end.

(** The in-memory totals of the object. *)
Definition totales_de (s : ControlAforoCruceLinea) : Z * Z :=
  (total_entradas s, total_salidas s).

(** A reference height is stored whenever the calibration mode is on. *)
Definition referencia_ok (s : ControlAforoCruceLinea) : Prop :=
  modo_calibracion s = true → is_Some (altura_real_referencia_cm s).

(** A database that answers every call without an error. *)
Definition bd_sin_fallos : base_datos :=
  {| conecta := λ _, true; responde := λ _, Correcto; guarda := λ _, true;
     verificaciones := 0; intentos_hechos := 0; guardados := 0 |}.

(** The loop entered by [main] with a fresh object: calibration mode for
    a 210 cm door. *)
Definition bucle_calibrando : bucle_ejecutar :=
  default
    {| objeto := init; bd := bd_sin_fallos; skip := 0;
       ultimo_frame_procesado := None; contador_sin_db := 0 |}
    (ejecutar_inicio init bd_sin_fallos (7 # 10) (Some 210%Q) true).

(** The loop entered without the calibration mode. *)
Definition bucle_sin_calibrar : bucle_ejecutar :=
  default
    {| objeto := init; bd := bd_sin_fallos; skip := 0;
       ultimo_frame_procesado := None; contador_sin_db := 0 |}
    (ejecutar_inicio init bd_sin_fallos (7 # 10) None false).

(** An iteration that reads a frame with one person, gets two clicks at
    the height 50 and the key [c]. *)
Definition clics_y_c : iteracion :=
  {| leido := Some frame_una_persona;
     raton := [(true, 10, 50); (true, 30, 50)];
     key := 99 |}.

(** A frame of 600 x 800 with one person of 100 x 200 pixels whose feet
    are at the height [y]. *)
Definition frame_pies (y : Z) : frame :=
  {| shape0 := 600; shape1 := 800;
     resultados :=
       [[ {| xyxy := (0, inject_Z (y - 200), 100, inject_Z y)%Q;
             conf := 9 # 10 |} ]] |}.

(** An iteration that reads [f]; no click, no key: [cv2.waitKey] gives
    -1, masked to 255. *)
Definition lectura (f : option frame) : iteracion :=
  {| leido := f; raton := []; key := 255 |}.

(** A person walks down across the line of a 600 pixel frame at 0.7;
    every frame is read twice and one read gives no frame. *)
Definition caminata : list iteracion :=
  [lectura (Some (frame_pies 380)); lectura (Some (frame_pies 380));
   lectura None;
   lectura (Some (frame_pies 400)); lectura (Some (frame_pies 400));
   lectura (Some (frame_pies 440)); lectura (Some (frame_pies 440))].

(** What an uncaught exception of the key handling looks like. *)
Definition division_por_cero (b : bucle_ejecutar) (e : excepcion) : Prop :=
  e = ZeroDivisionError ∧
  modo_calibracion (objeto b) = true ∧
  ∃ p1 p2 : punto,
    punto1_calibracion (objeto b) = Some p1 ∧
    punto2_calibracion (objeto b) = Some p2 ∧
    p1.2 = p2.2.

(** The movements of a type in a list. *)
Definition cuantos (tipo : movimiento) (movimientos : list mov_info) : Z :=
  Z.of_nat (length (filter (λ m, m_tipo m = tipo) movimientos)).

(* ================================================================= *)
(** * Properties *)

(** ** Numbers *)

Lemma Qltb_lt (x y : Q) : Qltb x y = true ↔ (x < y)%Q.
Proof. unfold Qltb, Qlt. apply Z.ltb_lt. Qed.

Lemma Qltb_ge (x y : Q) : Qltb x y = false ↔ (y <= x)%Q.
Proof. unfold Qltb, Qle. apply Z.ltb_ge. Qed.

Lemma redondear_cota (x : Q) :
  2 * Z.abs (redondear x * QDen x - Qnum x) ≤ QDen x.
Proof.
  unfold redondear.
  pose proof (Z.div_mod (Qnum x) (QDen x) ltac:(lia)) as Hdm.
  pose proof (Z.mod_pos_bound (Qnum x) (QDen x) ltac:(lia)) as Hb.
  destruct (Z.compare_spec (2 * (Qnum x `mod` QDen x)) (QDen x));
    [destruct (Z.even _)| |]; nia.
Qed.

Lemma redondear_cerca (x : Q) :
  (Qabs (inject_Z (redondear x) - x) <= 1 # 2)%Q.
Proof.
  pose proof (redondear_cota x) as H.
  apply Qabs_Qle_condition.
  destruct x as [n d]. simpl in H.
  unfold Qle, Qminus, Qplus, Qopp, inject_Z; simpl.
  split; lia.
Qed.

Lemma py_round1_decimal (x : Q) :
  (py_round1 x == inject_Z (redondear (x * 10)) * (1 # 10))%Q.
Proof. unfold py_round1. apply Qred_correct. Qed.



(** ** Frame lemmas *)

(** *** The loop of the tracker only moves [siguiente_id] *)

Lemma paso_deteccion_objeto (s : ControlAforoCruceLinea) n actual usados b :
  ∃ n', (paso_deteccion (set_siguiente_id n s, actual, usados) b).1.1
        = set_siguiente_id n' s.
Proof.
  unfold paso_deteccion.
  destruct (buscar_mejor _ _ _ _ _).1; simpl; eauto.
Qed.

Lemma foldl_cons {A B} (f : A → B → A) (a : A) (x : B) (l : list B) :
  foldl f a (x :: l) = foldl f (f a x) l.
Proof. reflexivity. Qed.

Lemma bucle_objeto ds : ∀ (s : ControlAforoCruceLinea) n actual usados,
  ∃ n', (foldl paso_deteccion (set_siguiente_id n s, actual, usados) ds).1.1
        = set_siguiente_id n' s.
Proof.
  induction ds as [|b ds IH]; intros s n actual usados;
    [simpl; eauto|rewrite foldl_cons].
  destruct (paso_deteccion_objeto s n actual usados b) as [n' Hn'].
  destruct (paso_deteccion _ b) as [[s1 a1] u1]; simpl in Hn'; subst s1.
  apply IH.
Qed.

Lemma set_siguiente_id_id (s : ControlAforoCruceLinea) :
  set_siguiente_id (siguiente_id s) s = s.
Proof. by destruct s. Qed.

Lemma trackear_personas_resto s ds :
  resto_de (trackear_personas s ds).1 = resto_de s.
Proof.
  unfold trackear_personas.
  destruct (bucle_objeto ds s (siguiente_id s) [] ∅) as [n Hn].
  rewrite set_siguiente_id_id in Hn.
  destruct (foldl _ _ _) as [[s1 a1] u1]; simpl in Hn; subst s1.
  by destruct (retirar _ _ _).
Qed.

Lemma detectar_cruce_linea_resto s id y :
  resto_de (detectar_cruce_linea s id y).1 = resto_de s.
Proof.
  unfold detectar_cruce_linea.
  repeat (case_match; simpl; try done).
Qed.

Lemma cruces_resto personas : ∀ s movs,
  resto_de (cruces s personas movs).1 = resto_de s.
Proof.
  induction personas as [|[idp info] r IH]; intros s movs; simpl; [done|].
  pose proof (detectar_cruce_linea_resto s idp (i_pies info).2) as H.
  destruct (detectar_cruce_linea _ _ _) as [s1 [[m|]|e]]; simpl in *;
    rewrite ?IH; done.
Qed.

Lemma detectar_y_trackear_resto s f :
  (y_cruce s = None ∨ resto_de (detectar_y_trackear s f).1 = resto_de s) ∧
  (resto_de (detectar_y_trackear s f).1).2 = (resto_de s).2.
Proof.
  unfold detectar_y_trackear.
  set (s1 := match y_cruce s with None => _ | Some _ => s end).
  assert (H1 : (resto_de s1).2 = (resto_de s).2)
    by (subst s1; destruct (y_cruce s); reflexivity).
  assert (H1' : y_cruce s = None ∨ resto_de s1 = resto_de s).
  { subst s1. destruct (y_cruce s); [right|left]; reflexivity. }
  pose proof (trackear_personas_resto s1 (detecciones_de f)) as H2.
  destruct (trackear_personas s1 _) as [s2 personas]; simpl in H2.
  case_match.
  - cbn [fst]. rewrite H2. by split.
  - pose proof (cruces_resto personas s2 []) as H3.
    destruct (cruces s2 personas []) as [s3 [movs|e]]; cbn [fst] in *;
      rewrite H3, H2; by split.
Qed.

(** Every call keeps a confirmed calibration flag, and only a confirmation
    answering [True] writes the factor. *)
Lemma llamar_calibracion s c :
  (calibrado s = true → calibrado (llamar s c).1 = true) ∧
  ((llamar s c).2 ≠ RConfirmar (Ret true) →
   calibrado (llamar s c).1 = calibrado s ∧
   factor_conversion (llamar s c).1 = factor_conversion s).
Proof.
  destruct c as [cm|lb x y| | |ds|id y|f]; simpl.
  - done.
  - unfold mouse_callback_calibracion.
    repeat (case_match; simpl; try done).
  - unfold confirmar_calibracion.
    repeat (case_match; simpl in *; simplify_eq);
      split; intros; simpl; try congruence; auto.
  - done.
  - pose proof (trackear_personas_resto s ds) as H.
    destruct (trackear_personas s ds) as [s' p]; simpl in *.
    unfold resto_de in H. simplify_eq. split; intros; [|split]; congruence.
  - pose proof (detectar_cruce_linea_resto s id y) as H.
    destruct (detectar_cruce_linea s id y) as [s' r]; simpl in *.
    unfold resto_de in H. simplify_eq. split; intros; [|split]; congruence.
  - pose proof (detectar_y_trackear_resto s f) as [_ H].
    destruct (detectar_y_trackear s f) as [s' r]; simpl in *.
    simplify_eq. split; intros; [|split]; congruence.
Qed.

Lemma llamar_todas_cons s c cs :
  llamar_todas s (c :: cs) =
  ((llamar_todas (llamar s c).1 cs).1,
   (llamar s c).2 :: (llamar_todas (llamar s c).1 cs).2).
Proof.
  simpl. destruct (llamar s c) as [s1 a]; simpl.
  by destruct (llamar_todas s1 cs).
Qed.

Lemma llamar_todas_calibracion cs : ∀ s,
  (calibrado s = true → calibrado (llamar_todas s cs).1 = true) ∧
  (RConfirmar (Ret true) ∉ (llamar_todas s cs).2 →
   calibrado (llamar_todas s cs).1 = calibrado s ∧
   factor_conversion (llamar_todas s cs).1 = factor_conversion s).
Proof.
  induction cs as [|c cs IH]; intros s; [done|].
  rewrite llamar_todas_cons; simpl.
  destruct (llamar_calibracion s c) as [Hc Hf].
  destruct (IH (llamar s c).1) as [IHc IHf].
  split; [auto|].
  intros Hno. rewrite not_elem_of_cons in Hno. destruct Hno as [Hne Hno].
  destruct (IHf Hno) as [-> ->]. apply Hf. congruence.
Qed.

Lemma llamar_calibracion_ok s c : calibracion_ok s → calibracion_ok (llamar s c).1.
Proof.
  unfold calibracion_ok. intros Hs.
  assert (Hotra : (llamar s c).2 ≠ RConfirmar (Ret true) →
                  calibrado (llamar s c).1 = true →
                  is_Some (factor_conversion (llamar s c).1)).
  { intros Hne. destruct (llamar_calibracion s c) as [_ H].
    destruct (H Hne) as [-> ->]. done. }
  destruct c; try (apply Hotra; simpl; repeat case_match; done).
  simpl. unfold confirmar_calibracion.
  repeat (case_match; simpl in *; simplify_eq); simpl; eauto.
Qed.

Lemma alcanzable_calibracion_ok s : alcanzable s → calibracion_ok s.
Proof.
  intros [cs <-].
  assert (H : ∀ s0, calibracion_ok s0 → calibracion_ok (llamar_todas s0 cs).1).
  { induction cs as [|c cs IH]; intros s0 H0; [done|].
    rewrite llamar_todas_cons; simpl. by apply IH, llamar_calibracion_ok. }
  apply H. unfold calibracion_ok. done.
Qed.

(** ** Calibración *)

(** Fewer than two points: the confirmation answers [False] and changes
    nothing. *)
Lemma confirmar_calibracion_incompleta s :
  punto1_calibracion s = None ∨ punto2_calibracion s = None →
  confirmar_calibracion s = (s, Ret false).
Proof.
  unfold confirmar_calibracion.
  intros [-> | ->]; [done|]. by destruct (punto1_calibracion s).
Qed.


Lemma confirmar_calibracion_puerta :
  altura_pixeles_referencia calibrado_210 = Some 210 ∧
  factor_conversion calibrado_210 = Some 1%Q ∧
  calibrado calibrado_210 = true ∧ modo_calibracion calibrado_210 = false.
Proof. by vm_compute. Qed.

(** C3 (code versus claim).  With both points recorded at the same height
    the reference is 0 pixels and [confirmar_calibracion] does not answer:
    the division raises [ZeroDivisionError], after the zero pixel height
    has been stored; the object stays uncalibrated and in calibration
    mode. *)
Theorem confirmar_calibracion_degenerada :
  let s := puntos_marcados (100, 50) (200, 50) in
  punto1_calibracion s = Some (100, 50) ∧
  punto2_calibracion s = Some (200, 50) ∧
  (confirmar_calibracion s).2 = Raise ZeroDivisionError ∧
  altura_pixeles_referencia (confirmar_calibracion s).1 = Some 0 ∧
  calibrado (confirmar_calibracion s).1 = false ∧
  modo_calibracion (confirmar_calibracion s).1 = true.
Proof. by vm_compute. Qed.

(** ** Estimación y clasificación *)



(** C7.  [clasificar_persona] answers "Sin calibrar" without a height when
    the object is not calibrated.  Otherwise, with [altura_cm] the
    estimated height and [proporcion] the height over the width (0 for a
    width of 0), the category is "Niño/a" exactly below 110 cm,
    "Adolescente" exactly from 110 cm and below 150 cm, and from 150 cm on
    "Mujer" exactly when the proportion exceeds 2.8 and "Hombre"
    otherwise; so 109.9 gives "Niño/a", 110.0 "Adolescente" and 150.0 one
    of the two adult categories. *)
Theorem clasificar_persona_umbrales s (altura_px ancho_px : Z) :
  let r := clasificar_persona s altura_px ancho_px in
  let proporcion := proporcion_de altura_px ancho_px in
  (calibrado s = false → r.1 = (SinCalibrar, None)) ∧
  (ancho_px = 0 → proporcion = 0%Q) ∧
  (0 < ancho_px →
   proporcion = (inject_Z altura_px / inject_Z ancho_px)%Q) ∧
  (∀ altura_cm : Q, estimar_altura_real s altura_px = Some altura_cm →
     r.1.2 = Some altura_cm ∧
     (r.1.1 = Nino ↔ (altura_cm < 110)%Q) ∧
     (r.1.1 = Adolescente ↔ (110 <= altura_cm)%Q ∧ (altura_cm < 150)%Q) ∧
     (r.1.1 = Mujer ↔ (150 <= altura_cm)%Q ∧ (28 # 10 < proporcion)%Q) ∧
     (r.1.1 = Hombre ↔ (150 <= altura_cm)%Q ∧ (proporcion <= 28 # 10)%Q) ∧
     (altura_cm = (1099 # 10)%Q → r.1.1 = Nino) ∧
     (altura_cm = 110%Q → r.1.1 = Adolescente) ∧
     (altura_cm = 150%Q → r.1.1 = Mujer ∨ r.1.1 = Hombre)).
Proof.
  intros r proporcion. subst r proporcion.
  split; [|split; [|split]].
  - intros H. unfold clasificar_persona, estimar_altura_real. by rewrite H.
  - intros ->. reflexivity.
  - intros H. unfold proporcion_de.
    by destruct (Z.ltb_spec 0 ancho_px); [|lia].
  - intros altura_cm Hcm. unfold clasificar_persona. rewrite Hcm.
    destruct (Qltb altura_cm 110) eqn:H110;
      [|destruct (Qltb altura_cm 150) eqn:H150;
        [|destruct (Qltb (28 # 10) (proporcion_de altura_px ancho_px))
            eqn:Hp]];
      simpl;
      rewrite ?Qltb_lt, ?Qltb_ge in *;
      (split; [done|]);
      repeat split; try done; try (intros; lra); try (intros [? ?]; lra);
      try (intros ->; revert H110; try revert H150;
           rewrite ?Qltb_lt, ?Qltb_ge; unfold Qlt, Qle; simpl; lia);
      auto.
Qed.

Lemma clasificar_persona_umbrales_witness :
  (clasificar_persona calibrado_decimo 1099 300).1.1 = Nino ∧
  (clasificar_persona calibrado_decimo 1100 300).1.1 = Adolescente ∧
  ((clasificar_persona calibrado_decimo 1500 300).1.1 = Mujer ∨
   (clasificar_persona calibrado_decimo 1500 300).1.1 = Hombre) ∧
  (clasificar_persona init 1500 300).1 = (SinCalibrar, None).
Proof.
  split; [|split; [|split]].
  - apply (clasificar_persona_umbrales calibrado_decimo 1099 300)
      with (altura_cm := (1099 # 10)%Q); reflexivity.
  - apply (clasificar_persona_umbrales calibrado_decimo 1100 300)
      with (altura_cm := 110%Q); reflexivity.
  - apply (clasificar_persona_umbrales calibrado_decimo 1500 300)
      with (altura_cm := 150%Q); reflexivity.
  - apply (clasificar_persona_umbrales init 1500 300). reflexivity.
Defined.

Lemma sin_confirmada l :
  existsb confirmada l = false → RConfirmar (Ret true) ∉ l.
Proof.
  induction l as [|a l IH]; simpl; [intros _; apply not_elem_of_nil|].
  intros [Ha Hl]%orb_false_iff. apply not_elem_of_cons. split; [|auto].
  intros <-. discriminate.
Qed.

(** C10.  From a calibrated state, [iniciar_calibracion] and
    [reiniciar_calibracion] keep the flag and the factor; along any
    sequence of method calls the flag stays set, and as long as no
    confirmation answers [True] the factor is the old one and
    [estimar_altura_real] keeps answering heights computed with it. *)
Theorem recalibracion_conserva_factor s (factor : Q) (cs : list llamada) :
  calibrado s = true → factor_conversion s = Some factor →
  (∀ cm, calibrado (iniciar_calibracion s cm) = true ∧
         factor_conversion (iniciar_calibracion s cm) = Some factor ∧
         modo_calibracion (iniciar_calibracion s cm) = true) ∧
  (calibrado (reiniciar_calibracion s) = true ∧
   factor_conversion (reiniciar_calibracion s) = Some factor) ∧
  calibrado (llamar_todas s cs).1 = true ∧
  (existsb confirmada (llamar_todas s cs).2 = false →
   factor_conversion (llamar_todas s cs).1 = Some factor ∧
   ∀ altura_px,
     estimar_altura_real (llamar_todas s cs).1 altura_px
     = Some (py_round1 (inject_Z altura_px * factor))).
Proof.
  intros Hc Hf.
  destruct (llamar_todas_calibracion cs s) as [H1 H2].
  split; [done|]. split; [done|]. split; [auto|].
  intros Hno. destruct (H2 (sin_confirmada _ Hno)) as [Hc' Hf'].
  split; [congruence|].
  intros altura_px. unfold estimar_altura_real. by rewrite Hc', Hf', Hc, Hf.
Qed.

Lemma recalibracion_conserva_factor_witness :
  let cs := [Iniciar 180; Raton true 10 10; Reiniciar; Raton true 5 5;
             Confirmar; Procesar frame_una_persona; Raton true 7 5;
             Confirmar] in
  modo_calibracion (llamar_todas calibrado_210 cs).1 = true ∧
  factor_conversion (llamar_todas calibrado_210 cs).1 = Some 1%Q ∧
  estimar_altura_real (llamar_todas calibrado_210 cs).1 200 = Some 200%Q.
Proof.
  intros cs.
  destruct (recalibracion_conserva_factor calibrado_210 1 cs)
    as (_ & _ & _ & H); [reflexivity|reflexivity|].
  destruct H as [Hf He]; [by vm_compute|].
  split; [by vm_compute|]. split; [exact Hf|]. exact (He 200).
Defined.

(** ** Cruce de línea *)

Lemma anotar_posicion_historial s id y :
  historial_posicion (anotar_posicion s id y) =
  <[id := ventana (default [] (historial_posicion s !! id) ++ [y])]>
    (historial_posicion s).
Proof. reflexivity. Qed.

(** What a call answers and leaves, by cases. *)
Lemma detectar_cruce_linea_caso s id y :
  let w := ventana (default [] (historial_posicion s !! id) ++ [y]) in
  let s' := (detectar_cruce_linea s id y).1 in
  let r := (detectar_cruce_linea s id y).2 in
  historial_posicion s' = <[id := w]> (historial_posicion s) ∧
  personas_trackeadas s' = personas_trackeadas s ∧
  siguiente_id s' = siguiente_id s ∧
  ((length w < 2)%nat → r = Ret None ∧ ids_cruzados s' = ids_cruzados s) ∧
  ((2 ≤ length w)%nat → y_cruce s = None →
   r = Raise TypeError ∧ ids_cruzados s' = ids_cruzados s) ∧
  (∀ yc, (2 ≤ length w)%nat → y_cruce s = Some yc →
     let zona_actual := zona_de_Z y yc in
     let zona_anterior := zona_de_Q (np_mean (take 2 w)) yc in
     (zonas (anotar_posicion s id y) id y yc) = (zona_actual, zona_anterior) ∧
     (id ∈ ids_cruzados s →
      r = Ret None ∧ ids_cruzados s' = ids_cruzados s) ∧
     (id ∉ ids_cruzados s → zona_actual = zona_anterior →
      r = Ret None ∧ ids_cruzados s' = ids_cruzados s) ∧
     (id ∉ ids_cruzados s → zona_actual ≠ zona_anterior →
      r = Ret (movimiento_de zona_anterior zona_actual) ∧
      is_Some (movimiento_de zona_anterior zona_actual) ∧
      ids_cruzados s' = ids_cruzados s ∪ {[id]})).
Proof.
  intros w s' r. subst s' r.
  split; [|split; [|split]];
    try (unfold detectar_cruce_linea; repeat case_match; reflexivity).
  unfold detectar_cruce_linea.
  assert (Hz : ∀ yc, zonas (anotar_posicion s id y) id y yc =
                     (zona_de_Z y yc, zona_de_Q (np_mean (take 2 w)) yc)).
  { intros yc. unfold zonas. rewrite anotar_posicion_historial. fold w.
    by rewrite lookup_insert_eq. }
  rewrite anotar_posicion_historial. fold w. rewrite lookup_insert_eq.
  change (default [] (Some w)) with w.
  change (y_cruce (anotar_posicion s id y)) with (y_cruce s).
  change (ids_cruzados (anotar_posicion s id y)) with (ids_cruzados s).
  destruct (Nat.ltb_spec (length w) 2) as [Hlt|Hge].
  { cbn [fst snd]. repeat split; try done; intros; lia. }
  destruct (y_cruce s) as [yc|] eqn:Hyc.
  2:{ cbn [fst snd]. repeat split; try done; intros; lia. }
  rewrite Hz.
  assert (Hmov : ∀ z1 z2 : zona, z1 ≠ z2 → is_Some (movimiento_de z2 z1))
    by (intros [] [] ?; simpl; eauto; done).
  destruct (decide (zona_de_Z y yc ≠ _)) as [Hne|Heq%dec_stable];
    [destruct (decide (id ∉ ids_cruzados s)) as [Hni|Hin];
     [destruct (Hmov _ _ Hne) as [m Hm]; rewrite Hm|]|];
    cbn [fst snd]; repeat split; intros; simplify_eq;
    try done; try lia; try congruence; rewrite ?Hm; eauto.
Qed.

(** ** Tracking *)

Lemma dist_ltb_lt d1 d2 : dist_ltb d1 d2 = true ↔ dist_lt d1 d2.
Proof. unfold dist_ltb, dist_lt. apply Z.ltb_lt. Qed.

Lemma claves_dict_set {A} (d : list (Z * A)) k v :
  claves (dict_set d k v) =
  if decide (k ∈ claves d) then claves d else claves d ++ [k].
Proof.
  unfold claves. induction d as [|[k' v'] d IH].
  - destruct (decide (k ∈ ([] : list (Z * A)).*1)) as [H%elem_of_nil|];
      done.
  - cbn [dict_set]. destruct (decide (k' = k)) as [->|Hne].
    + rewrite decide_True; [done|]. rewrite fmap_cons. apply elem_of_cons.
      by left.
    + rewrite !fmap_cons, IH. cbn [fst].
      destruct (decide (k ∈ d.*1)) as [Hin|Hni].
      * rewrite decide_True; [done|]. apply elem_of_cons. by right.
      * rewrite decide_False; [done|]. rewrite elem_of_cons. intuition congruence.
Qed.

Lemma elem_of_claves_dict_set {A} (d : list (Z * A)) k v k' :
  k' ∈ claves (dict_set d k v) ↔ k' ∈ claves d ∨ k' = k.
Proof.
  rewrite claves_dict_set. case_decide.
  - intuition congruence.
  - rewrite elem_of_app, list_elem_of_singleton. done.
Qed.

Lemma NoDup_claves_dict_set {A} (d : list (Z * A)) k v :
  NoDup (claves d) → NoDup (claves (dict_set d k v)).
Proof.
  intros Hd. rewrite claves_dict_set. case_decide; [done|].
  apply NoDup_app. split; [done|]. split; [|apply NoDup_singleton].
  intros x Hx ->%list_elem_of_singleton. done.
Qed.

Lemma lookup_dict_set {A} (d : list (Z * A)) k v :
  (k, v) ∈ dict_set d k v.
Proof.
  induction d as [|[k' v'] d IH]; simpl.
  - apply list_elem_of_singleton. done.
  - case_decide; [apply elem_of_cons; by left|].
    apply elem_of_cons. by right.
Qed.

(** The search keeps the best distance below the initial one, and what it
    answers is the first closest candidate under it. *)
Lemma buscar_mejor_spec centro usados previas : ∀ mejor_id mejor_dist,
  let r := buscar_mejor centro usados previas mejor_id mejor_dist in
  (∀ id info, (id, info) ∈ previas → id ∉ usados →
     dist_le r.2 (calcular_distancia_euclidiana centro (i_centro info))) ∧
  dist_le r.2 mejor_dist ∧
  (r = (mejor_id, mejor_dist) ∨
   ∃ id info, r.1 = Some id ∧ (id, info) ∈ previas ∧ (id ∉ usados) ∧
     r.2 = calcular_distancia_euclidiana centro (i_centro info) ∧
     dist_lt r.2 mejor_dist).
Proof.
  unfold dist_le, dist_lt.
  induction previas as [|[id0 info0] resto IH]; intros mejor_id mejor_dist.
  { simpl. split; [|split; [lia|by left]].
    intros id info Hin. by apply elem_of_nil in Hin. }
  cbn [buscar_mejor]. destruct (decide (id0 ∈ usados)) as [Hus|Hus].
  - destruct (IH mejor_id mejor_dist) as (H1 & H2 & H3).
    split; [|split; [done|]].
    + intros id info Hin Hni. apply elem_of_cons in Hin as [Heq|Hin];
        [simplify_eq; contradiction|eauto].
    + destruct H3 as [H3|(id & info & ? & ? & ? & ? & ?)]; [by left|right].
      exists id, info. rewrite elem_of_cons. intuition congruence.
  - destruct (dist_ltb _ mejor_dist) eqn:Hlt.
    + apply dist_ltb_lt in Hlt. unfold dist_lt in Hlt.
      destruct (IH (Some id0)
                  (calcular_distancia_euclidiana centro (i_centro info0)))
        as (H1 & H2 & H3).
      split; [|split; [lia|right]].
      * intros id info Hin Hni. apply elem_of_cons in Hin as [Heq|Hin];
          [simplify_eq; lia|eauto].
      * destruct H3 as [H3|(id & info & ? & ? & ? & ? & ?)].
        -- exists id0, info0. rewrite H3. simpl.
           rewrite elem_of_cons. intuition congruence.
        -- exists id, info. rewrite elem_of_cons.
           repeat split; auto; lia.
    + assert (Hge : radicando mejor_dist ≤
                    radicando (calcular_distancia_euclidiana centro
                                 (i_centro info0))).
      { apply Z.ltb_ge. exact Hlt. }
      destruct (IH mejor_id mejor_dist) as (H1 & H2 & H3).
      split; [|split; [done|]].
      * intros id info Hin Hni. apply elem_of_cons in Hin as [Heq|Hin];
          [simplify_eq; lia|eauto].
      * destruct H3 as [H3|(id & info & ? & ? & ? & ? & ?)]; [by left|right].
        exists id, info. rewrite elem_of_cons. intuition congruence.
Qed.

(** The answer of the search started as [trackear_personas] starts it. *)
Lemma buscar_mejor_inicial (s : ControlAforoCruceLinea) usados centro :
  let dist info := calcular_distancia_euclidiana centro (i_centro info) in
  match
    (buscar_mejor centro usados (personas_trackeadas s) None
       (distancia_de_Z distancia_maxima_tracking)).1
  with
  | Some id =>
      ∃ info, candidato s usados id info ∧
        dist_lt (dist info) (distancia_de_Z distancia_maxima_tracking) ∧
        ∀ id' info', candidato s usados id' info' →
          dist_le (dist info) (dist info')
  | None =>
      ∀ id info, candidato s usados id info →
        dist_le (distancia_de_Z distancia_maxima_tracking) (dist info)
  end.
Proof.
  intros dist.
  destruct (buscar_mejor_spec centro usados (personas_trackeadas s) None
              (distancia_de_Z distancia_maxima_tracking)) as (H1 & H2 & H3).
  destruct H3 as [H3|(id & info & Hid & Hin & Hni & Hd & Hlt)].
  - rewrite H3 in *. simpl in *. intros id info [Hin Hni]. eauto.
  - rewrite Hid. exists info. rewrite Hd in *.
    split; [done|]. split; [done|]. intros id' info' [Hin' Hni']. eauto.
Qed.

(** One iteration: identifiers are only allocated upwards, a matched
    identity is an unmatched previous one, and the keys of
    [personas_actual] grow by the matched or the allocated identifier. *)
Lemma paso_deteccion_inv (s : ControlAforoCruceLinea) n actual usados b :
  let st := paso_deteccion (set_siguiente_id n s, actual, usados) b in
  ∃ n', st.1.1 = set_siguiente_id n' s ∧ n ≤ n' ≤ n + 1 ∧
    usados ⊆ st.2 ∧
    (∀ k, k ∈ st.2 → k ∈ usados ∨ k ∈ claves (personas_trackeadas s)) ∧
    (∀ k, k ∈ claves st.1.2 ↔
          k ∈ claves actual ∨ (k ∈ st.2 ∧ k ∉ usados) ∨ n ≤ k < n') ∧
    (NoDup (claves actual) → NoDup (claves st.1.2)).
Proof.
  unfold paso_deteccion.
  change (personas_trackeadas (set_siguiente_id n s))
    with (personas_trackeadas s).
  pose proof (buscar_mejor_inicial s usados (obtener_centro_bbox b)) as Hb.
  cbv zeta in Hb.
  destruct (buscar_mejor _ _ _ _ _).1 as [id|]; cbn [fst snd].
  - destruct Hb as (info & [Hin Hni] & _).
    exists n. split; [done|]. split; [lia|]. split; [set_solver|].
    split; [|split; [|apply NoDup_claves_dict_set]].
    + intros k [Hk| ->%elem_of_singleton]%elem_of_union; [by left|right].
      unfold claves. apply list_elem_of_fmap. by exists (id, info).
    + intros k. rewrite elem_of_claves_dict_set, elem_of_union,
        elem_of_singleton.
      split; [|intuition lia].
      intros [?| ->]; [by left|]. right; left. intuition congruence.
  - exists (n + 1). split; [done|]. split; [lia|]. split; [done|].
    split; [by left|].
    split; [|apply NoDup_claves_dict_set].
    intros k. rewrite elem_of_claves_dict_set.
    change (siguiente_id (set_siguiente_id n s)) with n.
    split; [|intuition lia].
    intros [?| ->]; [by left|]. right; right. lia.
Qed.

(** The whole loop, from any loop state. *)
Lemma bucle_inv ds : ∀ (s : ControlAforoCruceLinea) n actual usados,
  let st := foldl paso_deteccion (set_siguiente_id n s, actual, usados) ds in
  ∃ n', st.1.1 = set_siguiente_id n' s ∧ n ≤ n' ∧
    usados ⊆ st.2 ∧
    (∀ k, k ∈ st.2 → k ∈ usados ∨ k ∈ claves (personas_trackeadas s)) ∧
    (∀ k, k ∈ claves st.1.2 ↔
          k ∈ claves actual ∨ (k ∈ st.2 ∧ k ∉ usados) ∨ n ≤ k < n') ∧
    (NoDup (claves actual) → NoDup (claves st.1.2)).
Proof.
  induction ds as [|b ds IH]; intros s n actual usados.
  { exists n. cbn. split; [done|]. split; [lia|]. split; [done|].
    split; [by left|]. split; [|done].
    intros k. split; [by left|]. intros [?|[[? ?]|?]]; [done|done|lia]. }
  rewrite foldl_cons.
  destruct (paso_deteccion_inv s n actual usados b)
    as (n1 & Hs1 & Hn1 & Hu1 & Hp1 & Hk1 & Hd1).
  destruct (paso_deteccion _ b) as [[s1 a1] u1]; cbn [fst snd] in *.
  subst s1.
  destruct (IH s n1 a1 u1) as (n2 & Hs2 & Hn2 & Hu2 & Hp2 & Hk2 & Hd2).
  cbv zeta. exists n2. split; [done|]. split; [lia|].
  split; [by etrans|].
  split; [|split; [|auto]].
  - intros k Hk. destruct (Hp2 k Hk) as [?|?]; [|by right]. by apply Hp1.
  - intros k. rewrite Hk2, Hk1. split.
    + intros [[Ha|[[Hu Hnu]|Hr]]|[[Hu Hnu]|Hr]].
      * by left.
      * right; left. split; [by apply Hu2|done].
      * right; right. lia.
      * destruct (decide (k ∈ usados)) as [Hin|Hni].
        -- exfalso. apply Hnu. by apply Hu1.
        -- right; left. done.
      * right; right. lia.
    + intros [Ha|[[Hu Hnu]|Hr]].
      * left. by left.
      * destruct (decide (k ∈ u1)) as [Hin|Hni].
        -- left. right; left. done.
        -- right. left. done.
      * destruct (decide (k < n1)) as [Hlt|Hge].
        -- left. right; right. lia.
        -- right. right. lia.
Qed.

Lemma retirar_spec ids : ∀ h c,
  (∀ k, (retirar ids h c).1 !! k = if decide (k ∈ ids) then None else h !! k) ∧
  (∀ k, k ∈ (retirar ids h c).2 ↔ k ∈ c ∧ k ∉ ids).
Proof.
  induction ids as [|id ids IH]; intros h c; cbn [retirar].
  { split; intros k; cbn [fst snd].
    - rewrite decide_False; [done|apply not_elem_of_nil].
    - pose proof (not_elem_of_nil k). intuition congruence. }
  destruct (IH (delete id h) (c ∖ {[id]})) as [H1 H2].
  split; intros k.
  - rewrite H1. destruct (decide (k ∈ ids)) as [Hin|Hni].
    + rewrite decide_True; [done|]. apply elem_of_cons. by right.
    + destruct (decide (k = id)) as [->|Hne].
      * rewrite lookup_delete_eq, decide_True; [done|].
        apply elem_of_cons. by left.
      * rewrite lookup_delete_ne by done.
        rewrite decide_False; [done|]. rewrite elem_of_cons. intuition congruence.
  - rewrite H2, elem_of_difference, elem_of_singleton, not_elem_of_cons.
    intuition congruence.
Qed.

(** What a tracker update leaves: the returned dictionary becomes
    [personas_trackeadas]; a previous identity missing from it loses its
    history and its crossed flag; every other history and flag stays. *)
Lemma trackear_personas_efecto s ds :
  let st := foldl paso_deteccion (s, [], ∅) ds in
  let s' := (trackear_personas s ds).1 in
  let fuera k :=
    k ∈ claves (personas_trackeadas s) ∧ k ∉ claves st.1.2 in
  (trackear_personas s ds).2 = st.1.2 ∧
  personas_trackeadas s' = st.1.2 ∧
  siguiente_id s' = siguiente_id st.1.1 ∧
  (∀ k, fuera k → historial_posicion s' !! k = None ∧ k ∉ ids_cruzados s') ∧
  (∀ k, ¬ fuera k →
        historial_posicion s' !! k = historial_posicion s !! k ∧
        (k ∈ ids_cruzados s' ↔ k ∈ ids_cruzados s)).
Proof.
  intros st s' fuera. subst s' fuera. unfold trackear_personas. fold st.
  destruct (bucle_inv ds s (siguiente_id s) [] ∅) as (n & Hs & _).
  cbv zeta in Hs. rewrite set_siguiente_id_id in Hs. fold st in Hs.
  destruct st as [[s1 actual] usados]; cbn [fst snd] in *. subst s1.
  change (personas_trackeadas (set_siguiente_id n s))
    with (personas_trackeadas s).
  change (historial_posicion (set_siguiente_id n s))
    with (historial_posicion s).
  change (ids_cruzados (set_siguiente_id n s)) with (ids_cruzados s).
  set (ids_fuera := list_to_set (claves (personas_trackeadas s))
                    ∖ list_to_set (claves actual) : gset Z).
  destruct (retirar_spec (elements ids_fuera) (historial_posicion s)
              (ids_cruzados s)) as [Hh Hc].
  destruct (retirar _ _ _) as [h c]; cbn [fst snd] in *.
  assert (Hf : ∀ k, k ∈ elements ids_fuera ↔
                 k ∈ claves (personas_trackeadas s) ∧ k ∉ claves actual).
  { intros k. rewrite elem_of_elements. unfold ids_fuera.
    rewrite elem_of_difference, !elem_of_list_to_set. done. }
  split; [done|]. split; [done|]. split; [done|]. split.
  - intros k Hk%Hf. rewrite Hh, Hc, decide_True by done. intuition congruence.
  - intros k Hk. rewrite <- Hf in Hk. rewrite Hh, Hc, decide_False by done.
    intuition congruence.
Qed.

(** The keys of the dictionary a tracker update returns: the matched
    previous identities and the identifiers allocated by the update. *)
Lemma trackear_personas_claves s ds :
  let s' := (trackear_personas s ds).1 in
  siguiente_id s ≤ siguiente_id s' ∧
  (∀ k, k ∈ ids_usados_de s ds → k ∈ claves (personas_trackeadas s)) ∧
  (∀ k, k ∈ claves (trackear_personas s ds).2 ↔
        k ∈ ids_usados_de s ds ∨ siguiente_id s ≤ k < siguiente_id s') ∧
  NoDup (claves (trackear_personas s ds).2).
Proof.
  destruct (trackear_personas_efecto s ds) as (Hp & _ & Hn & _).
  cbv zeta in *. rewrite Hp, Hn. unfold ids_usados_de.
  destruct (bucle_inv ds s (siguiente_id s) [] ∅)
    as (n & Hs & Hle & _ & Hu & Hk & Hd).
  cbv zeta in *. rewrite set_siguiente_id_id in *.
  rewrite Hs. change (siguiente_id (set_siguiente_id n s)) with n.
  split; [done|]. split.
  - intros k Hin. destruct (Hu k Hin) as [Hin'|?]; [|done].
    by apply not_elem_of_empty in Hin'.
  - split; [|apply Hd, NoDup_nil_2].
    intros k. rewrite Hk. split.
    + intros [Hin|[[? _]|?]]; [by apply elem_of_nil in Hin|by left|by right].
    + intros [?|?]; [right; left|by right; right].
      split; [done|apply not_elem_of_empty].
Qed.

Lemma trackear_personas_ok s ds :
  tracking_ok s → tracking_ok (trackear_personas s ds).1.
Proof.
  intros (Hd & Hp & Hh & Hc).
  destruct (trackear_personas_efecto s ds) as (Hr & Hp' & Hn & Hf & Hnf).
  destruct (trackear_personas_claves s ds) as (Hle & Hu & Hk & Hnd).
  cbv zeta in *. rewrite Hr in *.
  set (s' := (trackear_personas s ds).1) in *.
  set (fuera k := k ∈ claves (personas_trackeadas s) ∧
                  k ∉ claves (foldl paso_deteccion (s, [], ∅) ds).1.2) in *.
  assert (Hdec : ∀ k, fuera k ∨ ¬ fuera k).
  { intros k. unfold fuera.
    destruct (decide (k ∈ claves (personas_trackeadas s)));
      destruct (decide (k ∈ claves (foldl paso_deteccion (s, [], ∅) ds).1.2));
      tauto. }
  split; [by rewrite Hp'|]. split; [|split].
  - intros k. rewrite Hp', Hk. intros [Hin|?]; [|lia].
    apply Hu, Hp in Hin. lia.
  - intros k [v Hv]%elem_of_dom. destruct (Hdec k) as [Hk'|Hk'].
    + destruct (Hf k Hk') as [Hnone _]. congruence.
    + destruct (Hnf k Hk') as [Heq _]. rewrite Heq in Hv.
      assert (k ∈ dom (historial_posicion s)) by (apply elem_of_dom; eauto).
      apply Hh in H. lia.
  - intros k Hin. destruct (Hdec k) as [Hk'|Hk'].
    + destruct (Hf k Hk') as [_ Hni]. done.
    + destruct (Hnf k Hk') as [_ Heq]. apply Heq, Hc in Hin. lia.
Qed.

Lemma tracking_ok_init : tracking_ok init.
Proof.
  split; [apply NoDup_nil_2|]. split; [|split]; intros k Hk.
  - by apply elem_of_nil in Hk.
  - by apply elem_of_dom in Hk as [? ?].
  - by apply not_elem_of_empty in Hk.
Qed.

(** No call lowers [siguiente_id]. *)
Lemma llamar_siguiente_id s c : siguiente_id s ≤ siguiente_id (llamar s c).1.
Proof.
  destruct c as [cm|lb x y| | |ds|id y|f]; simpl.
  - done.
  - unfold mouse_callback_calibracion. repeat case_match; simpl; lia.
  - unfold confirmar_calibracion. repeat case_match; simplify_eq; simpl; lia.
  - done.
  - pose proof (trackear_personas_claves s ds) as [H _].
    by destruct (trackear_personas s ds).
  - destruct (detectar_cruce_linea_caso s id y) as (_ & _ & H & _).
    destruct (detectar_cruce_linea s id y). simpl in *. lia.
  - unfold detectar_y_trackear.
    set (s1 := match y_cruce s with None => _ | Some _ => s end).
    assert (H1 : siguiente_id s1 = siguiente_id s)
      by (subst s1; by destruct (y_cruce s)).
    pose proof (trackear_personas_claves s1 (detecciones_de f)) as [H2 _].
    destruct (trackear_personas s1 _) as [s2 personas]; cbn [fst] in H2.
    assert (H3 : ∀ ps s movs, siguiente_id (cruces s ps movs).1
                              = siguiente_id s).
    { induction ps as [|[idp info] ps IH]; intros s0 movs; [done|].
      cbn [cruces].
      destruct (detectar_cruce_linea_caso s0 idp (i_pies info).2)
        as (_ & _ & H & _).
      destruct (detectar_cruce_linea s0 idp _) as [s3 [[m|]|e]];
        cbn [fst] in *; rewrite ?IH; done. }
    destruct (modo_calibracion s2); [simpl; lia|].
    specialize (H3 personas s2 []).
    destruct (cruces s2 personas []) as [s3 [movs|e]]; simpl in *; lia.
Qed.




(** With previous identities at distances 90 and 10 the detection is bound
    to the one at distance 10, whatever their order in the dictionary. *)
Lemma trackear_personas_mas_cercana :
  claves (trackear_personas dos_personas [(-5, -5, 5, 5)]).2 = [1] ∧
  claves (trackear_personas
            (trackear_personas init [(-5, 5, 5, 15); (85, -5, 95, 5)]).1
            [(-5, -5, 5, 5)]).2 = [0].
Proof. by vm_compute. Qed.

(** C6.  In a state satisfying the tracking invariant, a previous identity
    that no detection of the update was bound to is absent from the
    returned dictionary, has no history and no crossed flag left, and the
    invariant still holds.  At the next update it is not in the returned
    dictionary either: every identity there that is not a continuing one
    carries a larger, new identifier, without crossed flag and without
    history. *)
Theorem trackear_personas_retira s (ds : list bbox) (id : Z) :
  tracking_ok s →
  id ∈ claves (personas_trackeadas s) →
  id ∉ ids_usados_de s ds →
  let s' := (trackear_personas s ds).1 in
  (id ∉ claves (trackear_personas s ds).2) ∧
  historial_posicion s' !! id = None ∧
  (id ∉ ids_cruzados s') ∧
  tracking_ok s' ∧
  ∀ ds' : list bbox,
    let s'' := (trackear_personas s' ds').1 in
    (id ∉ claves (trackear_personas s' ds').2) ∧
    ∀ k, k ∈ claves (trackear_personas s' ds').2 →
         k ∉ claves (personas_trackeadas s') →
         id < k ∧ (k ∉ ids_cruzados s'') ∧ historial_posicion s'' !! k = None.
Proof.
  intros Hok Hin Hnu s'.
  pose proof Hok as (Hd & Hp & Hh & Hc).
  destruct (trackear_personas_efecto s ds) as (Hr & Hp' & Hn & Hf & Hnf).
  destruct (trackear_personas_claves s ds) as (Hle & Hu & Hk & Hnd).
  cbv zeta in *. fold s' in Hp', Hn, Hf, Hnf, Hle, Hk.
  assert (Hlt : id < siguiente_id s) by auto.
  assert (Hni : id ∉ claves (trackear_personas s ds).2).
  { rewrite Hk. intros [?|?]; [done|lia]. }
  assert (Hfuera : id ∈ claves (personas_trackeadas s) ∧
                   id ∉ claves (foldl paso_deteccion (s, [], ∅) ds).1.2).
  { split; [done|]. by rewrite <- Hr. }
  destruct (Hf id Hfuera) as [Hh' Hc'].
  pose proof (trackear_personas_ok s ds Hok) as Hok'. fold s' in Hok'.
  split; [done|]. split; [done|]. split; [done|]. split; [done|].
  intros ds'. set (s'' := (trackear_personas s' ds').1).
  destruct Hok' as (Hd1 & Hp1 & Hh1 & Hc1).
  destruct (trackear_personas_efecto s' ds') as (Hr2 & _ & _ & _ & Hnf2).
  destruct (trackear_personas_claves s' ds') as (Hle2 & Hu2 & Hk2 & _).
  cbv zeta in *. fold s'' in Hnf2, Hle2, Hk2.
  assert (Hni' : id ∉ claves (personas_trackeadas s'))
    by (by rewrite Hp', <- Hr).
  split.
  - rewrite Hk2. intros [Hu'|?]; [|lia]. apply Hu2 in Hu'. done.
  - intros k Hkin Hknew.
    assert (Hge : siguiente_id s' ≤ k).
    { apply Hk2 in Hkin as [Hu'|?]; [|lia]. apply Hu2 in Hu'. done. }
    destruct (Hnf2 k) as [Hhk Hck]; [by intros [? _]|].
    split; [lia|]. split.
    + rewrite Hck. intros Hx%Hc1. lia.
    + rewrite Hhk. destruct (historial_posicion s' !! k) eqn:Hl; [|done].
      assert (Hx : k ∈ dom (historial_posicion s'))
        by (apply elem_of_dom; eauto).
      apply Hh1 in Hx. lia.
Qed.

Lemma trackear_personas_retira_witness :
  let s' := (trackear_personas dos_personas [(-5, -5, 5, 5)]).1 in
  (0 ∉ claves (trackear_personas dos_personas [(-5, -5, 5, 5)]).2) ∧
  historial_posicion s' !! 0 = None ∧
  (0 ∉ ids_cruzados s') ∧
  tracking_ok s' ∧
  ∀ ds' : list bbox,
    let s'' := (trackear_personas s' ds').1 in
    (0 ∉ claves (trackear_personas s' ds').2) ∧
    ∀ k, k ∈ claves (trackear_personas s' ds').2 →
         k ∉ claves (personas_trackeadas s') →
         0 < k ∧ (k ∉ ids_cruzados s'') ∧ historial_posicion s'' !! k = None.
Proof.
  apply (trackear_personas_retira dos_personas [(-5, -5, 5, 5)] 0).
  - apply trackear_personas_ok, tracking_ok_init.
  - apply elem_of_cons. left. reflexivity.
  - apply (bool_decide_unpack _). vm_compute. exact I.
Defined.

(** The retired identity of the example reappears under identifier 2. *)
Lemma trackear_personas_reaparece :
  let s' := (trackear_personas dos_personas [(-5, -5, 5, 5)]).1 in
  claves (trackear_personas s' [(-5, -5, 5, 5); (85, -5, 95, 5)]).2 = [1; 2].
Proof. by vm_compute. Qed.

(** ** Modo calibración *)

Lemma elem_of_dict_set {A} (d : list (Z * A)) k v x :
  x ∈ dict_set d k v → x ∈ d ∨ x = (k, v).
Proof.
  induction d as [|[k' v'] d IH]; cbn [dict_set].
  - intros ->%list_elem_of_singleton. by right.
  - case_decide.
    + intros [->|?]%elem_of_cons; [by right|left].
      apply elem_of_cons. by right.
    + intros [->|Hin]%elem_of_cons; [left; apply elem_of_cons; by left|].
      destruct (IH Hin) as [?|?]; [left|by right].
      apply elem_of_cons. by right.
Qed.

(** Every record of the returned dictionary was built from a detection of
    the frame, with the calibration of the object. *)
Lemma bucle_infos ds : ∀ (s : ControlAforoCruceLinea) n actual usados x,
  x ∈ (foldl paso_deteccion (set_siguiente_id n s, actual, usados) ds).1.2 →
  x ∈ actual ∨ ∃ b, b ∈ ds ∧ x.2 = info_de s b.
Proof.
  induction ds as [|b ds IH]; intros s n actual usados x; [by left|].
  rewrite foldl_cons.
  destruct (paso_deteccion_inv s n actual usados b) as (n1 & Hs1 & _).
  assert (Ha : ∀ y, y ∈ (paso_deteccion
                           (set_siguiente_id n s, actual, usados) b).1.2 →
                    y ∈ actual ∨ y.2 = info_de s b).
  { intros y. unfold paso_deteccion.
    destruct (buscar_mejor _ _ _ _ _).1; cbn [fst snd];
      intros [?| ->]%elem_of_dict_set; auto. }
  destruct (paso_deteccion _ b) as [[s1 a1] u1]; cbn [fst snd] in *.
  subst s1. intros Hx. destruct (IH s n1 a1 u1 x Hx) as [Hin|(b' & Hb' & ->)].
  - destruct (Ha x Hin) as [?|?]; [by left|right].
    exists b. split; [apply elem_of_cons; by left|done].
  - right. exists b'. split; [apply elem_of_cons; by right|done].
Qed.

Lemma trackear_personas_infos s ds x :
  x ∈ (trackear_personas s ds).2 → ∃ b, b ∈ ds ∧ x.2 = info_de s b.
Proof.
  destruct (trackear_personas_efecto s ds) as (-> & _).
  intros Hx. rewrite <- (set_siguiente_id_id s) in Hx at 1.
  apply bucle_infos in Hx as [Hx|?]; [|done]. by apply elem_of_nil in Hx.
Qed.





(** The loop of [ejecutar] starts the calibration once, before its first
    frame: as long as [iniciar_calibracion] is not called again, the
    calibration mode is only active on an uncalibrated object. *)
Lemma modo_calibracion_sin_calibrar cs : ∀ s,
  (modo_calibracion s = true → calibrado s = false) →
  forallb (λ c, negb (es_iniciar c)) cs = true →
  modo_calibracion (llamar_todas s cs).1 = true →
  calibrado (llamar_todas s cs).1 = false.
Proof.
  induction cs as [|c cs IH]; intros s Hs Hcs; [done|].
  rewrite llamar_todas_cons; cbn [fst].
  cbn [forallb] in Hcs. apply andb_true_iff in Hcs as [Hc Hcs].
  apply IH; [|done]. clear IH Hcs.
  destruct c as [cm|lb x y| | |ds|id y|fr]; simpl in *; try done.
  - unfold mouse_callback_calibracion. repeat case_match; simpl; auto.
  - unfold confirmar_calibracion.
    repeat (case_match; simpl in *; simplify_eq); simpl; auto; done.
  - pose proof (trackear_personas_resto s ds) as H.
    destruct (trackear_personas s ds) as [s' p]; simpl in *.
    unfold resto_de in H. simplify_eq. intros Hm.
    assert (Hm' : modo_calibracion s = true) by congruence.
    apply Hs in Hm'. congruence.
  - pose proof (detectar_cruce_linea_resto s id y) as H.
    destruct (detectar_cruce_linea s id y) as [s' r]; simpl in *.
    unfold resto_de in H. simplify_eq. intros Hm.
    assert (Hm' : modo_calibracion s = true) by congruence.
    apply Hs in Hm'. congruence.
  - pose proof (detectar_y_trackear_resto s fr) as [_ H].
    destruct (detectar_y_trackear s fr) as [s' r]; simpl in *.
    simplify_eq. intros Hm.
    assert (Hm' : modo_calibracion s = true) by congruence.
    apply Hs in Hm'. congruence.
Qed.

(** ** Cruces *)

(** A call with the line set, as a function of the stored history and of
    the crossed flag. *)
Lemma detectar_cruce_linea_paso s id y yc h :
  y_cruce s = Some yc →
  default [] (historial_posicion s !! id) = h →
  let w := ventana (h ++ [y]) in
  let s' := (detectar_cruce_linea s id y).1 in
  let zona_actual := zona_de_Z y yc in
  let zona_anterior := zona_de_Q (np_mean (take 2 w)) yc in
  y_cruce s' = Some yc ∧
  historial_posicion s' !! id = Some w ∧
  (detectar_cruce_linea s id y).2 =
    Ret (if (length w <? 2)%nat then None
         else if bool_decide (id ∈ ids_cruzados s) then None
         else if bool_decide (zona_actual = zona_anterior) then None
         else movimiento_de zona_anterior zona_actual) ∧
  (id ∈ ids_cruzados s → id ∈ ids_cruzados s') ∧
  (id ∈ ids_cruzados s' →
   id ∈ ids_cruzados s ∨ ∃ m, (detectar_cruce_linea s id y).2 = Ret (Some m)).
Proof.
  intros Hy Hh w s' za zp.
  destruct (detectar_cruce_linea_caso s id y) as (Hh' & _ & _ & Hlt & _ & Hge).
  pose proof (detectar_cruce_linea_resto s id y) as Hr.
  cbv zeta in *. rewrite Hh in *. fold w in Hh', Hlt, Hge. fold s' in Hh', Hr.
  specialize (Hge yc). fold za zp in Hge.
  split; [unfold resto_de in Hr; simplify_eq; congruence|].
  split; [by rewrite Hh', lookup_insert_eq|].
  destruct (Nat.ltb_spec (length w) 2) as [Hl|Hl].
  { destruct (Hlt Hl) as [-> Hc]. fold s' in Hc. rewrite Hc.
    split; [done|]. split; [done|]. by left. }
  destruct (Hge Hl Hy) as (_ & Hin & Heq & Hne). fold s' in Hin, Heq, Hne.
  destruct (decide (id ∈ ids_cruzados s)) as [Hc|Hc].
  { rewrite bool_decide_eq_true_2 by done.
    destruct (Hin Hc) as [-> Hc']. rewrite Hc'.
    split; [done|]. split; [done|]. by left. }
  rewrite (bool_decide_eq_false_2 (id ∈ ids_cruzados s)) by done.
  destruct (decide (za = zp)) as [Hz|Hz].
  { rewrite bool_decide_eq_true_2 by done.
    destruct (Heq Hc Hz) as [-> Hc']. rewrite Hc'.
    split; [done|]. split; [done|]. by left. }
  rewrite bool_decide_eq_false_2 by done.
  destruct (Hne Hc Hz) as (-> & [m Hm] & Hc'). rewrite Hc', Hm.
  split; [done|]. split; [set_solver|]. intros _. right. eauto.
Qed.

(** Calls for other identities leave the flag of [id]. *)
Lemma detectar_cruce_linea_otra s id id' y :
  id' ≠ id →
  (id ∈ ids_cruzados (detectar_cruce_linea s id' y).1 ↔ id ∈ ids_cruzados s).
Proof.
  intros Hne.
  destruct (detectar_cruce_linea_caso s id' y) as (_ & _ & _ & Hlt & Hn & Hge).
  cbv zeta in *.
  set (w := ventana (default [] (historial_posicion s !! id') ++ [y])) in *.
  destruct (Nat.ltb_spec (length w) 2) as [Hl|Hl].
  { destruct (Hlt Hl) as [_ ->]. done. }
  destruct (y_cruce s) as [yc|] eqn:Hy.
  2:{ destruct (Hn Hl eq_refl) as [_ ->]. done. }
  destruct (Hge yc Hl eq_refl) as (_ & Hin & Heq & Hd).
  destruct (decide (id' ∈ ids_cruzados s)) as [Hc|Hc].
  { destruct (Hin Hc) as [_ ->]. done. }
  destruct (decide (zona_de_Z y yc = zona_de_Q (np_mean (take 2 w)) yc))
    as [Hz|Hz].
  { destruct (Heq Hc Hz) as [_ ->]. done. }
  destruct (Hd Hc Hz) as (_ & _ & ->).
  rewrite elem_of_union, elem_of_singleton. intuition congruence.
Qed.

(** A call for [id]: an event needs the flag unset and sets it; without
    event the flag is left. *)
Lemma detectar_cruce_linea_cruzados s id y :
  let s' := (detectar_cruce_linea s id y).1 in
  match (detectar_cruce_linea s id y).2 with
  | Ret (Some _) => (id ∉ ids_cruzados s) ∧ id ∈ ids_cruzados s'
  | _ => id ∈ ids_cruzados s' ↔ id ∈ ids_cruzados s
  end.
Proof.
  destruct (detectar_cruce_linea_caso s id y) as (_ & _ & _ & Hlt & Hn & Hge).
  cbv zeta in *.
  set (w := ventana (default [] (historial_posicion s !! id) ++ [y])) in *.
  destruct (Nat.ltb_spec (length w) 2) as [Hl|Hl].
  { destruct (Hlt Hl) as [-> ->]. done. }
  destruct (y_cruce s) as [yc|] eqn:Hy.
  2:{ destruct (Hn Hl eq_refl) as [-> ->]. done. }
  destruct (Hge yc Hl eq_refl) as (_ & Hin & Heq & Hd).
  destruct (decide (id ∈ ids_cruzados s)) as [Hc|Hc].
  { destruct (Hin Hc) as [-> ->]. done. }
  destruct (decide (zona_de_Z y yc = zona_de_Q (np_mean (take 2 w)) yc))
    as [Hz|Hz].
  { destruct (Heq Hc Hz) as [-> ->]. done. }
  destruct (Hd Hc Hz) as (-> & [m ->] & ->).
  split; [done|]. apply elem_of_union. right. by apply elem_of_singleton.
Qed.

Lemma eventos_de_cons id id' m evs :
  eventos_de id ((id', m) :: evs) =
  if decide (id' = id) then S (eventos_de id evs) else eventos_de id evs.
Proof.
  unfold eventos_de. rewrite filter_cons. cbn [fst].
  by destruct (decide (id' = id)).
Qed.

(** Along a life without retirement: a flagged identity emits nothing and
    stays flagged; an unflagged one emits at most once, and is flagged in
    the end exactly when it did. *)
Lemma correr_eventos id ps : ∀ s,
  sobrevive id s ps = true →
  (id ∈ ids_cruzados s →
   eventos_de id (correr s ps).2 = 0%nat ∧ id ∈ ids_cruzados (correr s ps).1) ∧
  (id ∉ ids_cruzados s →
   (eventos_de id (correr s ps).2 ≤ 1)%nat ∧
   (id ∈ ids_cruzados (correr s ps).1 ↔
    eventos_de id (correr s ps).2 = 1%nat)).
Proof.
  induction ps as [|[ds|id' y] ps IH]; intros s Hv.
  - cbn. split; [done|]. intros Hni. split; [lia|]. split; [done|lia].
  - cbn [sobrevive correr] in *.
    destruct (trackear_personas_efecto s ds) as (Hr & _ & _ & _ & Hnf).
    cbv zeta in *.
    destruct (trackear_personas s ds) as [s1 personas]; cbn [fst snd] in *.
    apply andb_true_iff in Hv as [Hin%bool_decide_eq_true Hv].
    destruct (Hnf id) as [_ Hc]; [rewrite <- Hr; by intros [_ ?]|].
    destruct (IH s1 Hv) as [IH1 IH2].
    split; intros Hx; [apply IH1|apply IH2]; rewrite Hc; exact Hx.
  - cbn [sobrevive correr] in *.
    destruct (decide (id' = id)) as [->|Hne].
    + pose proof (detectar_cruce_linea_cruzados s id y) as Hsame.
      cbv zeta in Hsame.
      destruct (detectar_cruce_linea s id y) as [s1 a]; cbn [fst snd] in *.
      destruct (IH s1 Hv) as [IH1 IH2].
      destruct (correr s1 ps) as [s2 evs]; cbn [fst snd] in *.
      destruct a as [[m|]|e]; cbn [fst snd].
      * destruct Hsame as [Hni Hin]. split; [done|]. intros _.
        rewrite eventos_de_cons, decide_True by done.
        destruct (IH1 Hin) as [-> Hin2]. split; [lia|]. done.
      * split; intros Hx; [apply IH1|apply IH2]; rewrite Hsame; exact Hx.
      * split; intros Hx; [apply IH1|apply IH2]; rewrite Hsame; exact Hx.
    + pose proof (detectar_cruce_linea_otra s id id' y Hne) as Hotra.
      destruct (detectar_cruce_linea s id' y) as [s1 a]; cbn [fst snd] in *.
      destruct (IH s1 Hv) as [IH1 IH2].
      destruct (correr s1 ps) as [s2 evs]; cbn [fst snd] in *.
      assert (Hev : ∀ m, eventos_de id ((id', m) :: evs) = eventos_de id evs)
        by (intros m; by rewrite eventos_de_cons, decide_False).
      destruct a as [[m|]|e]; cbn [fst snd]; rewrite ?Hev;
        (split; intros Hx; [apply IH1|apply IH2]; rewrite Hotra; exact Hx).
Qed.

(** C1.  Over the tracker updates and observations made while an
    identity, created without crossed flag, is not retired: at most one
    observation of the identity returns a movement; the identity is
    flagged in [ids_cruzados] exactly when one did; and once it is
    flagged, no later observation of it returns a movement, whatever its
    positions, until it is retired. *)
Theorem un_cruce_por_identidad s (ps : list paso) (id : Z) :
  id ∉ ids_cruzados s →
  sobrevive id s ps = true →
  let s' := (correr s ps).1 in
  let n := eventos_de id (correr s ps).2 in
  (n ≤ 1)%nat ∧
  (id ∈ ids_cruzados s' ↔ n = 1%nat) ∧
  (id ∈ ids_cruzados s' →
   (∀ y m, (detectar_cruce_linea s' id y).2 ≠ Ret (Some m)) ∧
   ∀ ps', sobrevive id s' ps' = true →
          eventos_de id (correr s' ps').2 = 0%nat).
Proof.
  intros Hni Hv s' n. subst s' n.
  destruct (correr_eventos id ps s Hv) as [_ H]. destruct (H Hni) as [H1 H2].
  split; [done|]. split; [done|]. intros Hin. split.
  - intros y m Heq.
    pose proof (detectar_cruce_linea_cruzados (correr s ps).1 id y) as Hc.
    cbv zeta in Hc. rewrite Heq in Hc. by destruct Hc.
  - intros ps' Hv'.
    destruct (correr_eventos id ps' (correr s ps).1 Hv') as [H' _].
    by destruct (H' Hin).
Qed.

Lemma un_cruce_por_identidad_witness :
  let s' := (correr linea_300 vida_oscilante).1 in
  let n := eventos_de 0 (correr linea_300 vida_oscilante).2 in
  (n ≤ 1)%nat ∧
  (0 ∈ ids_cruzados s' ↔ n = 1%nat) ∧
  (0 ∈ ids_cruzados s' →
   (∀ y m, (detectar_cruce_linea s' 0 y).2 ≠ Ret (Some m)) ∧
   ∀ ps', sobrevive 0 s' ps' = true →
          eventos_de 0 (correr s' ps').2 = 0%nat).
Proof.
  apply (un_cruce_por_identidad linea_300 vida_oscilante 0).
  - apply not_elem_of_empty.
  - by vm_compute.
Defined.

(** The life of the example emits its single event. *)
Lemma vida_oscilante_eventos :
  (correr linea_300 vida_oscilante).2 = [(0, entrada)].
Proof. by vm_compute. Qed.

Lemma observaciones_cons s id y ys :
  observaciones s id (y :: ys) =
  (detectar_cruce_linea s id y).2
  :: observaciones (detectar_cruce_linea s id y).1 id ys.
Proof. cbn [observaciones]. by destruct (detectar_cruce_linea s id y). Qed.

(** Observations of a flagged identity, with the line set, answer
    [None]. *)
Lemma observaciones_cruzado ys : ∀ s id yc,
  y_cruce s = Some yc → id ∈ ids_cruzados s →
  observaciones s id ys = replicate (length ys) (Ret None).
Proof.
  induction ys as [|y ys IH]; intros s id yc Hy Hc; [done|].
  cbn [observaciones length replicate].
  destruct (detectar_cruce_linea_paso s id y yc _ Hy eq_refl)
    as (Hy' & _ & Hr & Hc' & _).
  cbv zeta in *. rewrite (bool_decide_eq_true_2 _ Hc) in Hr.
  destruct (detectar_cruce_linea s id y) as [s1 a]; cbn [fst snd] in *.
  subst a. rewrite (IH s1 id yc Hy' (Hc' Hc)).
  by destruct (_ <? _)%nat.
Qed.

(** C2, amended.  With the line at y = 300 and an identity without
    history nor crossed flag: the observations 280 and 285 return
    nothing, 320 returns "entrada", the following 280 returns nothing,
    and neither does any further observation. *)
Theorem cruce_linea_300 s (id : Z) (ys : list Z) :
  y_cruce s = Some 300 →
  historial_posicion s !! id = None →
  id ∉ ids_cruzados s →
  observaciones s id ([280; 285; 320; 280] ++ ys)
  = [Ret None; Ret None; Ret (Some entrada); Ret None]
    ++ replicate (length ys) (Ret None).
Proof.
  intros Hy Hh Hc. cbn [app]. rewrite 3!observaciones_cons.
  destruct (detectar_cruce_linea_paso s id 280 300 [] Hy)
    as (Hy1 & Hh1 & Hr1 & _ & Hc1); [by rewrite Hh|].
  rewrite (bool_decide_eq_false_2 _ Hc) in Hr1.
  assert (Hr1' : (detectar_cruce_linea s id 280).2 = Ret None)
    by (rewrite Hr1; reflexivity).
  clear Hr1. rewrite Hr1' in *.
  set (s1 := (detectar_cruce_linea s id 280).1) in *.
  assert (Hn1 : id ∉ ids_cruzados s1).
  { intros [?|[m Hm]]%Hc1; [done|]. discriminate. }
  clear Hc1.
  destruct (detectar_cruce_linea_paso s1 id 285 300 [280] Hy1)
    as (Hy2 & Hh2 & Hr2 & _ & Hc2); [by rewrite Hh1|].
  rewrite (bool_decide_eq_false_2 _ Hn1) in Hr2.
  assert (Hr2' : (detectar_cruce_linea s1 id 285).2 = Ret None)
    by (rewrite Hr2; reflexivity).
  clear Hr2. rewrite Hr2' in *.
  set (s2 := (detectar_cruce_linea s1 id 285).1) in *.
  assert (Hn2 : id ∉ ids_cruzados s2).
  { intros [?|[m Hm]]%Hc2; [done|]. discriminate. }
  clear Hc2.
  destruct (detectar_cruce_linea_paso s2 id 320 300 [280; 285] Hy2)
    as (Hy3 & Hh3 & Hr3 & _ & _); [by rewrite Hh2|].
  rewrite (bool_decide_eq_false_2 _ Hn2) in Hr3.
  assert (Hr3' : (detectar_cruce_linea s2 id 320).2 = Ret (Some entrada))
    by (rewrite Hr3; reflexivity).
  clear Hr3.
  pose proof (detectar_cruce_linea_cruzados s2 id 320) as Hc3.
  cbv zeta in Hc3. rewrite Hr3' in *. destruct Hc3 as [_ Hc3].
  set (s3 := (detectar_cruce_linea s2 id 320).1) in *.
  rewrite (observaciones_cruzado (280 :: ys) s3 id 300 Hy3 Hc3).
  reflexivity.
Qed.

Lemma cruce_linea_300_witness :
  observaciones linea_300 0 ([280; 285; 320; 280] ++ [320; 280; 310])
  = [Ret None; Ret None; Ret (Some entrada); Ret None]
    ++ replicate (length [320; 280; 310]) (Ret None).
Proof.
  apply (cruce_linea_300 linea_300 0 [320; 280; 310]).
  - reflexivity.
  - reflexivity.
  - apply not_elem_of_empty.
Defined.

(** C2 as stated fails: after the "entrada" the observation 280 does not
    return "salida". *)
Lemma cruce_linea_300_sin_salida :
  observaciones linea_300 0 [280; 285; 320; 280]
  = [Ret None; Ret None; Ret (Some entrada); Ret None] ∧
  observaciones linea_300 0 [280; 285; 320; 280] !! 3%nat
  ≠ Some (Ret (Some salida)).
Proof. split; [by vm_compute|]. vm_compute. discriminate. Qed.

(** ** Historial *)

(** Appending to the last five samples and dropping the oldest beyond
    five keeps the last five samples. *)
Lemma ventana_drop (ys : list Z) (y : Z) :
  ventana (drop (length ys - 5) ys ++ [y])
  = drop (length (ys ++ [y]) - 5) (ys ++ [y]).
Proof.
  unfold ventana, max_historial.
  rewrite !length_app, length_drop. cbn [length].
  destruct (decide (length ys < 5)%nat) as [Hlt|Hge].
  - replace (length ys - 5)%nat with 0%nat by lia.
    replace (length ys + 1 - 5)%nat with 0%nat by lia.
    rewrite !drop_0. rewrite decide_False by lia. done.
  - rewrite decide_True by lia.
    rewrite !drop_app, length_drop, drop_drop.
    replace (1 - (length ys - (length ys - 5)))%nat with 0%nat by lia.
    replace (length ys + 1 - 5 - length ys)%nat with 0%nat by lia.
    replace (length ys - 5 + 1)%nat with (length ys + 1 - 5)%nat by lia.
    done.
Qed.

Lemma alimentar_snoc s id ys y :
  alimentar s id (ys ++ [y])
  = (detectar_cruce_linea (alimentar s id ys) id y).1.
Proof. unfold alimentar. by rewrite foldl_snoc. Qed.

(** After the observations [ys] of a new identity its history holds the
    last five of them. *)
Lemma alimentar_historial s id ys :
  historial_posicion s !! id = None →
  default [] (historial_posicion (alimentar s id ys) !! id)
  = drop (length ys - 5) ys.
Proof.
  intros Hh. induction ys as [|y ys IH] using rev_ind.
  - cbn. by rewrite Hh.
  - rewrite alimentar_snoc.
    destruct (detectar_cruce_linea_caso (alimentar s id ys) id y)
      as (Hh' & _).
    cbv zeta in Hh'. rewrite Hh', lookup_insert_eq, IH. cbn [default from_option].
    apply ventana_drop.
Qed.

(** C4, amended.  For an identity without history, the call that records
    sample number [k] leaves in [historial_posicion] the last five of the
    [k] samples; it returns nothing when [k < 2]; and its [zona_anterior]
    compares with the line the average of the first two samples of that
    window, which are the first two samples ever recorded as long as
    [k <= 5]. *)
Theorem zona_anterior_ventana s (id : Z) (ys : list Z) (y yc : Z) :
  historial_posicion s !! id = None →
  let todas := ys ++ [y] in
  let k := length todas in
  let s1 := anotar_posicion (alimentar s id ys) id y in
  let w := drop (k - 5) todas in
  historial_posicion s1 !! id = Some w ∧
  historial_posicion (detectar_cruce_linea (alimentar s id ys) id y).1 !! id
  = Some w ∧
  (length w ≤ 5)%nat ∧
  ((k < 2)%nat →
   (detectar_cruce_linea (alimentar s id ys) id y).2 = Ret None) ∧
  (zonas s1 id y yc).2 = zona_de_Q (np_mean (take 2 w)) yc ∧
  ((k ≤ 5)%nat → (zonas s1 id y yc).2 = zona_anterior_spec todas yc).
Proof.
  intros Hh todas k s1 w.
  pose proof (alimentar_historial s id ys Hh) as Hal.
  assert (H1 : historial_posicion s1 !! id = Some w).
  { subst s1. rewrite anotar_posicion_historial, lookup_insert_eq, Hal.
    f_equal. apply ventana_drop. }
  destruct (detectar_cruce_linea_caso (alimentar s id ys) id y)
    as (Hh' & _ & _ & Hlt & _).
  cbv zeta in Hh', Hlt. rewrite Hal, ventana_drop in Hh', Hlt.
  fold todas k w in Hh', Hlt.
  assert (Hz : (zonas s1 id y yc).2 = zona_de_Q (np_mean (take 2 w)) yc).
  { unfold zonas. by rewrite H1. }
  split; [done|]. split; [by rewrite Hh', lookup_insert_eq|].
  split; [subst w; rewrite length_drop; fold k; lia|].
  split; [|split; [done|]].
  - intros Hk. apply Hlt. subst w. rewrite length_drop. fold k. lia.
  - intros Hk. rewrite Hz. unfold zona_anterior_spec. subst w.
    replace (k - 5)%nat with 0%nat by lia. by rewrite drop_0.
Qed.

Lemma zona_anterior_ventana_witness :
  let ys := [280; 280; 320; 320; 320] in
  let s1 := anotar_posicion (alimentar linea_300 0 ys) 0 320 in
  historial_posicion s1 !! 0 = Some [280; 320; 320; 320; 320] ∧
  (zonas s1 0 320 300).2
  = zona_de_Q (np_mean (take 2 [280; 320; 320; 320; 320])) 300.
Proof.
  intros ys s1.
  destruct (zona_anterior_ventana linea_300 0 ys 320 300)
    as (H1 & _ & _ & _ & H2 & _); [reflexivity|].
  split; [exact H1|exact H2].
Defined.

(** C4 as stated fails: on the sixth sample the first two stored samples
    are 280 and 320, whose average 300 is not above the line, while the
    first two samples ever recorded, 280 and 280, are. *)
Lemma zona_anterior_no_primeras :
  let ys := [280; 280; 320; 320; 320] in
  let s1 := anotar_posicion (alimentar linea_300 0 ys) 0 320 in
  (zonas s1 0 320 300).2 = Abajo ∧
  zona_anterior_spec (ys ++ [320]) 300 = Arriba ∧
  (zonas s1 0 320 300).2 ≠ zona_anterior_spec (ys ++ [320]) 300.
Proof. by vm_compute. Qed.

(** ** The frame pipeline *)

Lemma detectar_cruce_linea_ok s id y :
  tracking_ok s → id ∈ claves (personas_trackeadas s) →
  tracking_ok (detectar_cruce_linea s id y).1.
Proof.
  intros (Hd & Hp & Hh & Hc) Hin.
  destruct (detectar_cruce_linea_caso s id y) as (Hh' & Hp' & Hn' & _).
  pose proof (detectar_cruce_linea_cruzados s id y) as Hs.
  pose proof (λ k, detectar_cruce_linea_otra s k id y) as Ho.
  cbv zeta in *.
  set (s' := (detectar_cruce_linea s id y).1) in *.
  assert (Hlt : id < siguiente_id s) by auto.
  split; [by rewrite Hp'|]. rewrite Hp', Hn'. split; [done|]. split.
  - intros k. rewrite Hh', dom_insert, elem_of_union, elem_of_singleton.
    intros [->|?]; auto.
  - intros k Hk. destruct (decide (id = k)) as [<-|Hne]; [done|].
    apply Hc. by apply (Ho k).
Qed.

Lemma cruces_ok personas : ∀ s movs,
  tracking_ok s →
  (∀ x, x ∈ personas → x.1 ∈ claves (personas_trackeadas s)) →
  tracking_ok (cruces s personas movs).1.
Proof.
  induction personas as [|[idp info] r IH]; intros s movs Hok Hin; [done|].
  cbn [cruces].
  pose proof (detectar_cruce_linea_ok s idp (i_pies info).2 Hok) as Hok1.
  destruct (detectar_cruce_linea_caso s idp (i_pies info).2)
    as (_ & Hp & _).
  cbv zeta in Hp.
  destruct (detectar_cruce_linea s idp _) as [s1 a]; cbn [fst snd] in *.
  assert (H1 : tracking_ok s1).
  { apply Hok1. apply (Hin (idp, info)). apply elem_of_cons. by left. }
  assert (H2 : ∀ x, x ∈ r → x.1 ∈ claves (personas_trackeadas s1)).
  { intros x Hx. rewrite Hp. apply Hin. apply elem_of_cons. by right. }
  destruct a as [[m|]|e]; cbn [fst]; auto.
Qed.

Lemma set_y_cruce_ok v s : tracking_ok s → tracking_ok (set_y_cruce v s).
Proof. done. Qed.

Lemma detectar_y_trackear_ok s f :
  tracking_ok s → tracking_ok (detectar_y_trackear s f).1.
Proof.
  intros Hok. unfold detectar_y_trackear.
  set (s1 := match y_cruce s with None => _ | Some _ => s end).
  assert (H1 : tracking_ok s1) by (subst s1; by destruct (y_cruce s)).
  pose proof (trackear_personas_ok s1 (detecciones_de f) H1) as H2.
  destruct (trackear_personas_efecto s1 (detecciones_de f))
    as (Hr & Hp & _).
  cbv zeta in *.
  destruct (trackear_personas s1 _) as [s2 personas]; cbn [fst snd] in *.
  destruct (modo_calibracion s2); [done|].
  pose proof (cruces_ok personas s2 [] H2) as H3.
  destruct (cruces s2 personas []) as [s3 [movs|e]]; cbn [fst] in *;
    apply H3; intros x Hx; rewrite Hp, <- Hr; unfold claves;
    by apply list_elem_of_fmap_2.
Qed.

(** The invariant holds along the calls of the frame loop. *)
Lemma llamar_todas_ok cs : ∀ s,
  tracking_ok s → forallb del_bucle cs = true →
  tracking_ok (llamar_todas s cs).1.
Proof.
  induction cs as [|c cs IH]; intros s Hok Hcs; [done|].
  rewrite llamar_todas_cons; cbn [fst].
  cbn [forallb] in Hcs. apply andb_true_iff in Hcs as [Hc Hcs].
  apply IH; [|done]. clear IH Hcs.
  destruct c as [cm|lb x y| | |ds|id y|fr]; simpl in *; try done.
  - unfold mouse_callback_calibracion. by repeat case_match.
  - unfold confirmar_calibracion.
    by repeat (case_match; simpl in *; simplify_eq).
  - pose proof (trackear_personas_ok s ds Hok).
    by destruct (trackear_personas s ds).
  - pose proof (detectar_y_trackear_ok s fr Hok).
    by destruct (detectar_y_trackear s fr).
Qed.

(** With the line set, the loop over the identities is the run of their
    observations, and its movements are the events of that run. *)
Lemma cruces_correr personas : ∀ s movs yc,
  y_cruce s = Some yc →
  ∃ nuevos,
    cruces s personas movs
    = ((correr s (pasos_de personas)).1, Ret (movs ++ nuevos)) ∧
    m_tipo <$> nuevos = (correr s (pasos_de personas)).2.*2.
Proof.
  induction personas as [|[idp info] r IH]; intros s movs yc Hy.
  { exists []. by rewrite app_nil_r. }
  cbn [cruces pasos_de fmap list_fmap correr fst snd].
  destruct (detectar_cruce_linea_paso s idp (i_pies info).2 yc _ Hy eq_refl)
    as (Hy1 & _ & Hr & _).
  cbv zeta in Hy1, Hr.
  destruct (detectar_cruce_linea s idp _) as [s1 a]; cbn [fst snd] in *.
  fold (pasos_de r).
  destruct a as [[m|]|e]; [| |discriminate].
  - destruct (IH s1
                (movs ++ [{| m_tipo := m;
                             m_clasificacion := i_clasificacion info;
                             m_altura_px := i_altura_px info;
                             m_altura_cm := i_altura_cm info |}]) yc Hy1)
      as (nuevos & -> & Hev).
    destruct (correr s1 (pasos_de r)) as [s2 evs]; cbn [fst snd] in *.
    eexists (_ :: nuevos). rewrite <- app_assoc. split; [done|].
    cbn. by rewrite Hev.
  - destruct (IH s1 movs yc Hy1) as (nuevos & -> & Hev).
    destruct (correr s1 (pasos_de r)) as [s2 evs]; cbn [fst snd] in *.
    by exists nuevos.
Qed.

(** A frame in normal mode is a tracker update followed by one
    observation per identity of the returned dictionary. *)
Lemma detectar_y_trackear_correr s f yc :
  y_cruce s = Some yc → modo_calibracion s = false →
  let personas := (trackear_personas s (detecciones_de f)).2 in
  let vida := Seguir (detecciones_de f) :: pasos_de personas in
  ∃ movimientos,
    detectar_y_trackear s f
    = ((correr s vida).1, Ret (personas, movimientos)) ∧
    m_tipo <$> movimientos = (correr s vida).2.*2.
Proof.
  intros Hy Hm personas vida. subst personas vida.
  unfold detectar_y_trackear. rewrite Hy. cbn [correr].
  pose proof (trackear_personas_resto s (detecciones_de f)) as Hr.
  destruct (trackear_personas s (detecciones_de f)) as [s2 personas].
  cbn [fst snd] in *.
  assert (Hy2 : y_cruce s2 = Some yc)
    by (unfold resto_de in Hr; simplify_eq; congruence).
  assert (Hm2 : modo_calibracion s2 = false)
    by (unfold resto_de in Hr; simplify_eq; congruence).
  rewrite Hm2.
  destruct (cruces_correr personas s2 [] yc Hy2) as (nuevos & -> & Hev).
  by exists nuevos.
Qed.

(** ** The window and the first two samples *)

Lemma zona_de_Q_media a b yc :
  zona_de_Q (np_mean [a; b]) yc = Arriba ↔ a + b < 2 * yc.
Proof.
  unfold zona_de_Q, np_mean.
  destruct (Qltb _ _) eqn:Hq.
  - apply Qltb_lt in Hq. rewrite Qred_correct in Hq.
    unfold Qlt in Hq. simpl in Hq. split; [intros _; lia|done].
  - apply Qltb_ge in Hq. rewrite Qred_correct in Hq.
    unfold Qle in Hq. simpl in Hq. split; [done|lia].
Qed.

Lemma zona_de_Z_Arriba y yc : zona_de_Z y yc = Arriba ↔ y < yc.
Proof. unfold zona_de_Z. destruct (Z.ltb_spec y yc); split; (done || lia). Qed.

(** The average of two samples of one zone lies in that zone. *)
Lemma zona_media a b yc z :
  zona_de_Z a yc = z → zona_de_Z b yc = z → zona_de_Q (np_mean [a; b]) yc = z.
Proof.
  intros Ha Hb. destruct z.
  - apply zona_de_Z_Arriba in Ha, Hb. apply zona_de_Q_media. lia.
  - destruct (zona_de_Q (np_mean [a; b]) yc) eqn:Hm; [|done].
    apply zona_de_Q_media in Hm.
    destruct (zona_de_Z a yc) eqn:Ha'; [done|].
    destruct (zona_de_Z b yc) eqn:Hb'; [done|].
    assert (¬ a < yc) by (rewrite <- zona_de_Z_Arriba; congruence).
    assert (¬ b < yc) by (rewrite <- zona_de_Z_Arriba; congruence).
    lia.
Qed.

Lemma movimiento_de_None z1 z2 : movimiento_de z1 z2 = None → z2 = z1.
Proof. by destruct z1, z2. Qed.

(** From the sixth sample on, the first two samples of the window are old
    samples, other than the first one. *)
Lemma ventana_primeras (previas : list Z) (y : Z) :
  (5 ≤ length previas)%nat →
  ∃ v1 v2, take 2 (drop (length (previas ++ [y]) - 5) (previas ++ [y]))
           = [v1; v2] ∧
           v1 ∈ drop 1 previas ∧ v2 ∈ drop 1 previas.
Proof.
  intros Hn. rewrite length_app. cbn [length].
  replace (length previas + 1 - 5)%nat with (length previas - 4)%nat by lia.
  rewrite drop_app_le by lia.
  assert (Hl : length (drop (length previas - 4) previas) = 4%nat)
    by (rewrite length_drop; lia).
  assert (Hsub : drop (length previas - 4) previas ⊆ drop 1 previas).
  { replace (length previas - 4)%nat with (1 + (length previas - 5))%nat
      by lia.
    rewrite <- drop_drop. apply subseteq_drop. }
  destruct (drop (length previas - 4) previas) as [|v1 [|v2 r]];
    [discriminate|discriminate|].
  exists v1, v2. split; [done|].
  split; apply Hsub; [by left|right; by left].
Qed.

(** For a new identity, the observations answer what the specification's
    rule of the first two samples ever recorded answers: the two rules
    can only disagree on the previous zone once the identity is flagged
    and answers nothing. *)
Lemma observaciones_ventana id yc ys : ∀ s previas (cruzado : bool),
  y_cruce s = Some yc →
  default [] (historial_posicion s !! id)
  = drop (length previas - 5) previas →
  (cruzado = true ↔ id ∈ ids_cruzados s) →
  (cruzado = false → (2 ≤ length previas)%nat →
   ∀ v, v ∈ drop 1 previas →
        zona_de_Z v yc = zona_anterior_spec previas yc) →
  observaciones s id ys = observaciones_spec yc previas cruzado ys.
Proof.
  induction ys as [|y ys IH]; intros s previas c Hy Hh Hc Hz; [done|].
  rewrite observaciones_cons. cbn [observaciones_spec].
  destruct (detectar_cruce_linea_paso s id y yc _ Hy Hh)
    as (Hy1 & Hh1 & Hr & Hc1 & Hc2).
  pose proof (detectar_cruce_linea_cruzados s id y) as Hc3.
  cbv zeta in Hy1, Hh1, Hr, Hc1, Hc2, Hc3.
  rewrite ventana_drop in Hh1, Hr.
  set (todas := previas ++ [y]) in *.
  set (w := drop (length todas - 5) todas) in *.
  set (s1 := (detectar_cruce_linea s id y).1) in *.
  assert (Hlen : length todas = S (length previas))
    by (subst todas; rewrite length_app; cbn; lia).
  assert (F1 : (length w <? 2)%nat = (length todas <? 2)%nat).
  { subst w. rewrite length_drop.
    destruct (Nat.ltb_spec (length todas - (length todas - 5)) 2),
      (Nat.ltb_spec (length todas) 2); (done || lia). }
  assert (F2 : bool_decide (id ∈ ids_cruzados s) = c).
  { destruct c.
    - apply bool_decide_eq_true_2. by apply Hc.
    - apply bool_decide_eq_false_2. intros Hin. apply Hc in Hin. done. }
  assert (F3 : (2 ≤ length todas)%nat → c = false →
               zona_de_Q (np_mean (take 2 w)) yc = zona_anterior_spec todas yc).
  { intros Hl2 Hcf. unfold zona_anterior_spec.
    destruct (decide (length previas < 5)%nat) as [Hlt|Hge].
    - subst w. replace (length todas - 5)%nat with 0%nat by lia. done.
    - destruct (ventana_primeras previas y) as (v1 & v2 & Ht & H1 & H2);
        [lia|].
      fold todas in Ht. fold w in Ht. rewrite Ht.
      assert (Hsp : zona_anterior_spec todas yc
                    = zona_anterior_spec previas yc).
      { unfold zona_anterior_spec, todas. by rewrite take_app_le by lia. }
      fold (zona_anterior_spec todas yc). rewrite Hsp.
      apply zona_media; apply Hz; (done || lia). }
  rewrite F1, F2 in Hr.
  set (a := if (length todas <? 2)%nat then None
            else if c then None
            else if bool_decide
                      (zona_de_Z y yc = zona_anterior_spec todas yc)
                 then None
                 else movimiento_de (zona_anterior_spec todas yc)
                        (zona_de_Z y yc)).
  assert (Ha : (detectar_cruce_linea s id y).2 = Ret a).
  { rewrite Hr. subst a.
    destruct (Nat.ltb_spec (length todas) 2) as [?|Hl2]; [done|].
    destruct c; [done|]. by rewrite F3. }
  rewrite Ha. f_equal. rewrite Ha in Hc2, Hc3.
  apply IH; clear IH.
  - done.
  - by rewrite Hh1.
  - split.
    + intros [Hct|Hev]%orb_true_iff.
      * apply Hc1. by apply Hc.
      * apply bool_decide_eq_true in Hev as [m Hm]. rewrite Hm in Hc3.
        by destruct Hc3.
    + intros [Hin|[m Hm]]%Hc2; apply orb_true_iff.
      * left. by apply Hc.
      * right. apply bool_decide_eq_true_2. simplify_eq. eauto.
  - intros [Hcf Hev]%orb_false_iff Hl2 v Hv.
    apply bool_decide_eq_false in Hev.
    assert (Hnone : a = None) by (destruct a; [exfalso; eauto|done]).
    assert (Hy_z : zona_de_Z y yc = zona_anterior_spec todas yc).
    { subst a. revert Hnone.
      destruct (Nat.ltb_spec (length todas) 2) as [?|_]; [lia|].
      rewrite Hcf.
      destruct (bool_decide (zona_de_Z y yc = zona_anterior_spec todas yc))
        eqn:Hb; [intros _; by apply bool_decide_eq_true in Hb|].
      apply movimiento_de_None. }
    subst todas.
    destruct previas as [|p0 previas']; [cbn in Hl2; lia|].
    cbn [drop app] in Hv.
    apply elem_of_app in Hv as [Hv|Hv%list_elem_of_singleton].
    + destruct previas' as [|p1 previas'']; [by apply elem_of_nil in Hv|].
      transitivity (zona_anterior_spec (p0 :: p1 :: previas'') yc);
        [|done].
      apply Hz; [done|cbn; lia|done].
    + by subst v.
Qed.

(** The same, from the creation of the identity. *)
Lemma observaciones_primeras s id yc ys :
  y_cruce s = Some yc →
  historial_posicion s !! id = None →
  id ∉ ids_cruzados s →
  observaciones s id ys = observaciones_spec yc [] false ys.
Proof.
  intros Hy Hh Hc. apply observaciones_ventana; try done.
  - by rewrite Hh.
  - cbn. lia.
Qed.

(* ================================================================= *)
(** * Further properties of the code *)


(** ** More on the calibration *)

Lemma clics_cons s p ps :
  clics s (p :: ps) = clics (mouse_callback_calibracion s true p.1 p.2) ps.
Proof. reflexivity. Qed.

Lemma clics_llenos ps : ∀ s p q,
  punto1_calibracion s = Some p → punto2_calibracion s = Some q →
  clics s ps = s.
Proof.
  induction ps as [|r ps IH]; intros s p q H1 H2; [done|].
  rewrite clics_cons.
  assert (Hs : mouse_callback_calibracion s true r.1 r.2 = s).
  { unfold mouse_callback_calibracion. rewrite H1, H2.
    by destruct (_ && _). }
  rewrite Hs. by apply (IH s p q).
Qed.

(** X1.  The mouse callback changes nothing outside the calibration mode
    or for an event that is not a left click.  In calibration mode with no
    point marked, the first left click marks the upper point, the second
    the lower point, and every further click is ignored; nothing else of
    the object changes. *)
Theorem clics_marcan_dos_puntos s (p q : punto) (ps : list punto) :
  modo_calibracion s = true →
  punto1_calibracion s = None → punto2_calibracion s = None →
  (∀ s0 lb x y, modo_calibracion s0 = false ∨ lb = false →
                mouse_callback_calibracion s0 lb x y = s0) ∧
  punto1_calibracion (clics s [p]) = Some p ∧
  punto2_calibracion (clics s [p]) = None ∧
  clics s (p :: q :: ps)
  = set_calibracion (calibrado s) (altura_real_referencia_cm s)
      (altura_pixeles_referencia s) (factor_conversion s) true
      (Some p) (Some q) s.
Proof.
  intros Hm H1 H2. split; [|split; [|split]].
  - intros s0 lb x y [H| ->]; unfold mouse_callback_calibracion.
    + rewrite H, andb_false_r. reflexivity.
    + reflexivity.
  - destruct p. cbn. unfold mouse_callback_calibracion. by rewrite Hm, H1.
  - cbn. unfold mouse_callback_calibracion. by rewrite Hm, H1, H2.
  - rewrite !clics_cons.
    set (s1 := mouse_callback_calibracion s true p.1 p.2).
    assert (Hs1 : s1 = set_calibracion (calibrado s)
                         (altura_real_referencia_cm s)
                         (altura_pixeles_referencia s) (factor_conversion s)
                         true (Some p) None s).
    { subst s1. unfold mouse_callback_calibracion.
      rewrite Hm, H1, H2. cbn. by destruct p. }
    rewrite Hs1.
    set (s2 := mouse_callback_calibracion _ true q.1 q.2).
    assert (Hs2 : s2 = set_calibracion (calibrado s)
                         (altura_real_referencia_cm s)
                         (altura_pixeles_referencia s) (factor_conversion s)
                         true (Some p) (Some q) s).
    { subst s2. unfold mouse_callback_calibracion. cbn. by destruct q. }
    rewrite Hs2. by apply (clics_llenos ps _ p q).
Qed.

Lemma clics_marcan_dos_puntos_witness :
  clics (iniciar_calibracion init 210) [(100, 50); (100, 260); (7, 7)]
  = set_calibracion false (Some 210%Q) None None true
      (Some (100, 50)) (Some (100, 260)) (iniciar_calibracion init 210).
Proof.
  apply (clics_marcan_dos_puntos (iniciar_calibracion init 210)
           (100, 50) (100, 260) [(7, 7)]); reflexivity.
Defined.

(** *** Rounding respects the value of a rational *)

Lemma redondear_Qeq (x y : Q) : (x == y)%Q → redondear x = redondear y.
Proof.
  intros Heq. unfold redondear.
  assert (Hf : Qnum x `div` QDen x = Qnum y `div` QDen y).
  { pose proof (Qfloor_comp x y Heq) as Hf. by destruct x, y. }
  unfold Qeq in Heq.
  pose proof (Z.div_mod (Qnum x) (QDen x) ltac:(lia)) as Hx.
  pose proof (Z.div_mod (Qnum y) (QDen y) ltac:(lia)) as Hy.
  rewrite <- Hf in *.
  set (f := Qnum x `div` QDen x) in *.
  assert (Hc : (2 * (Qnum x `mod` QDen x) ?= QDen x)
               = (2 * (Qnum y `mod` QDen y) ?= QDen y)).
  { destruct (Z.compare_spec (2 * (Qnum x `mod` QDen x)) (QDen x));
      symmetry; [apply Z.compare_eq_iff|apply Z.compare_lt_iff
                |apply Z.compare_gt_iff]; nia. }
  by rewrite Hc.
Qed.





(** *** Rounding is monotone *)

Lemma redondear_mono (x y : Q) : (x <= y)%Q → redondear x ≤ redondear y.
Proof.
  intros Hle.
  destruct (Z_le_gt_dec (redondear x) (redondear y)) as [?|Hgt]; [done|].
  exfalso.
  pose proof (redondear_cerca x) as Hx. pose proof (redondear_cerca y) as Hy.
  apply Qabs_Qle_condition in Hx, Hy.
  assert (Hq : (inject_Z (redondear y) + 1 <= inject_Z (redondear x))%Q).
  { change 1%Q with (inject_Z 1). rewrite <- inject_Z_plus, <- Zle_Qle. lia. }
  assert (Heq : (x == y)%Q) by (apply Qle_antisym; lra).
  apply redondear_Qeq in Heq. lia.
Qed.

Lemma py_round1_mono (x y : Q) : (x <= y)%Q → (py_round1 x <= py_round1 y)%Q.
Proof.
  intros Hle. rewrite !py_round1_decimal.
  assert (H : (inject_Z (redondear (x * 10)) <= inject_Z (redondear (y * 10)))%Q).
  { rewrite <- Zle_Qle. apply redondear_mono. lra. }
  lra.
Qed.

Lemma Qmult_inject_mono (h1 h2 : Z) (f : Q) :
  (0 <= f)%Q → h1 ≤ h2 → (inject_Z h1 * f <= inject_Z h2 * f)%Q.
Proof.
  intros Hf Hh. apply Qmult_le_compat_r; [|done]. by rewrite <- Zle_Qle.
Qed.

(** X3.  With a factor that is not negative, the estimated height grows
    with the pixel height: a higher box never gets a smaller estimate,
    and a box of no height is estimated at 0. *)
Theorem estimar_altura_real_creciente s (factor : Q) (h1 h2 : Z) :
  calibrado s = true → factor_conversion s = Some factor →
  (0 <= factor)%Q → h1 ≤ h2 →
  ∃ e1 e2, estimar_altura_real s h1 = Some e1 ∧
           estimar_altura_real s h2 = Some e2 ∧ (e1 <= e2)%Q ∧
           estimar_altura_real s 0 = Some 0%Q.
Proof.
  intros Hc Hf Hpos Hh. unfold estimar_altura_real. rewrite Hc, Hf. cbn.
  eexists _, _. split; [done|]. split; [done|]. split.
  - by apply py_round1_mono, Qmult_inject_mono.
  - reflexivity.
Qed.

Lemma estimar_altura_real_creciente_witness :
  ∃ e1 e2, estimar_altura_real calibrado_tercio 100 = Some e1 ∧
           estimar_altura_real calibrado_tercio 101 = Some e2 ∧
           (e1 <= e2)%Q ∧
           estimar_altura_real calibrado_tercio 0 = Some 0%Q.
Proof.
  apply (estimar_altura_real_creciente calibrado_tercio (1 # 3) 100 101);
    [reflexivity|reflexivity|discriminate|lia].
Defined.

(** X4.  With a factor that is not negative, a higher box never falls in
    a lower height band, whatever the widths of the two boxes: the bands
    are "Niño/a", then "Adolescente", then the adults. *)
Theorem clasificar_persona_creciente s (factor : Q) (h1 h2 w1 w2 : Z) :
  calibrado s = true → factor_conversion s = Some factor →
  (0 <= factor)%Q → h1 ≤ h2 →
  banda (clasificar_persona s h1 w1).1.1
  ≤ banda (clasificar_persona s h2 w2).1.1.
Proof.
  intros Hc Hf Hpos Hh. unfold clasificar_persona, estimar_altura_real.
  rewrite Hc, Hf. cbn [negb].
  pose proof (py_round1_mono _ _ (Qmult_inject_mono h1 h2 factor Hpos Hh))
    as Hm.
  set (e1 := py_round1 (inject_Z h1 * factor)) in *.
  set (e2 := py_round1 (inject_Z h2 * factor)) in *.
  destruct (Qltb e1 110) eqn:H1; destruct (Qltb e2 110) eqn:H2;
    destruct (Qltb e1 150) eqn:H3; destruct (Qltb e2 150) eqn:H4;
    rewrite ?Qltb_lt, ?Qltb_ge in *; try lra;
    repeat (destruct (Qltb _ _)); cbn; lia.
Qed.

Lemma clasificar_persona_creciente_witness :
  banda (clasificar_persona calibrado_tercio 400 100).1.1
  ≤ banda (clasificar_persona calibrado_tercio 460 300).1.1.
Proof.
  apply (clasificar_persona_creciente calibrado_tercio (1 # 3));
    [reflexivity|reflexivity|discriminate|lia].
Defined.

(** *** Positive references *)

Lemma llamar_calibracion_positiva s c :
  referencias_positivas [c] = true →
  calibracion_positiva s → calibracion_positiva (llamar s c).1.
Proof.
  intros Hc (Hr & Hf & Hok). unfold calibracion_positiva.
  destruct c as [cm|lb x y| | |ds|id y|fr]; cbn [llamar fst].
  - cbn in Hc. rewrite andb_true_r in Hc. apply Qltb_lt in Hc.
    split; [|split]; [|done|done]. intros r [= <-]. done.
  - unfold mouse_callback_calibracion. by repeat case_match.
  - unfold confirmar_calibracion, calibracion_ok in *.
    destruct (punto1_calibracion s) as [p1|]; [|done].
    destruct (punto2_calibracion s) as [p2|]; [|done].
    cbn. destruct (altura_real_referencia_cm s) as [real|] eqn:Hreal;
      [|done].
    destruct (Z.eqb_spec (Z.abs (p2.2 - p1.2)) 0) as [?|Hpx]; [done|].
    cbn. split; [done|]. split; [|eauto].
    intros f [= <-]. rewrite Qred_correct.
    assert (Hq0 : (0 < real)%Q) by auto.
    apply Qlt_shift_div_l; [|lra].
    change 0%Q with (inject_Z 0). rewrite <- Zlt_Qlt. lia.
  - done.
  - pose proof (trackear_personas_resto s ds) as H.
    destruct (trackear_personas s ds) as [s' p]; cbn [fst] in *.
    unfold resto_de, calibracion_ok in *. simplify_eq.
    repeat match goal with H : _ s' = _ s |- _ => rewrite H end. done.
  - pose proof (detectar_cruce_linea_resto s id y) as H.
    destruct (detectar_cruce_linea s id y) as [s' r]; cbn [fst] in *.
    unfold resto_de, calibracion_ok in *. simplify_eq.
    repeat match goal with H : _ s' = _ s |- _ => rewrite H end. done.
  - pose proof (detectar_y_trackear_resto s fr) as [_ H].
    destruct (detectar_y_trackear s fr) as [s' r]; cbn [fst] in *.
    unfold resto_de, calibracion_ok in *. cbn [snd] in H. simplify_eq.
    repeat match goal with H : _ s' = _ s |- _ => rewrite H end. done.
Qed.

Lemma llamar_todas_calibracion_positiva cs : ∀ s,
  referencias_positivas cs = true →
  calibracion_positiva s → calibracion_positiva (llamar_todas s cs).1.
Proof.
  induction cs as [|c cs IH]; intros s Hcs Hs; [done|].
  rewrite llamar_todas_cons; cbn [fst].
  unfold referencias_positivas in Hcs. cbn [forallb] in Hcs.
  apply andb_true_iff in Hcs as [Hc Hcs].
  apply IH; [done|]. apply llamar_calibracion_positiva; [|done].
  unfold referencias_positivas. cbn [forallb]. by rewrite Hc.
Qed.

(** X5.  Along any sequence of method calls on a fresh object whose
    calibrations are started with positive reference heights, a set
    calibration flag comes with a stored factor that is strictly
    positive, so that every estimate is a number. *)
Theorem factor_conversion_positivo (cs : list llamada) :
  referencias_positivas cs = true →
  let s := (llamar_todas init cs).1 in
  calibrado s = true →
  ∃ factor, factor_conversion s = Some factor ∧ (0 < factor)%Q ∧
            ∀ h, is_Some (estimar_altura_real s h).
Proof.
  intros Hcs s Hc.
  destruct (llamar_todas_calibracion_positiva cs init Hcs) as (_ & Hf & Hok).
  { split; [|split]; done. }
  fold s in Hf, Hok. destruct (Hok Hc) as [f Hf'].
  exists f. split; [done|]. split; [auto|].
  intros h. unfold estimar_altura_real. rewrite Hc, Hf'. eauto.
Qed.

Lemma factor_conversion_positivo_witness :
  let cs := [Iniciar 210; Raton true 100 50; Raton true 100 260; Confirmar;
             Procesar frame_una_persona; Iniciar 180] in
  ∃ factor, factor_conversion (llamar_todas init cs).1 = Some factor ∧
            (0 < factor)%Q ∧
            ∀ h, is_Some (estimar_altura_real (llamar_todas init cs).1 h).
Proof.
  intros cs. apply (factor_conversion_positivo cs); by vm_compute.
Defined.


(** ** More on the tracker *)

Lemma dict_set_nueva {A} (d : list (Z * A)) k v :
  k ∉ claves d → dict_set d k v = d ++ [(k, v)].
Proof.
  unfold claves. induction d as [|[k' v'] d IH]; [done|].
  rewrite fmap_cons, not_elem_of_cons. cbn [fst dict_set]. intros [Hne Hni].
  rewrite decide_False by done. by rewrite IH.
Qed.

(** With the previous identifiers below [n], every detection appends one
    record to [personas_actual]. *)
Lemma bucle_registros ds : ∀ (s : ControlAforoCruceLinea) n actual usados,
  (∀ k, k ∈ claves (personas_trackeadas s) → k < n) →
  (∀ k, k ∈ usados → k ∈ claves (personas_trackeadas s)) →
  (∀ k, k ∈ claves actual →
        k ∈ usados ∨ (k < n ∧ k ∉ claves (personas_trackeadas s))) →
  (foldl paso_deteccion (set_siguiente_id n s, actual, usados) ds).1.2.*2
  = actual.*2 ++ (info_de s <$> ds).
Proof.
  induction ds as [|b ds IH]; intros s n actual usados Hp Hu Ha.
  { cbn. by rewrite app_nil_r. }
  rewrite foldl_cons. unfold paso_deteccion at 2.
  change (personas_trackeadas (set_siguiente_id n s))
    with (personas_trackeadas s).
  change (info_de (set_siguiente_id n s) b) with (info_de s b).
  change (siguiente_id (set_siguiente_id n s)) with n.
  pose proof (buscar_mejor_inicial s usados (obtener_centro_bbox b)) as Hb.
  cbv zeta in Hb.
  destruct (buscar_mejor _ _ _ _ _).1 as [id|].
  - destruct Hb as (info & [Hin Hni] & _).
    assert (Hid : id ∈ claves (personas_trackeadas s)).
    { unfold claves. apply list_elem_of_fmap. by exists (id, info). }
    assert (Hfresh : id ∉ claves actual).
    { intros [?|[_ ?]]%Ha; done. }
    rewrite dict_set_nueva by done. rewrite IH.
    + rewrite fmap_app, <- app_assoc. done.
    + done.
    + intros k [?| ->%elem_of_singleton]%elem_of_union; auto.
    + intros k. unfold claves. rewrite fmap_app, elem_of_app.
      intros [Hk|Hk].
      * destruct (Ha k Hk) as [?|?]; [left|by right].
        apply elem_of_union. by left.
      * cbn in Hk. apply list_elem_of_singleton in Hk as ->.
        left. apply elem_of_union. right. by apply elem_of_singleton.
  - assert (Hfresh : n ∉ claves actual).
    { intros [Hk|[? _]]%Ha; [|lia]. apply Hu, Hp in Hk. lia. }
    rewrite dict_set_nueva by done.
    change (set_siguiente_id (n + 1) (set_siguiente_id n s))
      with (set_siguiente_id (n + 1) s).
    rewrite IH.
    + rewrite fmap_app, <- app_assoc. done.
    + intros k Hk. apply Hp in Hk. lia.
    + done.
    + intros k. unfold claves. rewrite fmap_app, elem_of_app.
      intros [Hk|Hk].
      * destruct (Ha k Hk) as [?|[? ?]]; [by left|right]. split; [lia|done].
      * cbn in Hk. apply list_elem_of_singleton in Hk as ->.
        right. split; [lia|]. intros Hk. apply Hp in Hk. lia.
Qed.

(** X6.  Under the tracking invariant an update returns one record per
    detection, in the order of the detections and with their bounding
    boxes, under pairwise distinct identifiers: no detection is lost and
    no two detections share an identity. *)
Theorem trackear_personas_un_registro s (ds : list bbox) :
  tracking_ok s →
  (trackear_personas s ds).2.*2 = info_de s <$> ds ∧
  i_bbox <$> (trackear_personas s ds).2.*2 = ds ∧
  length (trackear_personas s ds).2 = length ds ∧
  NoDup (claves (trackear_personas s ds).2).
Proof.
  intros (_ & Hp & _).
  destruct (trackear_personas_efecto s ds) as (Hr & _).
  destruct (trackear_personas_claves s ds) as (_ & _ & _ & Hnd).
  assert (H : (trackear_personas s ds).2.*2 = info_de s <$> ds).
  { rewrite Hr. rewrite <- (set_siguiente_id_id s) at 1.
    rewrite bucle_registros; [done|done|..].
    - intros k Hk. by apply not_elem_of_empty in Hk.
    - intros k Hk. by apply elem_of_nil in Hk. }
  split; [done|]. split; [|split; [|done]].
  - rewrite H, <- list_fmap_compose.
    rewrite <- (list_fmap_id ds) at 2. apply list_fmap_ext.
    intros i b _. unfold info_de. cbn. by destruct (clasificar_persona _ _ _) as [[? ?] ?].
  - rewrite <- (length_fmap snd), H. apply length_fmap.
Qed.

Lemma trackear_personas_un_registro_witness :
  let ds : list bbox := [(0, 0, 10, 10); (-5, -5, 5, 5); (1, 0, 11, 10)] in
  (trackear_personas dos_personas ds).2.*2 = info_de dos_personas <$> ds ∧
  i_bbox <$> (trackear_personas dos_personas ds).2.*2 = ds ∧
  length (trackear_personas dos_personas ds).2 = length ds ∧
  NoDup (claves (trackear_personas dos_personas ds).2).
Proof.
  intros ds. apply (trackear_personas_un_registro dos_personas ds).
  apply trackear_personas_ok, tracking_ok_init.
Defined.

(** The search over a concatenation resumes where the first part stops. *)
Lemma buscar_mejor_app centro usados l1 : ∀ l2 mejor_id mejor_dist,
  buscar_mejor centro usados (l1 ++ l2) mejor_id mejor_dist
  = buscar_mejor centro usados l2
      (buscar_mejor centro usados l1 mejor_id mejor_dist).1
      (buscar_mejor centro usados l1 mejor_id mejor_dist).2.
Proof.
  induction l1 as [|[id info] l1 IH]; intros l2 mejor_id mejor_dist; [done|].
  cbn [app buscar_mejor]. by repeat case_match.
Qed.

(** An identity answered by the search is the initial one or a key of the
    list. *)
Lemma buscar_mejor_clave centro usados l mejor_id mejor_dist id :
  (buscar_mejor centro usados l mejor_id mejor_dist).1 = Some id →
  id ∉ claves l →
  buscar_mejor centro usados l mejor_id mejor_dist = (mejor_id, mejor_dist).
Proof.
  intros Hid Hni.
  destruct (buscar_mejor_spec centro usados l mejor_id mejor_dist)
    as (_ & _ & [?|(id' & info' & Hid' & Hin & _)]); [done|].
  exfalso. apply Hni. rewrite Hid in Hid'. injection Hid' as <-.
  unfold claves. apply list_elem_of_fmap. by exists (id, info').
Qed.

(** X7.  Ties go to the first identity in the order of the dictionary:
    the identity a detection is bound to is strictly closer than every
    unmatched identity stored before it, and at least as close as those
    stored after it. *)
Theorem buscar_mejor_primera s usados (centro : punto) pre post id info :
  personas_trackeadas s = pre ++ (id, info) :: post →
  NoDup (claves (personas_trackeadas s)) →
  (buscar_mejor centro usados (personas_trackeadas s) None
     (distancia_de_Z distancia_maxima_tracking)).1 = Some id →
  let dist i := calcular_distancia_euclidiana centro (i_centro i) in
  (id ∉ usados) ∧
  dist_lt (dist info) (distancia_de_Z distancia_maxima_tracking) ∧
  (∀ x, x ∈ pre → x.1 ∉ usados → dist_lt (dist info) (dist x.2)) ∧
  (∀ x, x ∈ post → x.1 ∉ usados → dist_le (dist info) (dist x.2)).
Proof.
  intros Hl Hnd Hr dist. rewrite Hl in Hr, Hnd.
  unfold claves in Hnd. rewrite fmap_app, fmap_cons in Hnd. cbn [fst] in Hnd.
  apply NoDup_app in Hnd as (_ & Hpre & Hpost).
  apply NoDup_cons in Hpost as [Hpost _].
  assert (Hnpre : id ∉ claves pre).
  { intros Hin. apply (Hpre id Hin). by left. }
  rewrite buscar_mejor_app in Hr.
  set (umbral := distancia_de_Z distancia_maxima_tracking) in *.
  destruct (buscar_mejor_spec centro usados pre None umbral)
    as (Hmin1 & Hle1 & Hor1).
  set (r1 := buscar_mejor centro usados pre None umbral) in *.
  assert (Hr1 : r1.1 ≠ Some id).
  { destruct Hor1 as [->|(id' & info' & Hid' & Hin & _)]; [done|].
    rewrite Hid'. intros [= ->]. apply Hnpre. unfold claves.
    apply list_elem_of_fmap. by exists (id, info'). }
  cbn [buscar_mejor] in Hr.
  destruct (decide (id ∈ usados)) as [Hus|Hus].
  { apply buscar_mejor_clave in Hr as Heq; [|done].
    rewrite Heq in Hr. done. }
  destruct (dist_ltb (calcular_distancia_euclidiana centro (i_centro info))
              r1.2) eqn:Hlt.
  2:{ apply buscar_mejor_clave in Hr as Heq; [|done].
      rewrite Heq in Hr. done. }
  apply dist_ltb_lt in Hlt.
  destruct (buscar_mejor_spec centro usados post (Some id) (dist info))
    as (Hmin2 & Hle2 & _).
  apply buscar_mejor_clave in Hr as Heq; [|done].
  fold (dist info) in Heq, Hlt. rewrite Heq in Hmin2. cbn [snd] in Hmin2.
  unfold dist_lt, dist_le in *.
  split; [done|]. split; [lia|]. split.
  - intros [k i] Hin Hk. specialize (Hmin1 k i Hin Hk). cbn. subst dist.
    cbn in *. lia.
  - intros [k i] Hin Hk. exact (Hmin2 k i Hin Hk).
Qed.

Lemma buscar_mejor_primera_witness :
  let s := (trackear_personas init [(-15, -5, 5, 5); (-5, -5, 15, 5)]).1 in
  let dist i := calcular_distancia_euclidiana (0, 0) (i_centro i) in
  (0 ∉ (∅ : gset Z)) ∧
  dist_lt (dist (info_de init (-15, -5, 5, 5)))
    (distancia_de_Z distancia_maxima_tracking) ∧
  (∀ x, x ∈ [] → x.1 ∉ (∅ : gset Z) →
        dist_lt (dist (info_de init (-15, -5, 5, 5))) (dist x.2)) ∧
  (∀ x, x ∈ [(1, info_de init (-5, -5, 15, 5))] → x.1 ∉ (∅ : gset Z) →
        dist_le (dist (info_de init (-15, -5, 5, 5))) (dist x.2)).
Proof.
  intros s.
  apply (buscar_mejor_primera s ∅ (0, 0) []
           [(1, info_de init (-5, -5, 15, 5))] 0
           (info_de init (-15, -5, 5, 5))).
  - reflexivity.
  - apply (trackear_personas_ok init _ tracking_ok_init).
  - reflexivity.
Defined.


(** ** An unchanged scene, an empty scene *)

Lemma buscar_mejor_usados centro usados l : ∀ mejor_id mejor_dist,
  (∀ k, k ∈ claves l → k ∈ usados) →
  buscar_mejor centro usados l mejor_id mejor_dist = (mejor_id, mejor_dist).
Proof.
  induction l as [|[id info] l IH]; intros mejor_id mejor_dist Hl; [done|].
  cbn [buscar_mejor]. rewrite decide_True.
  - apply IH. intros k Hk. apply Hl. unfold claves in *. rewrite fmap_cons.
    apply elem_of_cons. by right.
  - apply Hl. unfold claves. rewrite fmap_cons. apply elem_of_cons. by left.
Qed.

Lemma radicando_no_negativo p q :
  0 ≤ radicando (calcular_distancia_euclidiana p q).
Proof. unfold calcular_distancia_euclidiana. cbn. nia. Qed.

(** No candidate beats a distance of zero. *)
Lemma buscar_mejor_cero centro usados l : ∀ id,
  buscar_mejor centro usados l (Some id) (Raiz 0) = (Some id, Raiz 0).
Proof.
  induction l as [|[id' info] l IH]; intros id; [done|].
  cbn [buscar_mejor]. destruct (decide (id' ∈ usados)); [apply IH|].
  assert (H : dist_ltb (calcular_distancia_euclidiana centro (i_centro info))
                (Raiz 0) = false).
  { apply Z.ltb_ge. apply radicando_no_negativo. }
  rewrite H. apply IH.
Qed.

Lemma distancia_cero p : calcular_distancia_euclidiana p p = Raiz 0.
Proof.
  unfold calcular_distancia_euclidiana. by rewrite !Z.sub_diag.
Qed.

(** The loop over the boxes of the tracked persons, taken in the order of
    the dictionary, binds each box to its own identity. *)
Lemma bucle_escena (s : ControlAforoCruceLinea) n todo :
  ∀ hechas actual usados,
  personas_trackeadas s = hechas ++ todo →
  NoDup (claves (personas_trackeadas s)) →
  (∀ x, x ∈ personas_trackeadas s →
        i_centro x.2 = obtener_centro_bbox (i_bbox x.2)) →
  (∀ k, k ∈ usados ↔ k ∈ claves hechas) →
  claves actual = claves hechas →
  let st := foldl paso_deteccion (set_siguiente_id n s, actual, usados)
              (bboxes_de todo) in
  st.1.1 = set_siguiente_id n s ∧
  claves st.1.2 = claves (personas_trackeadas s).
Proof.
  induction todo as [|[id info] todo IH];
    intros hechas actual usados Hl Hnd Hc Hu Ha.
  { rewrite app_nil_r in Hl. split; [reflexivity|].
    change (claves actual = claves (personas_trackeadas s)).
    by rewrite Ha, Hl. }
  cbn [bboxes_de fmap list_fmap]. fold (bboxes_de todo).
  cbn [snd].
  set (centro := obtener_centro_bbox (i_bbox info)).
  assert (Hnd' := Hnd). rewrite Hl in Hnd'.
  unfold claves in Hnd'. rewrite fmap_app, fmap_cons in Hnd'.
  cbn [fst] in Hnd'.
  apply NoDup_app in Hnd' as (_ & Hpre & _).
  assert (Hni : id ∉ usados).
  { intros Hin%Hu. apply (Hpre id Hin). by left. }
  assert (Hcen : i_centro info = centro).
  { apply (Hc (id, info)). rewrite Hl. apply elem_of_app. right. by left. }
  assert (Hb : (buscar_mejor centro usados (personas_trackeadas s) None
                  (distancia_de_Z distancia_maxima_tracking)).1 = Some id).
  { rewrite Hl, buscar_mejor_app.
    rewrite (buscar_mejor_usados centro usados hechas)
      by (intros k Hk; by apply Hu).
    cbn [fst snd buscar_mejor]. rewrite decide_False by done.
    rewrite Hcen, distancia_cero. cbn [dist_ltb radicando].
    change (0 <? radicando (distancia_de_Z distancia_maxima_tracking))
      with true.
    cbn iota. by rewrite buscar_mejor_cero. }
  assert (Hpaso : paso_deteccion (set_siguiente_id n s, actual, usados)
                    (i_bbox info)
                  = (set_siguiente_id n s,
                     dict_set actual id (info_de s (i_bbox info)),
                     usados ∪ {[id]})).
  { unfold paso_deteccion.
    change (personas_trackeadas (set_siguiente_id n s))
      with (personas_trackeadas s).
    fold centro. by rewrite Hb. }
  assert (Hfresh : id ∉ claves actual).
  { rewrite Ha. intros Hin. apply (Hpre id Hin). by left. }
  cbv zeta. rewrite foldl_cons, Hpaso.
  apply (IH (hechas ++ [(id, info)])).
  - by rewrite <- app_assoc.
  - done.
  - done.
  - intros k. unfold claves. rewrite elem_of_union, elem_of_singleton, Hu,
      fmap_app, elem_of_app. cbn. rewrite list_elem_of_singleton. done.
  - rewrite claves_dict_set, decide_False by done.
    rewrite Ha. unfold claves. by rewrite fmap_app.
Qed.

(** The records of a returned dictionary carry the centre of their box. *)
Lemma trackear_personas_centros s ds x :
  x ∈ personas_trackeadas (trackear_personas s ds).1 →
  i_centro x.2 = obtener_centro_bbox (i_bbox x.2).
Proof.
  destruct (trackear_personas_efecto s ds) as (Hr & Hp & _).
  cbv zeta in Hp. rewrite Hp, <- Hr. intros Hx.
  destruct (trackear_personas_infos s ds x Hx) as (b & _ & ->).
  unfold info_de. by destruct (clasificar_persona _ _ _) as [[? ?] ?].
Qed.

(** Under the tracking invariant the boxes of the returned dictionary are
    the detections. *)
Lemma trackear_personas_bboxes s ds :
  tracking_ok s → bboxes_de (trackear_personas s ds).2 = ds.
Proof.
  intros (_ & Hp & _).
  destruct (trackear_personas_efecto s ds) as (Hr & _).
  assert (H : (trackear_personas s ds).2.*2 = info_de s <$> ds).
  { rewrite Hr. rewrite <- (set_siguiente_id_id s) at 1.
    rewrite bucle_registros; [done|done|..].
    - intros k Hk. by apply not_elem_of_empty in Hk.
    - intros k Hk. by apply elem_of_nil in Hk. }
  unfold bboxes_de.
  transitivity (i_bbox <$> (trackear_personas s ds).2.*2);
    [by rewrite <- list_fmap_compose|].
  rewrite H, <- list_fmap_compose.
  rewrite <- (list_fmap_id ds) at 2. apply list_fmap_ext.
  intros i b _. unfold info_de. cbn.
  by destruct (clasificar_persona _ _ _) as [[? ?] ?].
Qed.

(** X8.  When the frame that follows an update shows the tracked persons
    at the same boxes, listed in the order of the dictionary, every
    person keeps its identifier: the same keys are returned in the same
    order, no identifier is allocated, and every history and crossed flag
    is left as it was. *)
Theorem trackear_personas_escena_fija s (ds : list bbox) :
  let s1 := (trackear_personas s ds).1 in
  let r := trackear_personas s1 (bboxes_de (personas_trackeadas s1)) in
  claves r.2 = claves (personas_trackeadas s1) ∧
  siguiente_id r.1 = siguiente_id s1 ∧
  historial_posicion r.1 = historial_posicion s1 ∧
  ids_cruzados r.1 = ids_cruzados s1 ∧
  (tracking_ok s → bboxes_de (personas_trackeadas s1) = ds).
Proof.
  intros s1 r.
  assert (Hnd : NoDup (claves (personas_trackeadas s1))).
  { destruct (trackear_personas_efecto s ds) as (Hr & Hp & _).
    cbv zeta in Hp. subst s1. rewrite Hp, <- Hr.
    apply trackear_personas_claves. }
  destruct (bucle_escena s1 (siguiente_id s1) (personas_trackeadas s1)
              [] [] ∅ eq_refl Hnd) as [Hobj Hkeys].
  { intros x. apply trackear_personas_centros. }
  { intros k. split; intros Hk; [by apply not_elem_of_empty in Hk|].
    by apply elem_of_nil in Hk. }
  { done. }
  rewrite set_siguiente_id_id in Hobj, Hkeys.
  subst r. unfold trackear_personas at 1 2 3 4.
  destruct (foldl paso_deteccion (s1, [], ∅) _) as [[s2 actual] usados].
  cbn [fst snd] in Hobj, Hkeys. subst s2.
  assert (Hf : (list_to_set (claves (personas_trackeadas s1))
                ∖ list_to_set (claves actual) : gset Z) = ∅).
  { rewrite Hkeys. apply set_eq. intros k.
    rewrite elem_of_difference. split; [tauto|].
    intros Hk. by apply not_elem_of_empty in Hk. }
  rewrite Hf, elements_empty. cbn.
  split; [done|]. split; [done|]. split; [done|]. split; [done|].
  intros Hok. subst s1.
  destruct (trackear_personas_efecto s ds) as (Hr & Hp & _).
  cbv zeta in Hp. rewrite Hp, <- Hr. by apply trackear_personas_bboxes.
Qed.


(** ** Frames without detection *)

Lemma detecciones_de_sin_confianza f : sin_confianza f → detecciones_de f = [].
Proof.
  unfold sin_confianza, detecciones_de. intros H.
  induction (resultados f) as [|boxes r IH]; [done|].
  cbn [flat_map]. rewrite IH.
  2:{ intros bs b Hbs. apply H. apply elem_of_cons. by right. }
  rewrite app_nil_r.
  assert (Hb : ∀ box, box ∈ boxes → (conf box <= 1 # 2)%Q).
  { intros box. apply H. apply elem_of_cons. by left. }
  clear IH H. induction boxes as [|box bs IHb]; [done|].
  cbn [flat_map]. rewrite IHb.
  2:{ intros b Hbin. apply Hb. apply elem_of_cons. by right. }
  rewrite app_nil_r. destruct (xyxy box) as [[[x1 y1] x2] y2].
  assert (Hc : Qltb (1 # 2) (conf box) = false).
  { apply Qltb_ge. apply Hb. apply elem_of_cons. by left. }
  by rewrite Hc.
Qed.

Lemma trackear_personas_nil s :
  let s' := (trackear_personas s []).1 in
  (trackear_personas s []).2 = [] ∧
  personas_trackeadas s' = [] ∧
  siguiente_id s' = siguiente_id s ∧
  (∀ k, k ∈ claves (personas_trackeadas s) →
        historial_posicion s' !! k = None ∧ k ∉ ids_cruzados s') ∧
  (∀ k, k ∉ claves (personas_trackeadas s) →
        historial_posicion s' !! k = historial_posicion s !! k ∧
        (k ∈ ids_cruzados s' ↔ k ∈ ids_cruzados s)).
Proof.
  destruct (trackear_personas_efecto s []) as (Hr & Hp & Hn & Hf & Hnf).
  cbv zeta in *. cbn [foldl fst snd] in *.
  split; [done|]. split; [done|]. split; [done|]. split.
  - intros k Hk. apply Hf. split; [done|]. apply not_elem_of_nil.
  - intros k Hk. apply Hnf. by intros [? _].
Qed.

(** X9.  A frame in which no box has a confidence above 0.5 (a confidence
    of exactly 0.5 does not count) is an empty frame: it returns no
    person and no movement, never raises, retires every tracked identity
    with its history and its crossed flag, and allocates no identifier.
    The same holds of [trackear_personas] on an empty list. *)
Theorem frame_sin_detecciones s (f : frame) :
  sin_confianza f →
  let s' := (detectar_y_trackear s f).1 in
  (detectar_y_trackear s f).2 = Ret ([], []) ∧
  personas_trackeadas s' = [] ∧
  siguiente_id s' = siguiente_id s ∧
  (∀ k, k ∈ claves (personas_trackeadas s) →
        historial_posicion s' !! k = None ∧ k ∉ ids_cruzados s') ∧
  (trackear_personas s []).2 = [] ∧
  personas_trackeadas (trackear_personas s []).1 = [].
Proof.
  intros Hf s'. subst s'. unfold detectar_y_trackear.
  rewrite (detecciones_de_sin_confianza f Hf).
  set (s1 := match y_cruce s with None => _ | Some _ => s end).
  assert (H1 : personas_trackeadas s1 = personas_trackeadas s ∧
               siguiente_id s1 = siguiente_id s)
    by (subst s1; by destruct (y_cruce s)).
  destruct H1 as [Hp1 Hn1].
  destruct (trackear_personas_nil s1) as (Hr & Hp & Hn & Hret & _).
  destruct (trackear_personas_nil s) as (Hr0 & Hp0 & _).
  cbv zeta in *. rewrite Hp1 in Hret.
  destruct (trackear_personas s1 []) as [s2 personas]; cbn [fst snd] in *.
  subst personas.
  destruct (modo_calibracion s2); cbn [cruces fst snd];
    (split; [done|]); (split; [done|]); (split; [congruence|]);
    (split; [done|]); done.
Qed.

Lemma frame_sin_detecciones_witness :
  let s := (detectar_y_trackear linea_300 frame_una_persona).1 in
  let s' := (detectar_y_trackear s frame_dudoso).1 in
  (detectar_y_trackear s frame_dudoso).2 = Ret ([], []) ∧
  personas_trackeadas s' = [] ∧
  siguiente_id s' = siguiente_id s ∧
  (∀ k, k ∈ claves (personas_trackeadas s) →
        historial_posicion s' !! k = None ∧ k ∉ ids_cruzados s') ∧
  (trackear_personas s []).2 = [] ∧
  personas_trackeadas (trackear_personas s []).1 = [].
Proof.
  intros s.
  apply (frame_sin_detecciones s frame_dudoso).
  intros boxes box Hb Hbox.
  apply list_elem_of_singleton in Hb as ->.
  apply list_elem_of_singleton in Hbox as ->. cbn. apply Qle_refl.
Defined.

(** X10.  A tracker update leaves the history and the crossed flag of
    every identity it returns, and of every identifier that was not
    tracked; it never writes the line, the calibration or the counters. *)
Theorem trackear_personas_conserva s (ds : list bbox) (k : Z) :
  k ∈ claves (trackear_personas s ds).2 ∨
  k ∉ claves (personas_trackeadas s) →
  let s' := (trackear_personas s ds).1 in
  historial_posicion s' !! k = historial_posicion s !! k ∧
  (k ∈ ids_cruzados s' ↔ k ∈ ids_cruzados s) ∧
  resto_de s' = resto_de s.
Proof.
  intros Hk s'. subst s'.
  destruct (trackear_personas_efecto s ds) as (Hr & _ & _ & _ & Hnf).
  cbv zeta in Hnf. destruct (Hnf k) as [Hh Hc].
  - rewrite <- Hr. intros [? ?]. destruct Hk; done.
  - split; [done|]. split; [done|]. apply trackear_personas_resto.
Qed.

Lemma trackear_personas_conserva_witness :
  let s := (correr linea_300 vida_oscilante).1 in
  let s' := (trackear_personas s [(0, 40, 100, 320)]).1 in
  historial_posicion s' !! 0 = historial_posicion s !! 0 ∧
  (0 ∈ ids_cruzados s' ↔ 0 ∈ ids_cruzados s) ∧
  resto_de s' = resto_de s.
Proof.
  intros s. apply (trackear_personas_conserva s [(0, 40, 100, 320)] 0).
  left. apply (bool_decide_unpack _). by vm_compute.
Defined.


(** ** More on the crossing detector *)

Lemma ventana_length (h : list Z) (y : Z) :
  (length h ≤ max_historial)%nat →
  (1 ≤ length (ventana (h ++ [y])) ≤ max_historial)%nat.
Proof.
  unfold ventana, max_historial. rewrite length_app. cbn [length].
  intros Hh. case_decide; rewrite ?length_drop, ?length_app; cbn [length]; lia.
Qed.

Lemma ventana_length_ge (h : list Z) (y : Z) :
  (1 ≤ length h)%nat → (2 ≤ length (ventana (h ++ [y])))%nat.
Proof.
  unfold ventana, max_historial. intros Hh.
  destruct (decide (5 < length (h ++ [y]))%nat) as [H|H];
    rewrite ?length_drop; rewrite length_app in *; cbn [length] in *; lia.
Qed.

Lemma detectar_cruce_linea_historial_ok s id y :
  historial_ok s → historial_ok (detectar_cruce_linea s id y).1.
Proof.
  intros Hs k h.
  destruct (detectar_cruce_linea_caso s id y) as (-> & _).
  destruct (decide (id = k)) as [->|Hne].
  - rewrite lookup_insert_eq. intros [= <-]. apply ventana_length.
    destruct (historial_posicion s !! k) as [h0|] eqn:Hk; cbn; [|lia].
    apply (Hs k h0 Hk).
  - rewrite lookup_insert_ne by done. apply Hs.
Qed.

Lemma trackear_personas_historial_ok s ds :
  historial_ok s → historial_ok (trackear_personas s ds).1.
Proof.
  intros Hs k h Hk.
  destruct (trackear_personas_efecto s ds) as (_ & _ & _ & Hf & Hnf).
  cbv zeta in *.
  set (fuera := k ∈ claves (personas_trackeadas s) ∧
                k ∉ claves (foldl paso_deteccion (s, [], ∅) ds).1.2).
  assert (Hdec : fuera ∨ ¬ fuera).
  { unfold fuera.
    destruct (decide (k ∈ claves (personas_trackeadas s)));
      destruct (decide (k ∈ claves (foldl paso_deteccion (s, [], ∅) ds).1.2));
      tauto. }
  destruct Hdec as [H|H].
  - destruct (Hf k H) as [Hn _]. congruence.
  - destruct (Hnf k H) as [Heq _]. rewrite Heq in Hk. by apply (Hs k).
Qed.

Lemma cruces_historial_ok personas : ∀ s movs,
  historial_ok s → historial_ok (cruces s personas movs).1.
Proof.
  induction personas as [|[idp info] r IH]; intros s movs Hs; [done|].
  cbn [cruces].
  pose proof (detectar_cruce_linea_historial_ok s idp (i_pies info).2 Hs).
  destruct (detectar_cruce_linea s idp _) as [s1 [[m|]|e]];
    cbn [fst] in *; auto.
Qed.

Lemma detectar_y_trackear_historial_ok s f :
  historial_ok s → historial_ok (detectar_y_trackear s f).1.
Proof.
  intros Hs. unfold detectar_y_trackear.
  set (s1 := match y_cruce s with None => _ | Some _ => s end).
  assert (H1 : historial_ok s1) by (subst s1; by destruct (y_cruce s)).
  pose proof (trackear_personas_historial_ok s1 (detecciones_de f) H1) as H2.
  destruct (trackear_personas s1 _) as [s2 personas]; cbn [fst] in *.
  destruct (modo_calibracion s2); [done|].
  pose proof (cruces_historial_ok personas s2 [] H2).
  by destruct (cruces s2 personas []) as [s3 [movs|e]].
Qed.

Lemma llamar_historial_ok s c : historial_ok s → historial_ok (llamar s c).1.
Proof.
  intros Hs. destruct c as [cm|lb x y| | |ds|id y|fr]; cbn [llamar].
  - done.
  - unfold mouse_callback_calibracion. by repeat case_match.
  - unfold confirmar_calibracion.
    by repeat (case_match; cbn in *; simplify_eq).
  - done.
  - pose proof (trackear_personas_historial_ok s ds Hs).
    by destruct (trackear_personas s ds).
  - pose proof (detectar_cruce_linea_historial_ok s id y Hs).
    by destruct (detectar_cruce_linea s id y).
  - pose proof (detectar_y_trackear_historial_ok s fr Hs).
    by destruct (detectar_y_trackear s fr).
Qed.

(** X11.  Whatever methods are called on a fresh object, and in whatever
    order, every stored position history holds at least one and at most
    five samples. *)
Theorem historial_acotado (cs : list llamada) (k : Z) (h : list Z) :
  historial_posicion (llamar_todas init cs).1 !! k = Some h →
  (1 ≤ length h ≤ 5)%nat.
Proof.
  assert (H : ∀ s, historial_ok s → historial_ok (llamar_todas s cs).1).
  { induction cs as [|c cs IH]; intros s Hs; [done|].
    rewrite llamar_todas_cons; cbn [fst]. by apply IH, llamar_historial_ok. }
  apply (H init). intros k' h' Hk.
  change (historial_posicion init) with (∅ : gmap Z (list Z)) in Hk.
  by rewrite lookup_empty in Hk.
Qed.

Lemma historial_acotado_witness :
  let h : list Z := [285; 320; 280; 320; 280] in
  (1 ≤ length h ≤ 5)%nat.
Proof.
  intros h.
  apply (historial_acotado
           [Procesar frame_una_persona; Cruce 0 280; Cruce 0 285;
            Cruce 0 320; Cruce 0 280; Cruce 0 320; Cruce 0 280] 0).
  by vm_compute.
Defined.

(** X12.  Observing an identity changes nothing of the others: their
    histories and crossed flags, the tracked persons, the next
    identifier, the line, the calibration and the counters are left. *)
Theorem detectar_cruce_linea_aislada s (id y k : Z) :
  k ≠ id →
  let s' := (detectar_cruce_linea s id y).1 in
  historial_posicion s' !! k = historial_posicion s !! k ∧
  (k ∈ ids_cruzados s' ↔ k ∈ ids_cruzados s) ∧
  personas_trackeadas s' = personas_trackeadas s ∧
  siguiente_id s' = siguiente_id s ∧
  resto_de s' = resto_de s.
Proof.
  intros Hne s'. subst s'.
  destruct (detectar_cruce_linea_caso s id y) as (Hh & Hp & Hn & _).
  cbv zeta in *. rewrite Hh, lookup_insert_ne by done.
  split; [done|]. split; [by apply detectar_cruce_linea_otra|].
  split; [done|]. split; [done|]. apply detectar_cruce_linea_resto.
Qed.

Lemma detectar_cruce_linea_aislada_witness :
  let s := (correr linea_300 vida_oscilante).1 in
  let s' := (detectar_cruce_linea s 7 100).1 in
  historial_posicion s' !! 0 = historial_posicion s !! 0 ∧
  (0 ∈ ids_cruzados s' ↔ 0 ∈ ids_cruzados s) ∧
  personas_trackeadas s' = personas_trackeadas s ∧
  siguiente_id s' = siguiente_id s ∧
  resto_de s' = resto_de s.
Proof.
  intros s. apply (detectar_cruce_linea_aislada s 7 100 0). discriminate.
Defined.

(** X13.  Without a line ([y_cruce] still [None], as before the first
    frame) an observation returns nothing while the identity has fewer
    than two samples, and raises [TypeError] from then on; in both cases
    the sample is stored and no crossed flag changes. *)
Theorem detectar_cruce_linea_sin_linea s (id y : Z) :
  y_cruce s = None →
  let s' := (detectar_cruce_linea s id y).1 in
  let h := default [] (historial_posicion s !! id) in
  historial_posicion s' !! id = Some (ventana (h ++ [y])) ∧
  ids_cruzados s' = ids_cruzados s ∧
  (h = [] → (detectar_cruce_linea s id y).2 = Ret None) ∧
  (h ≠ [] → (detectar_cruce_linea s id y).2 = Raise TypeError).
Proof.
  intros Hy s' h. subst s'.
  destruct (detectar_cruce_linea_caso s id y) as (Hh & _ & _ & Hlt & Hn & _).
  cbv zeta in *. fold h in Hh, Hlt, Hn.
  rewrite Hh, lookup_insert_eq. split; [done|].
  destruct h as [|y0 h0].
  - destruct Hlt as [Hr Hc]; [vm_compute; lia|]. done.
  - destruct (Hn (ventana_length_ge (y0 :: h0) y ltac:(cbn; lia)) Hy)
      as [Hr Hc].
    done.
Qed.

Lemma detectar_cruce_linea_sin_linea_witness :
  let s := (detectar_cruce_linea init 0 280).1 in
  historial_posicion (detectar_cruce_linea s 0 320).1 !! 0
  = Some (ventana (default [] (historial_posicion s !! 0) ++ [320])) ∧
  ids_cruzados (detectar_cruce_linea s 0 320).1 = ids_cruzados s ∧
  (default [] (historial_posicion s !! 0) = [] →
   (detectar_cruce_linea s 0 320).2 = Ret None) ∧
  (default [] (historial_posicion s !! 0) ≠ [] →
   (detectar_cruce_linea s 0 320).2 = Raise TypeError).
Proof.
  intros s. apply (detectar_cruce_linea_sin_linea s 0 320). reflexivity.
Defined.


(** ** Direction of a crossing, quiet sides *)

Lemma zona_de_Q_Arriba (q : Q) (yc : Z) :
  zona_de_Q q yc = Arriba ↔ (q < inject_Z yc)%Q.
Proof.
  unfold zona_de_Q. destruct (Qltb q (inject_Z yc)) eqn:H.
  - apply Qltb_lt in H. done.
  - apply Qltb_ge in H. split; [done|]. intros Hlt.
    exfalso. apply (Qlt_not_le _ _ Hlt H).
Qed.

(** X14.  A movement is only returned for an identity that is not yet
    flagged and has at least two stored samples.  It is "entrada" exactly
    when the new foot position is on or below the line, the average of
    the two oldest stored samples being above it, and "salida" exactly
    when the new position is above the line, that average being on or
    below it.  A position equal to the line counts as below. *)
Theorem detectar_cruce_linea_sentido s (id y yc : Z) (m : movimiento) :
  y_cruce s = Some yc →
  (detectar_cruce_linea s id y).2 = Ret (Some m) →
  let w := ventana (default [] (historial_posicion s !! id) ++ [y]) in
  let y_inicial := np_mean (take 2 w) in
  (id ∉ ids_cruzados s) ∧ id ∈ ids_cruzados (detectar_cruce_linea s id y).1 ∧
  (2 ≤ length w)%nat ∧
  (m = entrada ↔ yc ≤ y) ∧ (m = salida ↔ y < yc) ∧
  (m = entrada → (y_inicial < inject_Z yc)%Q) ∧
  (m = salida → (inject_Z yc <= y_inicial)%Q).
Proof.
  intros Hy Hr w yi.
  destruct (detectar_cruce_linea_paso s id y yc _ Hy eq_refl)
    as (_ & _ & Hr' & _).
  pose proof (detectar_cruce_linea_cruzados s id y) as Hc.
  cbv zeta in Hr', Hc. fold w in Hr'. fold yi in Hr'.
  rewrite Hr in Hc. destruct Hc as [Hni Hin].
  rewrite Hr in Hr'. injection Hr' as Hm.
  destruct (Nat.ltb_spec (length w) 2) as [?|Hl]; [done|].
  rewrite (bool_decide_eq_false_2 _ Hni) in Hm.
  destruct (bool_decide _) in Hm; [done|].
  split; [done|]. split; [done|]. split; [done|].
  assert (Hza : zona_de_Z y yc = Arriba ↔ y < yc) by apply zona_de_Z_Arriba.
  assert (Hzq : zona_de_Q yi yc = Arriba ↔ (yi < inject_Z yc)%Q)
    by apply zona_de_Q_Arriba.
  destruct (zona_de_Z y yc) eqn:Ha, (zona_de_Q yi yc) eqn:Hq; cbn in Hm;
    try done; injection Hm as Hm; subst m.
  - assert (y < yc) by (by apply Hza).
    assert (¬ (yi < inject_Z yc)%Q) by (intros H'; apply Hzq in H'; done).
    split_and!; try (split; intros; (done || lia)); try (intros; done).
    intros _. by apply Qnot_lt_le.
  - assert (¬ y < yc) by (intros H'; apply Hza in H'; done).
    assert ((yi < inject_Z yc)%Q) by (by apply Hzq).
    split_and!; try (split; intros; (done || lia)); try (intros; done).
Qed.

Lemma detectar_cruce_linea_sentido_witness :
  let s := alimentar linea_300 0 [280; 285] in
  let w := ventana (default [] (historial_posicion s !! 0) ++ [300]) in
  let y_inicial := np_mean (take 2 w) in
  (0 ∉ ids_cruzados s) ∧ 0 ∈ ids_cruzados (detectar_cruce_linea s 0 300).1 ∧
  (2 ≤ length w)%nat ∧
  (entrada = entrada ↔ 300 ≤ 300) ∧ (entrada = salida ↔ 300 < 300) ∧
  (entrada = entrada → (y_inicial < inject_Z 300)%Q) ∧
  (entrada = salida → (inject_Z 300 <= y_inicial)%Q).
Proof.
  intros s.
  apply (detectar_cruce_linea_sentido s 0 300 300 entrada); reflexivity.
Defined.

(** The specification-side answers when all the samples lie on one side
    of the line. *)
Lemma observaciones_spec_un_lado yc z ys : ∀ previas,
  (∀ v, v ∈ previas → zona_de_Z v yc = z) →
  (∀ v, v ∈ ys → zona_de_Z v yc = z) →
  observaciones_spec yc previas false ys = replicate (length ys) (Ret None).
Proof.
  induction ys as [|y ys IH]; intros previas Hp Hys; [done|].
  cbn [observaciones_spec length replicate].
  assert (Hy : zona_de_Z y yc = z) by (apply Hys; by left).
  assert (Htodas : ∀ v, v ∈ previas ++ [y] → zona_de_Z v yc = z).
  { intros v [?| ->%list_elem_of_singleton]%elem_of_app; auto. }
  set (todas := previas ++ [y]) in *.
  assert (Ha : (if (length todas <? 2)%nat then None
                else if bool_decide
                          (zona_de_Z y yc = zona_anterior_spec todas yc)
                     then None
                     else movimiento_de (zona_anterior_spec todas yc)
                            (zona_de_Z y yc)) = None).
  { destruct (Nat.ltb_spec (length todas) 2) as [?|Hl]; [done|].
    rewrite bool_decide_eq_true_2; [done|].
    rewrite Hy. unfold zona_anterior_spec.
    destruct todas as [|a [|b r]]; [cbn in Hl; lia|cbn in Hl; lia|].
    cbn [take]. symmetry.
    apply zona_media; apply Htodas; [by left|right; by left]. }
  rewrite Ha. cbn [orb]. rewrite bool_decide_eq_false_2 by (by intros [? ?]).
  f_equal. apply IH; [done|]. intros v Hv. apply Hys. by right.
Qed.

Lemma alimentar_cons s id y ys :
  alimentar s id (y :: ys) = alimentar (detectar_cruce_linea s id y).1 id ys.
Proof. reflexivity. Qed.

(** Answers without movement leave the crossed flag. *)
Lemma observaciones_sin_evento ys : ∀ s id,
  observaciones s id ys = replicate (length ys) (Ret None) →
  (id ∈ ids_cruzados (alimentar s id ys) ↔ id ∈ ids_cruzados s).
Proof.
  induction ys as [|y ys IH]; intros s id Hobs; [done|].
  rewrite observaciones_cons in Hobs. cbn [length replicate] in Hobs.
  injection Hobs as Hr Hrest.
  pose proof (detectar_cruce_linea_cruzados s id y) as Hc.
  cbv zeta in Hc. rewrite Hr in Hc.
  rewrite alimentar_cons, (IH _ _ Hrest). done.
Qed.

(** X15.  With the line set, an identity that starts without history and
    without flag and whose foot positions all stay on one side of the
    line (all above, or all on or below) never returns a movement and is
    never flagged, however long the sequence. *)
Theorem mismo_lado_sin_cruce s (id yc : Z) (ys : list Z) :
  y_cruce s = Some yc →
  historial_posicion s !! id = None →
  id ∉ ids_cruzados s →
  (∀ y, y ∈ ys → y < yc) ∨ (∀ y, y ∈ ys → yc ≤ y) →
  observaciones s id ys = replicate (length ys) (Ret None) ∧
  id ∉ ids_cruzados (alimentar s id ys).
Proof.
  intros Hy Hh Hc Hlado.
  assert (Hobs : observaciones s id ys = replicate (length ys) (Ret None)).
  { rewrite (observaciones_primeras s id yc ys Hy Hh Hc).
    destruct Hlado as [Hl|Hl].
    - apply (observaciones_spec_un_lado yc Arriba).
      + intros v Hv. by apply elem_of_nil in Hv.
      + intros v Hv. apply zona_de_Z_Arriba. auto.
    - apply (observaciones_spec_un_lado yc Abajo).
      + intros v Hv. by apply elem_of_nil in Hv.
      + intros v Hv. specialize (Hl v Hv).
        destruct (zona_de_Z v yc) eqn:Hz; [|done].
        apply zona_de_Z_Arriba in Hz. lia. }
  split; [done|]. by rewrite (observaciones_sin_evento ys s id Hobs).
Qed.

Lemma mismo_lado_sin_cruce_witness :
  observaciones linea_300 0 [280; 299; 10; 250; 299; 298; 1]
  = replicate (length [280; 299; 10; 250; 299; 298; 1]) (Ret None) ∧
  0 ∉ ids_cruzados (alimentar linea_300 0 [280; 299; 10; 250; 299; 298; 1]).
Proof.
  apply (mismo_lado_sin_cruce linea_300 0 300).
  - reflexivity.
  - reflexivity.
  - apply not_elem_of_empty.
  - left. intros y Hy.
    repeat (apply elem_of_cons in Hy as [->|Hy]; [lia|]).
    by apply elem_of_nil in Hy.
Defined.


(** ** The frame as a composition *)


(** With the line set the loop over the persons never raises; it is the
    run of their observations, and each of its movements copies the
    classification and the heights of the person of an event. *)
Lemma cruces_movimientos personas : ∀ s movs yc,
  y_cruce s = Some yc →
  ∃ nuevos,
    cruces s personas movs
    = ((correr s (pasos_de personas)).1, Ret (movs ++ nuevos)) ∧
    Forall2 (mov_de_evento personas) nuevos
      (correr s (pasos_de personas)).2 ∧
    (correr s (pasos_de personas)).2.*1 `sublist_of` claves personas.
Proof.
  induction personas as [|[idp info] r IH]; intros s movs yc Hy.
  { exists []. rewrite app_nil_r. split; [done|]. split; [constructor|done]. }
  cbn [cruces pasos_de fmap list_fmap correr fst snd].
  destruct (detectar_cruce_linea_paso s idp (i_pies info).2 yc _ Hy eq_refl)
    as (Hy1 & _ & Hr & _).
  cbv zeta in Hy1, Hr.
  destruct (detectar_cruce_linea s idp _) as [s1 a]; cbn [fst snd] in *.
  fold (pasos_de r).
  assert (Hmono : ∀ mv ev, mov_de_evento r mv ev →
                           mov_de_evento ((idp, info) :: r) mv ev).
  { intros mv ev (i & Hin & ->). exists i. split; [|done].
    apply elem_of_cons. by right. }
  destruct a as [[m|]|e]; [| |discriminate].
  - destruct (IH s1 (movs ++ [mov_de info m]) yc Hy1)
      as (nuevos & Hc & Hf & Hs).
    unfold mov_de at 1 in Hc. rewrite Hc.
    destruct (correr s1 (pasos_de r)) as [s2 evs]; cbn [fst snd] in *.
    exists (mov_de info m :: nuevos). rewrite <- app_assoc.
    split; [done|]. split.
    + constructor.
      * exists info. split; [by left|done].
      * eapply Forall2_impl; [exact Hf|]. apply Hmono.
    + unfold claves. cbn. by apply sublist_skip.
  - destruct (IH s1 movs yc Hy1) as (nuevos & Hc & Hf & Hs). rewrite Hc.
    destruct (correr s1 (pasos_de r)) as [s2 evs]; cbn [fst snd] in *.
    exists nuevos. split; [done|]. split.
    + eapply Forall2_impl; [exact Hf|]. apply Hmono.
    + unfold claves. cbn. by apply sublist_cons.
Qed.

Lemma con_linea_spec s f :
  ∃ yc, y_cruce (con_linea s f) = Some yc ∧
        (∀ yc0, y_cruce s = Some yc0 → yc = yc0) ∧
        (y_cruce s = None →
         yc = py_int (inject_Z (shape0 f) * posicion_y_cruce s)).
Proof.
  unfold con_linea. destruct (y_cruce s) as [yc|] eqn:H.
  - exists yc. rewrite H. split; [done|]. split; [congruence|done].
  - eexists. split; [reflexivity|]. split; [congruence|done].
Qed.

(** X16.  A frame processed outside the calibration mode is the
    composition of the methods: the line is set if it was not, the
    tracker is updated with the detections of the frame, and every person
    of the returned dictionary is observed once, in its order, at the
    vertical position of its feet.  The movements returned are the events
    of these observations, each with the classification and the heights
    of its person, so at most one per person; the frame never raises. *)
Theorem detectar_y_trackear_composicion s (f : frame) :
  modo_calibracion s = false →
  let s1 := con_linea s f in
  let personas := (trackear_personas s1 (detecciones_de f)).2 in
  let vida := Seguir (detecciones_de f) :: pasos_de personas in
  ∃ movimientos,
    detectar_y_trackear s f
    = ((correr s1 vida).1, Ret (personas, movimientos)) ∧
    Forall2 (mov_de_evento personas) movimientos (correr s1 vida).2 ∧
    (correr s1 vida).2.*1 `sublist_of` claves personas ∧
    NoDup (claves personas) ∧
    (length movimientos ≤ length personas)%nat.
Proof.
  intros Hm s1 personas vida. subst personas vida.
  unfold detectar_y_trackear. fold (con_linea s f). fold s1.
  destruct (con_linea_spec s f) as (yc & Hy & _). fold s1 in Hy.
  assert (Hm1 : modo_calibracion s1 = false)
    by (subst s1; unfold con_linea; by destruct (y_cruce s)).
  cbn [correr].
  pose proof (trackear_personas_resto s1 (detecciones_de f)) as Hr.
  pose proof (trackear_personas_claves s1 (detecciones_de f))
    as (_ & _ & _ & Hnd).
  destruct (trackear_personas s1 (detecciones_de f)) as [s2 personas].
  cbn [fst snd] in *.
  assert (Hy2 : y_cruce s2 = Some yc)
    by (unfold resto_de in Hr; simplify_eq; congruence).
  assert (Hm2 : modo_calibracion s2 = false)
    by (unfold resto_de in Hr; simplify_eq; congruence).
  rewrite Hm2.
  destruct (cruces_movimientos personas s2 [] yc Hy2)
    as (nuevos & -> & Hf & Hs).
  exists nuevos. split; [done|]. split; [done|]. split; [done|].
  split; [done|].
  rewrite (Forall2_length _ _ _ Hf), <- (length_fmap fst).
  apply sublist_length in Hs. unfold claves in Hs.
  by rewrite (length_fmap fst personas) in Hs.
Qed.

Lemma detectar_y_trackear_composicion_witness :
  let s := (detectar_y_trackear linea_300 frame_una_persona).1 in
  let f := {| shape0 := 600; shape1 := 800;
              resultados :=
                [[ {| xyxy := (0, 150, 100, 350)%Q; conf := 9 # 10 |} ]] |} in
  let s1 := con_linea s f in
  let personas := (trackear_personas s1 (detecciones_de f)).2 in
  let vida := Seguir (detecciones_de f) :: pasos_de personas in
  ∃ movimientos,
    detectar_y_trackear s f
    = ((correr s1 vida).1, Ret (personas, movimientos)) ∧
    Forall2 (mov_de_evento personas) movimientos (correr s1 vida).2 ∧
    (correr s1 vida).2.*1 `sublist_of` claves personas ∧
    NoDup (claves personas) ∧
    (length movimientos ≤ length personas)%nat.
Proof.
  intros s f. apply (detectar_y_trackear_composicion s f). reflexivity.
Defined.




(** ** Identities over the calls *)

Lemma cruces_tracking personas : ∀ s movs,
  personas_trackeadas (cruces s personas movs).1 = personas_trackeadas s ∧
  siguiente_id (cruces s personas movs).1 = siguiente_id s.
Proof.
  induction personas as [|[idp info] r IH]; intros s movs; [done|].
  cbn [cruces].
  destruct (detectar_cruce_linea_caso s idp (i_pies info).2)
    as (_ & Hp & Hn & _).
  cbv zeta in Hp, Hn.
  destruct (detectar_cruce_linea s idp _) as [s1 a]; cbn [fst snd] in *.
  destruct a as [[m|]|e]; cbn [fst]; rewrite ?(proj1 (IH _ _)),
    ?(proj2 (IH _ _)); by split.
Qed.

(** The identities tracked after a call of the loop were tracked before
    it or are allocated by it. *)
Lemma llamar_claves s c k :
  del_bucle c = true →
  k ∈ claves (personas_trackeadas (llamar s c).1) →
  k ∈ claves (personas_trackeadas s) ∨ siguiente_id s ≤ k.
Proof.
  assert (Ht : ∀ s0 ds,
    k ∈ claves (personas_trackeadas (trackear_personas s0 ds).1) →
    k ∈ claves (personas_trackeadas s0) ∨ siguiente_id s0 ≤ k).
  { intros s0 ds Hk.
    destruct (trackear_personas_efecto s0 ds) as (Hr & Hp & _).
    destruct (trackear_personas_claves s0 ds) as (_ & Hu & Hc & _).
    cbv zeta in *. rewrite Hp, <- Hr in Hk.
    apply Hc in Hk as [Hk|Hk]; [left; by apply Hu|right; lia]. }
  intros Hc Hk. destruct c as [cm|lb x y| | |ds|id y|fr]; cbn [llamar] in Hk.
  - left. exact Hk.
  - left. unfold mouse_callback_calibracion in Hk.
    by repeat case_match.
  - left. unfold confirmar_calibracion in Hk.
    by repeat (case_match; cbn in *; simplify_eq).
  - left. exact Hk.
  - destruct (trackear_personas s ds) as [s' p] eqn:E; cbn [fst] in Hk.
    apply (Ht s ds). by rewrite E.
  - discriminate.
  - destruct (detectar_y_trackear s fr) as [s' r] eqn:E; cbn [fst] in Hk.
    assert (Hs' : personas_trackeadas s'
                  = personas_trackeadas
                      (trackear_personas (con_linea s fr)
                         (detecciones_de fr)).1).
    { change s' with (s', r).1. rewrite <- E. unfold detectar_y_trackear.
      fold (con_linea s fr).
      destruct (trackear_personas (con_linea s fr) _) as [s2 personas].
      cbn [fst]. destruct (modo_calibracion s2); [done|].
      pose proof (cruces_tracking personas s2 []) as [H _].
      by destruct (cruces s2 personas []) as [s3 [movs|e]]. }
    rewrite Hs' in Hk. apply Ht in Hk.
    unfold con_linea in Hk. by destruct (y_cruce s).
Qed.

(** X18.  Identifiers are never used twice.  Once the tracking invariant
    holds, an identifier that was allocated and is not tracked any more,
    its person having been retired, is not in the dictionary after any
    further calls of the frame loop: no later person receives it, however
    close to the retired one it appears. *)
Theorem identidad_no_reutilizada s (cs : list llamada) (id : Z) :
  tracking_ok s →
  forallb del_bucle cs = true →
  id < siguiente_id s →
  id ∉ claves (personas_trackeadas s) →
  id ∉ claves (personas_trackeadas (llamar_todas s cs).1).
Proof.
  revert s. induction cs as [|c cs IH]; intros s Hok Hcs Hlt Hni; [done|].
  rewrite llamar_todas_cons; cbn [fst].
  cbn [forallb] in Hcs. apply andb_true_iff in Hcs as [Hc Hcs].
  apply IH.
  - pose proof (llamar_todas_ok [c] s Hok) as H1.
    rewrite llamar_todas_cons in H1. apply H1.
    cbn [forallb]. by rewrite Hc.
  - exact Hcs.
  - pose proof (llamar_siguiente_id s c). lia.
  - intros Hk. apply llamar_claves in Hk as [Hk|Hk]; [done|lia|done].
Qed.

Lemma identidad_no_reutilizada_witness :
  let s := (trackear_personas dos_personas [(-5, -5, 5, 5)]).1 in
  let cs := [Procesar {| shape0 := 600; shape1 := 800;
                         resultados :=
                           [[ {| xyxy := (85, -5, 95, 5)%Q;
                                 conf := 9 # 10 |} ]] |};
             Trackear [(85, -5, 95, 5); (-5, -5, 5, 5)]] in
  0 ∉ claves (personas_trackeadas (llamar_todas s cs).1).
Proof.
  intros s cs. apply (identidad_no_reutilizada s cs 0).
  - apply trackear_personas_ok, trackear_personas_ok, tracking_ok_init.
  - reflexivity.
  - vm_compute. reflexivity.
  - apply (bool_decide_unpack _). vm_compute. exact I.
Defined.


(** ** Registro en base de datos *)

Lemma sumar_total_0 t s : sumar_total t 0 s = s.
Proof.
  destruct s, t; unfold sumar_total, set_totales; cbn; f_equal; lia.
Qed.

Lemma sumar_total_contar t k s :
  sumar_total t k (contar_movimiento t s) = sumar_total t (1 + k) s.
Proof.
  destruct t; unfold sumar_total, contar_movimiento, set_totales; cbn;
    f_equal; lia.
Qed.

Lemma contados_cons r rs :
  contados (r :: rs)
  = (match r with Correcto | ErrorCommit => 1 | _ => 0 end) + contados rs.
Proof. unfold contados. destruct r; cbn [List.filter length]; lia. Qed.

Lemma contados_cota rs : 0 ≤ contados rs ≤ Z.of_nat (length rs).
Proof.
  induction rs as [|r rs IH]; [done|].
  rewrite contados_cons. cbn [length]. destruct r; lia.
Qed.

(** The answers met by [k] attempts made from [w]. *)
Lemma respuestas_cons (w : base_datos) (n k : nat) :
  (λ i, responde w (n + i)%nat) <$> seq 0 (S k)
  = responde w n :: ((λ i, responde w (S n + i)%nat) <$> seq 0 k).
Proof.
  cbn [seq fmap list_fmap]. rewrite Nat.add_0_r. f_equal.
  rewrite <- fmap_S_seq, <- list_fmap_compose.
  apply list_fmap_ext. intros _ i _. cbn. by rewrite Nat.add_succ_r.
Qed.

(** The loop of the attempts, for any number of attempts allowed. *)
Lemma intentar_spec n : ∀ w s tipo,
  let r := intentar n w s tipo in
  let k := (intentos_hechos r.1.1 - intentos_hechos w)%nat in
  let rs := (λ i, responde w (intentos_hechos w + i)%nat) <$> seq 0 k in
  intentos_hechos r.1.1 = (intentos_hechos w + k)%nat ∧
  (k ≤ n)%nat ∧
  ((0 < n)%nat → (0 < k)%nat) ∧
  r.1.2 = sumar_total tipo (contados rs) s ∧
  (r.2 = true ↔ last rs = Some Correcto) ∧
  (r.2 = false → k = n) ∧
  (∀ i x, (S i < k)%nat → rs !! i = Some x → x ≠ Correcto).
Proof.
  induction n as [|m IH]; intros w s tipo.
  { cbn [intentar fst snd]. rewrite Nat.sub_diag. cbn [seq fmap list_fmap].
    rewrite sumar_total_0. split_and!; try done; try lia. }
  assert (Hc1 : contar_movimiento tipo s = sumar_total tipo 1 s).
  { rewrite <- (sumar_total_0 tipo (contar_movimiento tipo s)).
    by rewrite sumar_total_contar. }
  (* the attempt is the last one made *)
  assert (Huno : ∀ s1 ok,
    s1 = sumar_total tipo (contados [responde w (intentos_hechos w)]) s →
    (ok = true ↔ responde w (intentos_hechos w) = Correcto) →
    (ok = false → m = 0%nat) →
    let r := ((enviar_intento w).1, s1, ok) in
    let k := (intentos_hechos r.1.1 - intentos_hechos w)%nat in
    let rs := (λ i, responde w (intentos_hechos w + i)%nat) <$> seq 0 k in
    intentos_hechos r.1.1 = (intentos_hechos w + k)%nat ∧
    (k ≤ S m)%nat ∧
    ((0 < S m)%nat → (0 < k)%nat) ∧
    r.1.2 = sumar_total tipo (contados rs) s ∧
    (r.2 = true ↔ last rs = Some Correcto) ∧
    (r.2 = false → k = S m) ∧
    (∀ i x, (S i < k)%nat → rs !! i = Some x → x ≠ Correcto)).
  { intros s1 ok Hs1 Hok Hm.
    cbn [enviar_intento fst snd intentos_hechos].
    replace (S (intentos_hechos w) - intentos_hechos w)%nat with 1%nat by lia.
    cbn [seq fmap list_fmap]. rewrite Nat.add_0_r.
    split_and!; try done; try lia.
    - rewrite Hok. cbn [last]. split; [by intros ->|by intros [= ->]].
    - intros H. specialize (Hm H). lia. }
  (* the attempt fails and others follow *)
  assert (Hmas : ∀ s1 m',
    m = S m' →
    responde w (intentos_hechos w) ≠ Correcto →
    (∀ c, sumar_total tipo c s1
          = sumar_total tipo
              (contados [responde w (intentos_hechos w)] + c) s) →
    let r := intentar m (verificar_reconectar_db (enviar_intento w).1).1
               s1 tipo in
    let k := (intentos_hechos r.1.1 - intentos_hechos w)%nat in
    let rs := (λ i, responde w (intentos_hechos w + i)%nat) <$> seq 0 k in
    intentos_hechos r.1.1 = (intentos_hechos w + k)%nat ∧
    (k ≤ S m)%nat ∧
    ((0 < S m)%nat → (0 < k)%nat) ∧
    r.1.2 = sumar_total tipo (contados rs) s ∧
    (r.2 = true ↔ last rs = Some Correcto) ∧
    (r.2 = false → k = S m) ∧
    (∀ i x, (S i < k)%nat → rs !! i = Some x → x ≠ Correcto)).
  { intros s1 m' Hm Hr Hs1.
    pose proof (IH (verificar_reconectar_db (enviar_intento w).1).1 s1 tipo)
      as H.
    cbv zeta in H |- *.
    destruct (intentar m _ s1 tipo) as [[w' s'] ok]; cbn [fst snd] in *.
    change (intentos_hechos (verificar_reconectar_db (enviar_intento w).1).1)
      with (S (intentos_hechos w)) in H.
    change (responde (verificar_reconectar_db (enviar_intento w).1).1)
      with (responde w) in H.
    set (k' := (intentos_hechos w' - S (intentos_hechos w))%nat) in *.
    destruct H as (H1 & H2 & H3 & H4 & H5 & H6 & H7).
    clearbody k'.
    assert (Hk : (intentos_hechos w' - intentos_hechos w)%nat = S k')
      by (clear -H1; lia).
    rewrite Hk.
    rewrite respuestas_cons.
    set (rs' := (λ i, responde w (S (intentos_hechos w) + i)%nat)
                <$> seq 0 k') in *.
    assert (Hk' : (0 < k')%nat) by lia.
    assert (Hlast : last (responde w (intentos_hechos w) :: rs') = last rs').
    { subst rs'. destruct k' as [|k2]; [lia|]. by rewrite respuestas_cons. }
    split_and!; try lia.
    - rewrite H4, Hs1. f_equal. rewrite !contados_cons.
      change (contados []) with 0. lia.
    - by rewrite Hlast.
    - intros Hf. specialize (H6 Hf). lia.
    - intros [|i] x Hi Hx; cbn in Hx.
      + by injection Hx as <-.
      + apply (H7 i x); [lia|done]. }
  cbn [intentar].
  change (enviar_intento w)
    with ((enviar_intento w).1, responde w (intentos_hechos w)).
  lazy beta iota zeta.
  destruct (responde w (intentos_hechos w)) eqn:Er.
  - apply Huno; [done|done|done].
  - destruct m as [|m'].
    + apply Huno; [by rewrite sumar_total_0|done|done].
    + apply (Hmas s m'); [done|done|].
      intros c. by rewrite Z.add_0_l.
  - destruct m as [|m'].
    + apply Huno; [by rewrite sumar_total_0|done|done].
    + apply (Hmas s m'); [done|done|].
      intros c. by rewrite Z.add_0_l.
  - destruct m as [|m'].
    + apply Huno; [done|done|done].
    + apply (Hmas _ m'); [done|done|].
      intros c. apply sumar_total_contar.
Qed.

Lemma contados_last rs : last rs = Some Correcto → 1 ≤ contados rs.
Proof.
  induction rs as [|r [|r' rs] IH]; [done| |].
  - intros [= ->]. done.
  - intros H. rewrite contados_cons. specialize (IH H). destruct r; lia.
Qed.

(** X19.  [registrar_movimiento] answers [False] without an attempt and
    without touching the object when the connection check fails.
    Otherwise it makes between one and three attempts and stops at the
    first that goes through; it answers [True] exactly when that happens,
    and [False] only after three failed attempts.  The object changes in
    the counter of the type only, which is raised once for every attempt
    that got past the UPDATE, committed or not: a commit that fails
    leaves the count in memory, so the counter can rise by up to three
    for one movement, also when the answer is [False]. *)
Theorem registrar_movimiento_totales w s (tipo : movimiento) :
  let w' := (registrar_movimiento w s tipo).1.1 in
  let s' := (registrar_movimiento w s tipo).1.2 in
  let exito := (registrar_movimiento w s tipo).2 in
  let n := (intentos_hechos w' - intentos_hechos w)%nat in
  let respuestas := (λ k, responde w (intentos_hechos w + k)%nat) <$> seq 0 n in
  s' = sumar_total tipo (contados respuestas) s ∧
  0 ≤ contados respuestas ≤ 3 ∧
  (exito = true → 1 ≤ contados respuestas) ∧
  (conecta w (verificaciones w) = false → exito = false ∧ n = 0%nat) ∧
  (conecta w (verificaciones w) = true →
   (1 ≤ n ≤ 3)%nat ∧
   (exito = true ↔ last respuestas = Some Correcto) ∧
   (exito = false → n = 3%nat) ∧
   (∀ k r, (S k < n)%nat → respuestas !! k = Some r → r ≠ Correcto)).
Proof.
  assert (Hreg : registrar_movimiento w s tipo
                 = if conecta w (verificaciones w)
                   then intentar 3 (verificar_reconectar_db w).1 s tipo
                   else ((verificar_reconectar_db w).1, s, false)).
  { unfold registrar_movimiento, verificar_reconectar_db. cbn [fst].
    by destruct (conecta w (verificaciones w)). }
  cbv zeta. rewrite Hreg. clear Hreg.
  destruct (conecta w (verificaciones w)) eqn:Hc.
  2:{ cbn [fst snd verificar_reconectar_db intentos_hechos].
      rewrite Nat.sub_diag. cbn [seq fmap list_fmap].
      rewrite sumar_total_0. split_and!; try done. }
  pose proof (intentar_spec 3 (verificar_reconectar_db w).1 s tipo) as H.
  cbv zeta in H.
  change (intentos_hechos (verificar_reconectar_db w).1)
    with (intentos_hechos w) in H.
  change (responde (verificar_reconectar_db w).1) with (responde w) in H.
  set (n := (intentos_hechos
               (intentar 3 (verificar_reconectar_db w).1 s tipo).1.1
             - intentos_hechos w)%nat) in *.
  set (respuestas := (λ k, responde w (intentos_hechos w + k)%nat)
                     <$> seq 0 n) in *.
  destruct H as (H1 & H2 & H3 & H4 & H5 & H6 & H7).
  assert (Hlen : length respuestas = n)
    by (subst respuestas; by rewrite length_fmap, length_seq).
  pose proof (contados_cota respuestas) as Hcota.
  split; [done|]. split; [lia|].
  split; [intros He; apply contados_last; by apply H5|].
  split; [done|]. intros _.
  split; [lia|]. split; [done|]. split; [done|]. done.
Qed.

(** Three commits that fail: the answer is [False] and the counter in
    memory has risen by three. *)
Lemma registrar_movimiento_sin_commit :
  let w := {| conecta := λ _, true; responde := λ _, ErrorCommit;
              guarda := λ _, true; verificaciones := 0;
              intentos_hechos := 0; guardados := 0 |} in
  (registrar_movimiento w init entrada).2 = false ∧
  total_entradas (registrar_movimiento w init entrada).1.2 = 3.
Proof. by vm_compute. Qed.


(** ** El bucle de [ejecutar] *)

Lemma raton_efecto evs : ∀ s,
  let s' := foldl (λ s e, mouse_callback_calibracion s e.1.1 e.1.2 e.2)
              s evs in
  modo_calibracion s' = modo_calibracion s ∧
  altura_real_referencia_cm s' = altura_real_referencia_cm s ∧
  calibrado s' = calibrado s ∧
  factor_conversion s' = factor_conversion s ∧
  totales_de s' = totales_de s ∧
  (modo_calibracion s = false → s' = s).
Proof.
  induction evs as [|[[lb x] y] evs IH]; intros s; [done|].
  rewrite foldl_cons. cbn [fst snd].
  specialize (IH (mouse_callback_calibracion s lb x y)). cbv zeta in IH.
  destruct IH as (H1 & H2 & H3 & H4 & H5 & H6).
  cbv zeta. rewrite H1, H2, H3, H4, H5.
  assert (Hm : modo_calibracion s = false →
               mouse_callback_calibracion s lb x y = s).
  { intros Hf. unfold mouse_callback_calibracion. rewrite Hf.
    by rewrite andb_false_r. }
  split_and!;
    try (unfold mouse_callback_calibracion; by repeat case_match).
  intros Hf. rewrite H6; rewrite (Hm Hf); done.
Qed.

Lemma detectar_y_trackear_calibracion s f :
  calibracion_de (detectar_y_trackear s f).1 = calibracion_de s ∧
  totales_de (detectar_y_trackear s f).1 = totales_de s.
Proof.
  unfold detectar_y_trackear. fold (con_linea s f).
  assert (H0 : calibracion_de (con_linea s f) = calibracion_de s ∧
               totales_de (con_linea s f) = totales_de s)
    by (unfold con_linea; destruct (y_cruce s); split; reflexivity).
  pose proof (trackear_personas_resto (con_linea s f) (detecciones_de f))
    as H1.
  destruct (trackear_personas (con_linea s f) _) as [s2 personas].
  cbn [fst] in H1.
  assert (H2 : calibracion_de s2 = calibracion_de s ∧
               totales_de s2 = totales_de s).
  { destruct H0 as [<- <-]. unfold resto_de in H1.
    unfold calibracion_de, totales_de. simplify_eq. split; congruence. }
  destruct (modo_calibracion s2); [exact H2|].
  pose proof (cruces_resto personas s2 []) as H3.
  destruct (cruces s2 personas []) as [s3 [movs|e]]; cbn [fst] in *;
    destruct H2 as [<- <-]; unfold resto_de in H3;
    unfold calibracion_de, totales_de; simplify_eq; split; congruence.
Qed.

Lemma detectar_y_trackear_no_lanza s f :
  ∃ r, (detectar_y_trackear s f).2 = Ret r.
Proof.
  unfold detectar_y_trackear. fold (con_linea s f).
  destruct (con_linea_spec s f) as (yc & Hy & _).
  pose proof (trackear_personas_resto (con_linea s f) (detecciones_de f))
    as Hr.
  destruct (trackear_personas (con_linea s f) _) as [s2 personas].
  cbn [fst] in Hr.
  destruct (modo_calibracion s2); [eauto|].
  destruct (cruces_movimientos personas s2 [] yc) as (nuevos & -> & _).
  { unfold resto_de in Hr. simplify_eq. congruence. }
  eauto.
Qed.

Lemma registrar_movimiento_efecto w s tipo :
  calibracion_de (registrar_movimiento w s tipo).1.2 = calibracion_de s ∧
  total_entradas s ≤ total_entradas (registrar_movimiento w s tipo).1.2 ∧
  total_salidas s ≤ total_salidas (registrar_movimiento w s tipo).1.2.
Proof.
  assert (H : ∃ k, 0 ≤ k ∧
            (registrar_movimiento w s tipo).1.2 = sumar_total tipo k s).
  { unfold registrar_movimiento, verificar_reconectar_db.
    destruct (conecta w (verificaciones w)); cbn [negb].
    - destruct (intentar_spec 3
                  {| conecta := conecta w; responde := responde w;
                     guarda := guarda w;
                     verificaciones := S (verificaciones w);
                     intentos_hechos := intentos_hechos w;
                     guardados := guardados w |} s tipo)
        as (_ & _ & _ & H & _).
      eexists. split; [|exact H]. apply contados_cota.
    - exists 0. split; [done|]. cbn [fst snd]. by rewrite sumar_total_0. }
  destruct H as (k & Hk & ->).
  destruct tipo; cbn; split_and!; try done; lia.
Qed.

Lemma registrar_todos_efecto movs : ∀ b,
  let b' := registrar_todos b movs in
  calibracion_de (objeto b') = calibracion_de (objeto b) ∧
  total_entradas (objeto b) ≤ total_entradas (objeto b') ∧
  total_salidas (objeto b) ≤ total_salidas (objeto b') ∧
  skip b' = skip b ∧
  ultimo_frame_procesado b' = ultimo_frame_procesado b ∧
  (0 ≤ contador_sin_db b ≤ 10 → 0 ≤ contador_sin_db b' ≤ 10).
Proof.
  induction movs as [|mov movs IH]; intros b; [done|].
  cbn [registrar_todos].
  pose proof (registrar_movimiento_efecto (bd b) (objeto b) (m_tipo mov))
    as (Hc & He & Hs).
  destruct (registrar_movimiento (bd b) (objeto b) (m_tipo mov))
    as [[w s] exito]; cbn [fst snd] in *.
  match goal with
  | |- context [registrar_todos ?b1 movs] => specialize (IH b1)
  end.
  cbv zeta in IH |- *. cbn [objeto con_contador con_bd con_objeto skip
    ultimo_frame_procesado contador_sin_db] in IH.
  destruct IH as (I1 & I2 & I3 & I4 & I5 & I6).
  split_and!; try congruence; try lia.
  intros Hb. apply I6.
  destruct exito; cbn [negb]; [lia|].
  destruct (contador_sin_db b + 1 >? 10) eqn:E; lia.
Qed.

Lemma confirmar_calibracion_efecto s :
  referencia_ok s → modo_calibracion s = true →
  let s' := (confirmar_calibracion s).1 in
  totales_de s' = totales_de s ∧
  match (confirmar_calibracion s).2 with
  | Raise e =>
      e = ZeroDivisionError ∧ modo_calibracion s' = true ∧
      ∃ p1 p2 : punto,
        punto1_calibracion s' = Some p1 ∧ punto2_calibracion s' = Some p2 ∧
        p1.2 = p2.2
  | Ret _ => referencia_ok s'
  end.
Proof.
  intros Hr Hm. destruct (Hr Hm) as [real Hreal].
  unfold confirmar_calibracion.
  destruct (punto1_calibracion s) as [p1|] eqn:E1;
    [destruct (punto2_calibracion s) as [p2|] eqn:E2|];
    [|done..].
  cbn [altura_real_referencia_cm set_calibracion]. rewrite Hreal.
  destruct (Z.abs (p2.2 - p1.2) =? 0) eqn:E; cbn [fst snd].
  - split; [done|]. split; [done|]. split; [exact Hm|].
    exists p1, p2. cbn. apply Z.eqb_eq in E. split_and!; try done. lia.
  - split; [done|]. intros H. discriminate H.
Qed.

Lemma teclas_efecto b k :
  let r := teclas b k in
  skip (estado_de r) = skip b ∧
  ultimo_frame_procesado (estado_de r) = ultimo_frame_procesado b ∧
  contador_sin_db (estado_de r) = contador_sin_db b ∧
  totales_de (objeto (estado_de r)) = totales_de (objeto b) ∧
  (modo_calibracion (objeto b) = false → r = Sale b ∨ r = Continua b) ∧
  (referencia_ok (objeto b) →
   match r with
   | Lanza b' e => division_por_cero b' e
   | Continua b' | Sale b' => referencia_ok (objeto b')
   end).
Proof.
  unfold teclas. destruct (k =? ord_q); [by split_and!; auto|].
  destruct (modo_calibracion (objeto b)) eqn:Hm.
  2:{ rewrite !andb_false_r. split_and!; auto. }
  rewrite !andb_true_r.
  destruct (k =? ord_c).
  { assert (Ht : totales_de (confirmar_calibracion (objeto b)).1
                 = totales_de (objeto b)).
    { unfold confirmar_calibracion. by repeat case_match. }
    pose proof (confirmar_calibracion_efecto (objeto b)) as He.
    destruct (confirmar_calibracion (objeto b)) as [s [[|]|e]];
      cbn [fst snd estado_de con_bd con_objeto skip ultimo_frame_procesado
           contador_sin_db objeto] in *;
      (split_and!; [done|done|done|done|done|]);
      intros Hr; by destruct (He Hr Hm). }
  destruct (k =? ord_r).
  - cbn. by split_and!.
  - cbn. split_and!; auto.
Qed.

Lemma wait_key_efecto b it :
  let b' := wait_key b it in
  skip b' = skip b ∧
  ultimo_frame_procesado b' = ultimo_frame_procesado b ∧
  contador_sin_db b' = contador_sin_db b ∧
  bd b' = bd b ∧
  totales_de (objeto b') = totales_de (objeto b) ∧
  modo_calibracion (objeto b') = modo_calibracion (objeto b) ∧
  (modo_calibracion (objeto b) = false → objeto b' = objeto b) ∧
  (referencia_ok (objeto b) → referencia_ok (objeto b')).
Proof.
  unfold wait_key.
  destruct (raton_efecto (raton it) (objeto b)) as (H1 & H2 & _ & _ & H5 & H6).
  cbv zeta in *. cbn [con_objeto skip ultimo_frame_procesado contador_sin_db
    bd objeto].
  split_and!; try done.
  unfold referencia_ok. rewrite H1, H2. done.
Qed.

(** The end of an iteration that showed a frame: the mouse events, then
    the key. *)
Lemma mostrar_efecto b it :
  let r := teclas (wait_key b it) (key it) in
  skip (estado_de r) = skip b ∧
  ultimo_frame_procesado (estado_de r) = ultimo_frame_procesado b ∧
  contador_sin_db (estado_de r) = contador_sin_db b ∧
  totales_de (objeto (estado_de r)) = totales_de (objeto b) ∧
  (modo_calibracion (objeto b) = false →
   (r = Sale (estado_de r) ∨ r = Continua (estado_de r)) ∧
   objeto (estado_de r) = objeto b) ∧
  (referencia_ok (objeto b) →
   match r with
   | Lanza b' e => division_por_cero b' e
   | Continua b' | Sale b' => referencia_ok (objeto b')
   end).
Proof.
  destruct (wait_key_efecto b it) as (W1 & W2 & W3 & W4 & W5 & W6 & W7 & W8).
  destruct (teclas_efecto (wait_key b it) (key it))
    as (T1 & T2 & T3 & T4 & T5 & T6).
  cbv zeta in *.
  split_and!; try congruence.
  - intros Hm. destruct T5 as [T5|T5]; [congruence| |];
      rewrite T5; cbn [estado_de]; split; auto.
  - intros Hr. apply T6, W8, Hr.
Qed.

Lemma paridad_skip (x : Z) : ((x + 1) mod 2 =? 0) = (x mod 2 =? 1).
Proof.
  destruct (Z.eqb_spec ((x + 1) mod 2) 0) as [H|H];
    destruct (Z.eqb_spec (x mod 2) 1) as [H'|H']; try done; exfalso;
    revert H H'; Z.div_mod_to_equations; lia.
Qed.

(** One iteration of the loop. *)
Lemma iterar_efecto b it :
  let r := iterar b it in
  let b' := estado_de r in
  total_entradas (objeto b) ≤ total_entradas (objeto b') ∧
  total_salidas (objeto b) ≤ total_salidas (objeto b') ∧
  (0 ≤ contador_sin_db b ≤ 10 → 0 ≤ contador_sin_db b' ≤ 10) ∧
  skip b' = skip b + Z.of_nat (length (frames_leidos [it])) ∧
  ultimo_frame_procesado b'
  = match leido it with
    | Some f => if skip b mod 2 =? 1 then Some f else ultimo_frame_procesado b
    | None => ultimo_frame_procesado b
    end ∧
  (referencia_ok (objeto b) →
   match r with
   | Lanza b1 e => division_por_cero b1 e
   | Continua b1 | Sale b1 => referencia_ok (objeto b1)
   end) ∧
  (modo_calibracion (objeto b) = false →
   (r = Sale b' ∨ r = Continua b') ∧
   calibracion_de (objeto b') = calibracion_de (objeto b)).
Proof.
  assert (Htot : ∀ s1 s2, totales_de s1 = totales_de s2 →
            total_entradas s1 = total_entradas s2 ∧
            total_salidas s1 = total_salidas s2).
  { intros s1 s2 H. unfold totales_de in H. by simplify_eq. }
  unfold iterar, frames_leidos. cbn [omap list_omap].
  destruct (leido it) as [f|]; cbn [length].
  2:{ change (Z.of_nat 0) with 0.
      destruct (ultimo_frame_procesado b) as [u|] eqn:Eu.
      - destruct (wait_key_efecto b it)
          as (W1 & W2 & W3 & W4 & W5 & W6 & W7 & W8).
        cbv zeta in *. apply Htot in W5 as [W5 W5'].
        destruct (key it =? ord_q); cbn [estado_de];
          (split_and!; [lia|lia|lia|lia|congruence|done|]);
          intros Hm; rewrite (W7 Hm); split; auto.
      - cbn [estado_de]. rewrite Eu. split_and!; auto; lia. }
  change (Z.of_nat 1) with 1.
  set (b1 := con_skip (skip b + 1) b).
  change (skip b1) with (skip b + 1). rewrite paridad_skip.
  destruct (skip b mod 2 =? 1); cbn [negb].
  2:{ destruct (mostrar_efecto b1 it) as (M1 & M2 & M3 & M4 & M5 & M6).
      cbv zeta in *. apply Htot in M4 as [M4 M4'].
      change (objeto b1) with (objeto b) in *.
      change (skip b1) with (skip b + 1) in *.
      change (contador_sin_db b1) with (contador_sin_db b) in *.
      change (ultimo_frame_procesado b1) with (ultimo_frame_procesado b) in *.
      split_and!; try lia; try done.
      intros Hm. destruct (M5 Hm) as [M5a M5b]. split; [done|].
      by rewrite M5b. }
  change (objeto b1) with (objeto b).
  destruct (detectar_y_trackear_no_lanza (objeto b) f) as [[personas movs] Hd].
  destruct (detectar_y_trackear_calibracion (objeto b) f) as [Dc Dt].
  destruct (detectar_y_trackear (objeto b) f) as [s r]; cbn [fst snd] in *.
  subst r.
  set (b2 := con_ultimo_frame (Some f) (con_objeto s b1)).
  change (objeto b2) with s.
  set (b3 := if negb (modo_calibracion s) then registrar_todos b2 movs
             else b2).
  assert (H3 : calibracion_de (objeto b3) = calibracion_de s ∧
               total_entradas s ≤ total_entradas (objeto b3) ∧
               total_salidas s ≤ total_salidas (objeto b3) ∧
               skip b3 = skip b + 1 ∧
               ultimo_frame_procesado b3 = Some f ∧
               (0 ≤ contador_sin_db b ≤ 10 → 0 ≤ contador_sin_db b3 ≤ 10)).
  { subst b3. destruct (modo_calibracion s); cbn [negb].
    - split_and!; try done.
    - apply (registrar_todos_efecto movs b2). }
  destruct H3 as (R1 & R2 & R3 & R4 & R5 & R6).
  apply Htot in Dt as [Dt Dt'].
  destruct (mostrar_efecto b3 it) as (M1 & M2 & M3 & M4 & M5 & M6).
  cbv zeta in *. apply Htot in M4 as [M4 M4'].
  assert (Hcal : ∀ s1 s2, calibracion_de s1 = calibracion_de s2 →
            modo_calibracion s1 = modo_calibracion s2 ∧
            altura_real_referencia_cm s1 = altura_real_referencia_cm s2).
  { intros s1 s2 H. unfold calibracion_de in H. by simplify_eq. }
  split_and!; try lia; try congruence.
  - intros Hr. apply M6. unfold referencia_ok in *.
    destruct (Hcal _ _ R1) as [-> ->]. destruct (Hcal _ _ Dc) as [-> ->].
    exact Hr.
  - intros Hm.
    assert (Hm3 : modo_calibracion (objeto b3) = false).
    { destruct (Hcal _ _ R1) as [-> _]. destruct (Hcal _ _ Dc) as [-> _].
      exact Hm. }
    destruct (M5 Hm3) as [M5a M5b]. split; [done|].
    rewrite M5b. congruence.
Qed.

Lemma iterar_todas_cons b it its :
  iterar_todas b (it :: its)
  = match iterar b it with
    | Continua b1 => iterar_todas b1 its
    | fin => fin
    end.
Proof. reflexivity. Qed.

Lemma iterar_todas_continua b it its b' :
  iterar_todas b (it :: its) = Continua b' →
  ∃ b1, iterar b it = Continua b1 ∧ iterar_todas b1 its = Continua b'.
Proof.
  rewrite iterar_todas_cons. destruct (iterar b it) as [b1|b1|b1 e]; [|done..].
  intros H. by exists b1.
Qed.

Lemma ejecutar_inicio_referencia s w posicion altura modo b :
  referencia_ok s →
  ejecutar_inicio s w posicion altura modo = Some b →
  referencia_ok (objeto b).
Proof.
  intros Hr. unfold ejecutar_inicio, verificar_reconectar_db.
  destruct (conecta w (verificaciones w)); cbn [negb]; [|done].
  intros [= <-]. cbn [objeto].
  destruct altura as [cm|]; [|exact Hr].
  destruct (modo && negb (Qeq_bool cm 0)); [|exact Hr].
  intros _. cbn. eauto.
Qed.

Lemma iterar_todas_referencia its : ∀ b,
  referencia_ok (objeto b) →
  match iterar_todas b its with
  | Lanza b1 e => division_por_cero b1 e
  | Continua b1 | Sale b1 => referencia_ok (objeto b1)
  end.
Proof.
  induction its as [|it its IH]; intros b Hr; [exact Hr|].
  rewrite iterar_todas_cons.
  destruct (iterar_efecto b it) as (_ & _ & _ & _ & _ & H & _).
  specialize (H Hr). cbv zeta in H.
  destruct (iterar b it) as [b1|b1|b1 e]; [by apply IH|done..].
Qed.

(** X20.  The only exception that leaves [ejecutar] through the modelled
    methods is the division by zero of a confirmation: when the run ends
    with an exception, it is a [ZeroDivisionError], the object is in
    calibration mode and both points are marked at the same height.  No
    frame, click or other key raises; in particular the line is always
    set before a crossing is looked for, and a confirmation always finds
    a reference height.  The object must not start in calibration mode
    without a reference height, which holds for a fresh one. *)
Theorem ejecutar_solo_division_por_cero s w (posicion : Q)
    (altura_referencia_cm : option Q) (modo_calibracion_inicial : bool)
    (its : list iteracion) (b : bucle_ejecutar) (e : excepcion) :
  referencia_ok s →
  ejecutar s w posicion altura_referencia_cm modo_calibracion_inicial its
  = Some (Lanza b e) →
  e = ZeroDivisionError ∧
  modo_calibracion (objeto b) = true ∧
  ∃ p1 p2 : punto,
    punto1_calibracion (objeto b) = Some p1 ∧
    punto2_calibracion (objeto b) = Some p2 ∧
    p1.2 = p2.2.
Proof.
  intros Hr. unfold ejecutar.
  destruct (ejecutar_inicio s w posicion altura_referencia_cm
              modo_calibracion_inicial) as [b0|] eqn:E; [|done].
  intros [= H].
  pose proof (iterar_todas_referencia its b0
                (ejecutar_inicio_referencia _ _ _ _ _ _ Hr E)) as Hl.
  rewrite H in Hl. exact Hl.
Qed.

Lemma ejecutar_solo_division_por_cero_witness :
  let b := estado_de (iterar_todas bucle_calibrando [clics_y_c]) in
  ZeroDivisionError = ZeroDivisionError ∧
  modo_calibracion (objeto b) = true ∧
  ∃ p1 p2 : punto,
    punto1_calibracion (objeto b) = Some p1 ∧
    punto2_calibracion (objeto b) = Some p2 ∧
    p1.2 = p2.2.
Proof.
  intros b.
  apply (ejecutar_solo_division_por_cero init bd_sin_fallos (7 # 10)
           (Some 210%Q) true [clics_y_c] b ZeroDivisionError).
  - intros H. discriminate H.
  - reflexivity.
Defined.

Lemma iterar_todas_sin_modo its : ∀ b,
  modo_calibracion (objeto b) = false →
  ∃ b', (iterar_todas b its = Continua b' ∨ iterar_todas b its = Sale b') ∧
        calibracion_de (objeto b') = calibracion_de (objeto b).
Proof.
  induction its as [|it its IH]; intros b Hm; [exists b; auto|].
  rewrite iterar_todas_cons.
  destruct (iterar_efecto b it) as (_ & _ & _ & _ & _ & _ & H).
  destruct (H Hm) as [[Hs|Hc] Hcal]; cbv zeta in *.
  - rewrite Hs. eexists. split; [by right|exact Hcal].
  - rewrite Hc.
    assert (Hm1 : modo_calibracion (objeto (estado_de (iterar b it))) = false).
    { unfold calibracion_de in Hcal. simplify_eq. congruence. }
    destruct (IH _ Hm1) as (b' & Hb' & Hcal').
    exists b'. split; [done|]. congruence.
Qed.

(** X21.  Outside the calibration mode the loop of [ejecutar] cannot
    calibrate.  Whatever frames, clicks and keys the iterations meet,
    none raises, and the calibration attributes of the object, that is
    the flag, the two reference heights, the factor, the mode and the
    two points, are after them what they were: [c], [r] and the clicks
    do nothing, and nothing in the loop turns the mode on again.  So a
    calibration confirmed in a run is final for that run, and a run
    started outside the calibration mode keeps the calibration it started
    with. *)
Theorem ejecutar_calibracion_definitiva (b : bucle_ejecutar)
    (its : list iteracion) :
  modo_calibracion (objeto b) = false →
  ∃ b', (iterar_todas b its = Continua b' ∨ iterar_todas b its = Sale b') ∧
        calibrado (objeto b') = calibrado (objeto b) ∧
        altura_real_referencia_cm (objeto b')
        = altura_real_referencia_cm (objeto b) ∧
        altura_pixeles_referencia (objeto b')
        = altura_pixeles_referencia (objeto b) ∧
        factor_conversion (objeto b') = factor_conversion (objeto b) ∧
        modo_calibracion (objeto b') = false ∧
        punto1_calibracion (objeto b') = punto1_calibracion (objeto b) ∧
        punto2_calibracion (objeto b') = punto2_calibracion (objeto b).
Proof.
  intros Hm. destruct (iterar_todas_sin_modo its b Hm) as (b' & Hb' & Hcal).
  exists b'. split; [exact Hb'|].
  unfold calibracion_de in Hcal. simplify_eq. split_and!; congruence.
Qed.

Lemma ejecutar_calibracion_definitiva_witness :
  ∃ b', (iterar_todas bucle_sin_calibrar [clics_y_c; clics_y_c]
         = Continua b' ∨
         iterar_todas bucle_sin_calibrar [clics_y_c; clics_y_c] = Sale b') ∧
        calibrado (objeto b') = calibrado (objeto bucle_sin_calibrar) ∧
        altura_real_referencia_cm (objeto b')
        = altura_real_referencia_cm (objeto bucle_sin_calibrar) ∧
        altura_pixeles_referencia (objeto b')
        = altura_pixeles_referencia (objeto bucle_sin_calibrar) ∧
        factor_conversion (objeto b')
        = factor_conversion (objeto bucle_sin_calibrar) ∧
        modo_calibracion (objeto b') = false ∧
        punto1_calibracion (objeto b')
        = punto1_calibracion (objeto bucle_sin_calibrar) ∧
        punto2_calibracion (objeto b')
        = punto2_calibracion (objeto bucle_sin_calibrar).
Proof.
  apply (ejecutar_calibracion_definitiva bucle_sin_calibrar
           [clics_y_c; clics_y_c]).
  reflexivity.
Defined.

Lemma iterar_todas_frames its : ∀ b b',
  iterar_todas b its = Continua b' →
  skip b' = skip b + Z.of_nat (length (frames_leidos its)) ∧
  ultimo_frame_procesado b'
  = match last (alternos (skip b mod 2 =? 1) (frames_leidos its)) with
    | Some f => Some f
    | None => ultimo_frame_procesado b
    end.
Proof.
  induction its as [|it its IH]; intros b b' H.
  { injection H as <-. cbn. split; [lia|done]. }
  apply iterar_todas_continua in H as (b1 & H1 & H).
  destruct (iterar_efecto b it) as (_ & _ & _ & Hs & Hu & _).
  cbv zeta in Hs, Hu. rewrite H1 in Hs, Hu. cbn [estado_de] in Hs, Hu.
  destruct (IH b1 b' H) as [Is Iu].
  unfold frames_leidos in *. cbn [omap list_omap] in *.
  destruct (leido it) as [f|]; cbn [length alternos] in *.
  - split; [lia|].
    assert (Hq : ((skip b + 1) mod 2 =? 1) = negb (skip b mod 2 =? 1)).
    { destruct (Z.eqb_spec ((skip b + 1) mod 2) 1) as [H0|H0];
        destruct (Z.eqb_spec (skip b mod 2) 1) as [H0'|H0']; try done;
        exfalso; revert H0 H0'; Z.div_mod_to_equations; lia. }
    change (Z.of_nat 1) with 1 in Hs.
    rewrite Iu, Hs, Hq, Hu.
    destruct (skip b mod 2 =? 1); cbn [negb].
    + rewrite last_cons.
      by destruct (last (alternos false (omap leido its))).
    + done.
  - split; [lia|]. rewrite Iu, Hs, Hu. by rewrite Z.add_0_r.
Qed.

(** X22.  [ejecutar] analyses every second frame that the reader hands
    over, starting with the second: while the loop goes on, [skip] counts
    the frames read, reads that gave no frame not counting, and the last
    processed frame is the last one at an even position among them. *)
Theorem ejecutar_frames_alternos s w (posicion : Q)
    (altura_referencia_cm : option Q) (modo_calibracion_inicial : bool)
    (its : list iteracion) (b : bucle_ejecutar) :
  ejecutar s w posicion altura_referencia_cm modo_calibracion_inicial its
  = Some (Continua b) →
  skip b = Z.of_nat (length (frames_leidos its)) ∧
  ultimo_frame_procesado b = last (alternos false (frames_leidos its)).
Proof.
  unfold ejecutar.
  destruct (ejecutar_inicio s w posicion altura_referencia_cm
              modo_calibracion_inicial) as [b0|] eqn:E; [|done].
  intros [= H].
  assert (H0 : skip b0 = 0 ∧ ultimo_frame_procesado b0 = None).
  { unfold ejecutar_inicio, verificar_reconectar_db in E.
    destruct (conecta w (verificaciones w)); cbn [negb] in E; [|done].
    by injection E as <-. }
  destruct H0 as [Hs Hu].
  destruct (iterar_todas_frames its b0 b H) as [H1 H2].
  rewrite Hs in H1, H2. rewrite Hu in H2.
  split; [lia|].
  rewrite H2. change (0 mod 2 =? 1) with false.
  by destruct (last (alternos false (frames_leidos its))).
Qed.

Lemma iterar_todas_contadores its : ∀ b,
  0 ≤ contador_sin_db b ≤ 10 →
  let b' := estado_de (iterar_todas b its) in
  0 ≤ contador_sin_db b' ≤ 10 ∧
  total_entradas (objeto b) ≤ total_entradas (objeto b') ∧
  total_salidas (objeto b) ≤ total_salidas (objeto b').
Proof.
  induction its as [|it its IH]; intros b Hc; [cbn; lia|].
  rewrite iterar_todas_cons.
  destruct (iterar_efecto b it) as (He & Hs & Hc' & _).
  cbv zeta in *. specialize (Hc' Hc).
  destruct (iterar b it) as [b1|b1|b1 e]; cbn [estado_de] in *; [|lia..].
  destruct (IH b1 Hc') as (I1 & I2 & I3). lia.
Qed.

(** X23.  Through a run of [ejecutar] the totals of entries and of exits
    kept in memory never decrease, and the counter of failed
    registrations stays between 0 and 10, however the run ends. *)
Theorem ejecutar_contadores s w (posicion : Q)
    (altura_referencia_cm : option Q) (modo_calibracion_inicial : bool)
    (its : list iteracion) (r : fin_iteracion) :
  ejecutar s w posicion altura_referencia_cm modo_calibracion_inicial its
  = Some r →
  0 ≤ contador_sin_db (estado_de r) ≤ 10 ∧
  total_entradas s ≤ total_entradas (objeto (estado_de r)) ∧
  total_salidas s ≤ total_salidas (objeto (estado_de r)).
Proof.
  unfold ejecutar.
  destruct (ejecutar_inicio s w posicion altura_referencia_cm
              modo_calibracion_inicial) as [b0|] eqn:E; [|done].
  intros [= <-].
  assert (H0 : contador_sin_db b0 = 0 ∧
               totales_de (objeto b0) = totales_de s).
  { unfold ejecutar_inicio, verificar_reconectar_db in E.
    destruct (conecta w (verificaciones w)); cbn [negb] in E; [|done].
    injection E as <-. split; [done|]. cbn [objeto].
    destruct altura_referencia_cm as [cm|]; [|done].
    by destruct (modo_calibracion_inicial && negb (Qeq_bool cm 0)). }
  destruct H0 as [Hc Ht].
  destruct (iterar_todas_contadores its b0) as (I1 & I2 & I3); [lia|].
  unfold totales_de in Ht. simplify_eq. cbv zeta in *. lia.
Qed.

Lemma ejecutar_frames_alternos_witness :
  let b := estado_de (iterar_todas bucle_sin_calibrar caminata) in
  skip b = Z.of_nat (length (frames_leidos caminata)) ∧
  ultimo_frame_procesado b = last (alternos false (frames_leidos caminata)).
Proof.
  intros b.
  apply (ejecutar_frames_alternos init bd_sin_fallos (7 # 10) None false
           caminata b).
  vm_compute. reflexivity.
Defined.

Lemma ejecutar_contadores_witness :
  let r := iterar_todas bucle_sin_calibrar caminata in
  0 ≤ contador_sin_db (estado_de r) ≤ 10 ∧
  total_entradas init ≤ total_entradas (objeto (estado_de r)) ∧
  total_salidas init ≤ total_salidas (objeto (estado_de r)).
Proof.
  intros r.
  apply (ejecutar_contadores init bd_sin_fallos (7 # 10) None false
           caminata r).
  vm_compute. reflexivity.
Defined.

(** The walk of the example is registered as one entry. *)
Lemma caminata_registrada :
  let b := estado_de (iterar_todas bucle_sin_calibrar caminata) in
  totales_de (objeto b) = (1, 0) ∧ intentos_hechos (bd b) = 1%nat ∧
  skip b = 6.
Proof. by vm_compute. Qed.


(** ** Registro sin fallos *)

Lemma cuantos_cons tipo m movs :
  cuantos tipo (m :: movs)
  = (if decide (m_tipo m = tipo) then 1 else 0) + cuantos tipo movs.
Proof.
  unfold cuantos. destruct (decide (m_tipo m = tipo)) as [H|H].
  - rewrite filter_cons_True by done. cbn [length]. lia.
  - rewrite filter_cons_False by done. lia.
Qed.

Lemma registrar_movimiento_sin_fallos w s tipo :
  (∀ n, conecta w n = true) → (∀ n, responde w n = Correcto) →
  let r := registrar_movimiento w s tipo in
  r.2 = true ∧ r.1.2 = contar_movimiento tipo s ∧
  conecta r.1.1 = conecta w ∧ responde r.1.1 = responde w ∧
  intentos_hechos r.1.1 = S (intentos_hechos w).
Proof.
  intros Hc Hr. unfold registrar_movimiento, verificar_reconectar_db.
  rewrite Hc. cbn [negb intentar enviar_intento intentos_hechos responde].
  rewrite Hr. done.
Qed.

(** X24.  With a database that answers every check and every attempt
    without an error, the registration loop of [ejecutar] counts every
    movement once: the total of entries rises by the number of entries of
    the list, the total of exits by its number of exits, nothing else of
    the object changes, one attempt is made per movement, and the failure
    counter is 0 after a list that is not empty. *)
Theorem registrar_todos_sin_fallos (b : bucle_ejecutar)
    (movimientos : list mov_info) :
  (∀ n, conecta (bd b) n = true) →
  (∀ n, responde (bd b) n = Correcto) →
  let b' := registrar_todos b movimientos in
  objeto b'
  = set_totales (total_entradas (objeto b) + cuantos entrada movimientos)
      (total_salidas (objeto b) + cuantos salida movimientos) (objeto b) ∧
  intentos_hechos (bd b')
  = (intentos_hechos (bd b) + length movimientos)%nat ∧
  (movimientos ≠ [] → contador_sin_db b' = 0).
Proof.
  revert b. induction movimientos as [|m movs IH]; intros b Hc Hr.
  { change (cuantos entrada []) with 0. change (cuantos salida []) with 0.
    cbn [registrar_todos length]. split_and!; [|lia|done].
    rewrite !Z.add_0_r. by destruct (objeto b). }
  cbn [registrar_todos].
  destruct (registrar_movimiento_sin_fallos (bd b) (objeto b) (m_tipo m)
              Hc Hr) as (H1 & H2 & H3 & H4 & H5).
  cbv zeta in *.
  destruct (registrar_movimiento (bd b) (objeto b) (m_tipo m))
    as [[w s] exito]; cbn [fst snd] in *. subst exito s. cbn [negb].
  match goal with
  | |- context [registrar_todos ?b1 movs] =>
      destruct (IH b1) as (I1 & I2 & I3)
  end.
  { cbn [bd con_contador con_bd con_objeto]. by rewrite H3. }
  { cbn [bd con_contador con_bd con_objeto]. by rewrite H4. }
  cbn [objeto bd con_contador con_bd con_objeto contador_sin_db] in *.
  split_and!.
  - rewrite I1, !cuantos_cons.
    destruct (m_tipo m); repeat (case_decide; try done);
      unfold contar_movimiento, set_totales; cbn; f_equal; lia.
  - rewrite I2, H5. cbn [length]. lia.
  - intros _. destruct movs as [|m' movs']; [done|]. by apply I3.
Qed.

Lemma registrar_todos_sin_fallos_witness :
  let b := bucle_sin_calibrar in
  let movimientos :=
    [ {| m_tipo := entrada; m_clasificacion := SinCalibrar;
         m_altura_px := 200; m_altura_cm := None |};
      {| m_tipo := salida; m_clasificacion := SinCalibrar;
         m_altura_px := 180; m_altura_cm := None |};
      {| m_tipo := entrada; m_clasificacion := SinCalibrar;
         m_altura_px := 150; m_altura_cm := None |} ] in
  let b' := registrar_todos b movimientos in
  objeto b'
  = set_totales (total_entradas (objeto b) + cuantos entrada movimientos)
      (total_salidas (objeto b) + cuantos salida movimientos) (objeto b) ∧
  intentos_hechos (bd b')
  = (intentos_hechos (bd b) + length movimientos)%nat ∧
  (movimientos ≠ [] → contador_sin_db b' = 0).
Proof.
  intros b movimientos.
  apply (registrar_todos_sin_fallos b movimientos); intros n; reflexivity.
Defined.
